(** * Smart-Dispatcher: the campaign dispatch engine

    A shallow embedding of the JavaScript sources of the dispatch engine:
    the template engine ([applyTemplate]), the dispatcher
    ([Dispatcher.dispatch]), the campaign manager ([CampaignManager]),
    the start route of the API server and the session-list reconciliation
    of the dashboard ([mergeSessions]).

    Conventions of the embedding.
    - A JavaScript string is a [string] of code units; the code units are
      restricted to U+0000..U+00FF (one [ascii] each).
    - A plain object used as a dictionary is a [gmap string _]; an array is
      a [list]; a [Map] is an association list in insertion order.
    - [undefined]/[null] in an optional position is [None].
    - A call that may throw returns an [outcome]: [Threw msg] carries the
      [message] of the error.
    - Everything the process observes from outside (the clock, the random
      draws, the behaviour of an account client, the parser) is an explicit
      argument. *)

From Equations Require Import Equations.
From stdpp Require Import base option list gmap strings pretty.
From Stdlib Require Import ZArith Ascii String Lia.

Open Scope string_scope.

(** ** JavaScript values and results *)

(** The values that occur as template variables. *)
Inductive jsval : Type :=
| JUndefined
| JNull
| JStr (s : string)
| JInt (z : Z).

(** [String(value)] for the values above.  An integer is written with all
    its digits, as [String] does below 10^21 in absolute value; from there
    on [String] turns to the exponent notation. *)
Definition js_String (v : jsval) : string :=
  match v with
  | JUndefined => "undefined"
  | JNull => "null"
  | JStr s => s
  | JInt z => pretty z
  end.

(** [value == null] holds of [null] and [undefined] only. *)
Definition js_isNullish (v : jsval) : bool :=
  match v with
  | JUndefined | JNull => true
  | _ => false
  end.

(** The result of a call that may throw. *)
Inductive outcome (A : Type) : Type :=
| Returned (a : A)
| Threw (message : string).
Arguments Returned {A} a.
Arguments Threw {A} message.

(** Truthiness of a string: every string but the empty one. *)
Definition truthy (s : string) : bool :=
  match s with
  | "" => false
  | _ => true
  end.

(** ** The template engine (campaign/templateEngine.js) *)

Module TemplateEngine.

(** *** String helpers of the JavaScript library *)

(** WhiteSpace and LineTerminator code units below U+0100, the ones
    [String.prototype.trim] strips. *)
Definition isWhiteSpace (c : ascii) : bool :=
  let n := nat_of_ascii c in
  (n =? 9)%nat || (n =? 10)%nat || (n =? 11)%nat || (n =? 12)%nat
  || (n =? 13)%nat || (n =? 32)%nat || (n =? 160)%nat.

Fixpoint trimStart (s : string) : string :=
  match s with
  | String c s' => if isWhiteSpace c then trimStart s' else s
  | "" => ""
  end.

Fixpoint trimEnd (s : string) : string :=
  match s with
  | String c s' =>
      match trimEnd s' with
      | "" => if isWhiteSpace c then "" else String c ""
      | t => String c t
      end
  | "" => ""
  end.

Definition trim (s : string) : string := trimEnd (trimStart s).

(** Lower-casing of one code unit below U+0100: A-Z, and the accented
    capitals U+00C0..U+00DE except the multiplication sign U+00D7. *)
Definition lowerChar (c : ascii) : ascii :=
  let n := nat_of_ascii c in
  if ((65 <=? n)%nat && (n <=? 90)%nat)
     || ((192 <=? n)%nat && (n <=? 222)%nat && negb (n =? 215)%nat)
  then ascii_of_nat (n + 32)
  else c.

Fixpoint toLowerCase (s : string) : string :=
  match s with
  | String c s' => String (lowerChar c) (toLowerCase s')
  | "" => ""
  end.

(** [String(key).trim().toLowerCase()]. *)
Definition normalizeKey (key : string) : string := toLowerCase (trim key).

(** *** normalizeVariables *)

(** [acc[k] = v] on a plain object, for a string [v]: every key becomes
    an own property, except [__proto__], whose setter ignores a value
    that is neither an object nor [null]. *)
Definition assignProp (k v : string) (acc : gmap string string)
  : gmap string string :=
  if decide (k = "__proto__") then acc else <[k := v]> acc.

(** One step of the [reduce]. *)
Definition normalizeEntry (acc : gmap string string)
           (entry : string * jsval) : gmap string string :=
  let '(key, value) := entry in
  if negb (truthy key) then acc
  else assignProp (normalizeKey key)
                  (if js_isNullish value then "" else js_String value) acc.

(** [variables] is given as [Object.entries(variables)]. *)
Definition normalizeVariables (variables : list (string * jsval))
  : gmap string string :=
  fold_left normalizeEntry variables ∅.

(** *** The placeholder pattern

    [/\{([^{}|/]+)\}|\[([^\[\]]+)\]/g].  Both alternatives have the shape
    opener, a non-empty greedy run over a negated class, closer, and the
    closer is excluded from the class; a shorter run is therefore always
    followed by a character of the class, never by the closer, so
    backtracking cannot produce a match the longest run does not. *)

Definition braceKeyChar (c : ascii) : bool :=
  negb (Ascii.eqb c "{" || Ascii.eqb c "}" || Ascii.eqb c "|"
        || Ascii.eqb c "/")%char.

Definition bracketKeyChar (c : ascii) : bool :=
  negb (Ascii.eqb c "[" || Ascii.eqb c "]")%char.

(** The longest prefix whose characters satisfy [p], and the rest. *)
Fixpoint span (p : ascii -> bool) (s : string) : string * string :=
  match s with
  | String c s' =>
      if p c then let '(run, rest) := span p s' in (String c run, rest)
      else ("", s)
  | "" => ("", "")
  end.

(** Opener, non-empty run, closer at the head of [s]: the captured key
    and what follows the match. *)
Definition matchDelimited (opener closer : ascii) (p : ascii -> bool)
           (s : string) : option (string * string) :=
  match s with
  | String c s' =>
      if Ascii.eqb c opener then
        match span p s' with
        | (String k key, String c' rest) =>
            if Ascii.eqb c' closer then Some (String k key, rest) else None
        | _ => None
        end
      else None
  | "" => None
  end.

(** One match of the pattern. *)
Record placeholder : Type := Placeholder {
  ph_match : string;   (* the matched text, delimiters included *)
  ph_rawKey : string;  (* rawKeyBraces || rawKeyBrackets *)
  ph_rest : string     (* the template after the match *)
}.

(** A match of the whole pattern at the head of [s]; the first alternative
    is tried first. *)
Definition matchAt (s : string) : option placeholder :=
  match matchDelimited "{" "}" braceKeyChar s with
  | Some (key, rest) =>
      Some (Placeholder (String "{" (key +:+ String "}" "")) key rest)
  | None =>
      match matchDelimited "[" "]" bracketKeyChar s with
      | Some (key, rest) =>
          Some (Placeholder (String "[" (key +:+ String "]" "")) key rest)
      | None => None
      end
  end.

(** The replacer callback. *)
Definition replacer (normalized : gmap string string)
           (matched rawKey : string) : string :=
  match normalized !! normalizeKey rawKey with
  | Some value => value
  | None => matched
  end.

Lemma span_length p s run rest :
  span p s = (run, rest) ->
  String.length s = (String.length run + String.length rest)%nat.
Proof.
  revert run rest. induction s as [|c s IH]; intros run rest; simpl.
  - intros [= <- <-]. reflexivity.
  - destruct (p c).
    + destruct (span p s) as [r1 r2] eqn:E. intros [= <- <-].
      simpl. rewrite (IH _ _ eq_refl). reflexivity.
    + intros [= <- <-]. reflexivity.
Qed.

Lemma matchDelimited_shorter o c p s key rest :
  matchDelimited o c p s = Some (key, rest) ->
  (String.length rest < String.length s)%nat.
Proof.
  destruct s as [|a s]; simpl; [discriminate|].
  destruct (Ascii.eqb a o); [|discriminate].
  destruct (span p s) as [run tl] eqn:E.
  destruct run as [|k run]; [discriminate|].
  destruct tl as [|c' tl]; [discriminate|].
  destruct (Ascii.eqb c' c); [|discriminate].
  intros [= <- <-]. apply span_length in E. simpl in E. lia.
Qed.

Lemma matchAt_shorter s ph :
  matchAt s = Some ph -> (String.length (ph_rest ph) < String.length s)%nat.
Proof.
  unfold matchAt.
  destruct (matchDelimited "{" "}" braceKeyChar s) as [[k r]|] eqn:E1.
  - intros [= <-]. simpl. eapply matchDelimited_shorter, E1.
  - destruct (matchDelimited "[" "]" bracketKeyChar s) as [[k r]|] eqn:E2;
      [|discriminate].
    intros [= <-]. simpl. eapply matchDelimited_shorter, E2.
Qed.

(** A value together with the equation that it is the scrutinee. *)
Definition with_eqn {A : Type} (a : A) : {b : A | a = b} :=
  exist _ a eq_refl.

(** [template.replace(pattern, replacer)] with the global flag: scan from
    the left; at a match emit the replacer's result and go on after the
    match (the result is not scanned again); otherwise copy one character. *)
Equations? replacePlaceholders (normalized : gmap string string)
           (s : string) : string by wf (String.length s) lt :=
  replacePlaceholders normalized "" := "";
  replacePlaceholders normalized (String c s') with
      with_eqn (matchAt (String c s')) := {
    | exist _ (Some ph) _ :=
        replacer normalized (ph_match ph) (ph_rawKey ph)
          +:+ replacePlaceholders normalized (ph_rest ph);
    | exist _ None _ := String c (replacePlaceholders normalized s') }.
Proof.
  - apply matchAt_shorter in e. exact e.
  - simpl. lia.
Qed.

Section WithSpintax.

(** [SpintaxParser.parse] (campaign/spintax.js) is not part of the
    sources at hand; it is a parameter.  Its random choices are fixed
    inside the function given. *)
Variable spintaxParse : string -> string.

Definition withVariables (template : string)
           (variables : list (string * jsval)) : string :=
  replacePlaceholders (normalizeVariables variables) template.

Definition applyTemplate (template : string)
           (variables : list (string * jsval)) : string :=
  if negb (truthy template) then ""
  else spintaxParse (withVariables template variables).

End WithSpintax.

End TemplateEngine.

(** ** The dispatcher (dispatch/dispatcher.js) *)

(** Message statuses, as the sources spell them. *)
Inductive Status : Type :=
| SENDING | SENT | DELIVERED | SERVER_ACK | FAILED | READ | PLAYED.

#[global] Instance Status_eq_dec : EqDecision Status.
Proof. solve_decision. Defined.

(** The delay override of a campaign, in milliseconds. *)
Record DelayConfig : Type := mkDelayConfig {
  minDelay : option Z;
  maxDelay : option Z
}.

(** The correlation metadata passed along with a send. *)
Record Correlation : Type := mkCorrelation {
  cor_campaignId : option string;
  cor_contactId : option string;
  cor_clientMessageId : option string;
  cor_correlationId : option string
}.

Module Dispatcher.
Import TemplateEngine.

(** What [sendMessage] resolves to. *)
Record SendResult : Type := mkSendResult {
  sr_messageId : option string;
  sr_jid : option string
}.

(** Modelled from the spec: the account client (whatsapp/whatsappClient.js)
    is not among the sources.  This is the handle as the dispatcher sees
    it during one call; [waitUntilReady] and [enterCooldown] are the
    optional capabilities.  [sendMessage], [waitForDelivery] and
    [waitUntilReady] can fail (send failure, acknowledgement timeout,
    session timeout); [enterCooldown] marks the account busy for a
    duration and has no failure in the error taxonomy, so it always
    resolves. *)
Record Client : Type := mkClient {
  c_id : string;
  c_waitUntilReady : option (Z -> outcome unit);
  c_sendMessage : string -> string -> Correlation -> outcome (option SendResult);
  c_waitForDelivery : string -> Z -> outcome unit;
  c_enterCooldown : bool
}.

(** The calls the dispatcher makes on the selected account and on the
    timer, in the order they are made. *)
Inductive effect : Type :=
| CallWaitUntilReady (chip : string) (timeoutMs : Z)
| Sleep (ms : Z)
| CallSendMessage (chip phone text : string) (correlation : Correlation)
| CallWaitForDelivery (chip messageId : string) (timeoutMs : Z)
| CallEnterCooldown (chip : string) (durationMs : Z) (reason : string).

(** A computation that makes calls and then returns or throws. *)
Definition io (A : Type) : Type := (list effect * outcome A)%type.

Definition ret {A : Type} (a : A) : io A := ([], Returned a).

Definition throw {A : Type} (message : string) : io A := ([], Threw message).

Definition perform {A : Type} (e : effect) (result : outcome A) : io A :=
  ([e], result).

Definition bind {A B : Type} (m : io A) (k : A -> io B) : io B :=
  match m with
  | (t, Returned a) => let '(t', r) := k a in ((t ++ t')%list, r)
  | (t, Threw e) => (t, Threw e)
  end.

(** [try { m } catch (e) { ... }] as a value: the error is handed over
    instead of propagating. *)
Definition attempt {A : Type} (m : io A) : io (outcome A) :=
  (fst m, Returned (snd m)).

Declare Scope io_scope.
Delimit Scope io_scope with io.
Notation "x <- m ;; k" := (bind m (fun x => k))
  (at level 100, m at next level, right associativity) : io_scope.
Notation "m ;;; k" := (bind m (fun _ => k))
  (at level 100, right associativity) : io_scope.

Record Delays : Type := mkDelays {
  typing : Z;
  wait : Z
}.

Record DispatchResult : Type := mkDispatchResult {
  status : Status;
  chip : string;
  message : string;
  clientMessageId : option string;
  messageId : option string;
  jid : option string;
  delays : option Delays
}.

Record Payload : Type := mkPayload {
  p_phone : string;
  p_messageTemplate : string;
  p_variables : list (string * jsval);
  p_correlation : Correlation;
  p_delayConfig : DelayConfig;
  p_dryRun : bool
}.

(** What one call of [dispatch] meets: the account the load balancer hands
    out ([None] for no account), and the delays the compliance engine
    computes (whatsapp/loadBalancer.js and compliance/engine.js are not
    among the sources). *)
Record DispatchEnv : Type := mkDispatchEnv {
  getNextClient : option Client;
  getTypingDelay : DelayConfig -> string -> Z;
  getVariableDelay : DelayConfig -> Z
}.

(** A truthy provider message id. *)
Definition truthyId (o : option string) : option string :=
  match o with
  | Some s => if truthy s then Some s else None
  | None => None
  end.

Section Dispatch.

Variable spintaxParse : string -> string.

Definition dispatch (env : DispatchEnv) (p : Payload) : io DispatchResult :=
  let finalMessage :=
    applyTemplate spintaxParse (p_messageTemplate p) (p_variables p) in
  match getNextClient env with
  | None => throw "No active sessions available for dispatch."
  | Some client =>
    (match c_waitUntilReady client with
     | Some waitUntilReady =>
         perform (CallWaitUntilReady (c_id client) 30000)
                 (waitUntilReady 30000%Z)
     | None => ret tt
     end ;;;
     let typingTime := getTypingDelay env (p_delayConfig p) finalMessage in
     let postSendDelay := getVariableDelay env (p_delayConfig p) in
     let result st mid j :=
       mkDispatchResult st (c_id client) finalMessage
         (cor_clientMessageId (p_correlation p)) mid j
         (Some (mkDelays typingTime postSendDelay)) in
     if negb (p_dryRun p) then
       perform (Sleep typingTime) (Returned tt) ;;;
       sendResult <-
         perform (CallSendMessage (c_id client) (p_phone p) finalMessage
                                  (p_correlation p))
                 (c_sendMessage client (p_phone p) finalMessage
                                (p_correlation p)) ;;
       let sentId := sendResult ≫= sr_messageId in
       let sentJid := sendResult ≫= sr_jid in
       let flowComplete :=
         (if c_enterCooldown client then
            perform (CallEnterCooldown (c_id client) postSendDelay
                                       "post_send_delay")
                    (Returned tt)
          else ret tt) ;;;
         ret (result DELIVERED sentId sentJid) in
       match truthyId sentId with
       | Some msgId =>
           acked <-
             attempt (perform (CallWaitForDelivery (c_id client) msgId 20000)
                              (c_waitForDelivery client msgId 20000%Z)) ;;
           match acked with
           | Threw _ =>
               (* the catch block returns from [dispatch] *)
               ret (result SENT (Some msgId) sentJid)
           | Returned _ => flowComplete
           end
       | None => flowComplete
       end
     else
       ret (result DELIVERED None None))%io
  end.

End Dispatch.

End Dispatcher.

(** ** The campaign manager (campaign/campaignManager.js) *)

(** A JSON document on disk: missing, unparsable, or holding a value. *)
Inductive file (A : Type) : Type :=
| Absent
| Corrupt
| Doc (a : A).
Arguments Absent {A}.
Arguments Corrupt {A}.
Arguments Doc {A} a.

Module CampaignManager.
Import TemplateEngine Dispatcher.

(** *** Daily statistics *)

(** The daily stats document; a field the document lacks is [None]. *)
Record DailyStats : Type := mkDailyStats {
  ds_date : option string;
  totalSent : option nat;
  totalDelivered : option nat;
  hourly : option (gmap string nat)
}.

(** The two readings of the clock the stats use: the UTC calendar day
    ([toISOString().split('T')[0]]) and the local hour ([getHours()]). *)
Record Clock : Type := mkClock {
  isoNow : string;
  today : string;
  hours : nat
}.

(** [s.padStart(2, '0')]. *)
Definition padStart2 (s : string) : string :=
  match String.length s with
  | 0 => "00"
  | 1 => "0" +:+ s
  | _ => s
  end.

(** [`${hour.toString().padStart(2, '0')}:00`]. *)
Definition hourKey (hour : nat) : string := padStart2 (pretty hour) +:+ ":00".

(** [['SENT', 'DELIVERED', 'SERVER_ACK'].includes(status)]. *)
Definition countsAsSent (status : Status) : bool :=
  match status with
  | SENT | DELIVERED | SERVER_ACK => true
  | _ => false
  end.

(** The record a new day starts from. *)
Definition freshStats (day : string) : DailyStats :=
  mkDailyStats (Some day) (Some 0) (Some 0) (Some ∅).

(** The increment of [totalSent] and of the hour's bucket. *)
Definition countSend (hour : nat) (stats : DailyStats) : DailyStats :=
  let buckets := default ∅ (hourly stats) in
  mkDailyStats (ds_date stats)
    (Some (default 0 (totalSent stats) + 1))
    (totalDelivered stats)
    (Some (<[hourKey hour := default 0 (buckets !! hourKey hour) + 1]> buckets)).

(** [_updateDailyStats(status)]: the stats file afterwards and the value
    returned ([None] for [null], when reading the file threw). *)
Definition _updateDailyStats (status : Status) (clock : Clock)
           (statsFile : file DailyStats) : file DailyStats * option DailyStats :=
  match statsFile with
  | Corrupt => (Corrupt, None)
  | _ =>
      let stored :=
        match statsFile with
        | Doc s => s
        | _ => mkDailyStats None None None None
        end in
      let stats :=
        if decide (ds_date stored = Some (today clock)) then stored
        else freshStats (today clock) in
      let stats :=
        if countsAsSent status then countSend (hours clock) stats else stats in
      (Doc stats, Some stats)
  end.

(** [getDailyStats()]: a read; the file is not written. *)
Definition getDailyStats (clock : Clock) (statsFile : file DailyStats)
  : DailyStats :=
  match statsFile with
  | Doc stats =>
      if decide (ds_date stats = Some (today clock)) then stats
      else freshStats (today clock)
  | _ => freshStats (today clock)
  end.

(** *** Campaign state *)

(** A contact row as the loop reads it ([row], [name], [phone]). *)
Record Contact : Type := mkContact {
  row : Z;
  name : string;
  phone : string
}.

Record Config : Type := mkConfig {
  cfg_messageTemplate : string;
  cfg_excelPath : string;
  cfg_originalFilename : string;
  cfg_delayConfig : DelayConfig
}.

Record FailedRow : Type := mkFailedRow {
  f_row : Z;
  f_error : string
}.

Record MessageStatus : Type := mkMessageStatus {
  ms_campaignId : string;
  ms_contactId : string;
  ms_phone : string;
  ms_status : Status;
  ms_error : option string;
  ms_updatedAt : string
}.

(** The campaign state document.  A list the document lacks reads as the
    empty list wherever the code guards the access. *)
Record CampaignState : Type := mkCampaignState {
  campaignId : option string;
  totalContacts : option nat;
  processedRows : list Z;
  failedRows : list FailedRow;
  pendingRows : list Z;
  messageStatus : gmap string MessageStatus;
  config : option Config
}.

(** What [loadState] returns when there is no readable state file. *)
Definition emptyState : CampaignState :=
  mkCampaignState None None [] [] [] ∅ None.

(** The events handed to [_emitEvent], with their payloads. *)
Inductive Event : Type :=
| campaign_started (campaign : string) (total remaining : nat)
| message_status (campaign contactId clientMessageId correlationId : string)
                 (status : Status) (phone : string) (error : option string)
| queue_update (current : nat) (total : option nat)
| cooldown_wait (campaign : string) (duration : Z) (min max : option Z)
| campaign_finished (campaign : string) (processed failed : nat)
| log (text : string).

(** The manager, the two files it owns, and what it has done so far: the
    calls of [_emitEvent] and the calls made on accounts, oldest first.
    [currentState] and the [state] of a running [startCampaign] are one
    object, so every change of the running state is a change of
    [currentState].  Writing a file is taken to succeed. *)
Record World : Type := mkWorld {
  stateFile : file CampaignState;
  statsFile : file DailyStats;
  currentState : option CampaignState;
  isPaused : bool;
  emitted : list Event;
  calls : list effect
}.

Definition loadState (w : World) : CampaignState :=
  match stateFile w with
  | Doc state => state
  | _ => emptyState
  end.

Definition saveState (state : CampaignState) (w : World) : World :=
  mkWorld (Doc state) (statsFile w) (currentState w) (isPaused w)
          (emitted w) (calls w).

Definition setCurrentState (state : CampaignState) (w : World) : World :=
  mkWorld (stateFile w) (statsFile w) (Some state) (isPaused w)
          (emitted w) (calls w).

Definition setPaused (b : bool) (w : World) : World :=
  mkWorld (stateFile w) (statsFile w) (currentState w) b
          (emitted w) (calls w).

Definition _emitEvent (ev : Event) (w : World) : World :=
  mkWorld (stateFile w) (statsFile w) (currentState w) (isPaused w)
          (emitted w ++ [ev])%list (calls w).

Definition recordCalls (t : list effect) (w : World) : World :=
  mkWorld (stateFile w) (statsFile w) (currentState w) (isPaused w)
          (emitted w) (calls w ++ t)%list.

Definition writeStats (clock : Clock) (status : Status) (w : World) : World :=
  mkWorld (stateFile w) (fst (_updateDailyStats status clock (statsFile w)))
          (currentState w) (isPaused w) (emitted w) (calls w).

(** A recorded campaign id: neither [null] nor the empty string. *)
Definition recordedId (state : CampaignState) : option string :=
  truthyId (campaignId state).

(** [hasActiveCampaign()]. *)
Definition hasActiveCampaign (w : World) : bool :=
  let state := default (loadState w) (currentState w) in
  match recordedId state with
  | None => false
  | Some _ =>
      let total := default 0 (totalContacts state) in
      let processed := List.length (processedRows state) in
      if (total =? 0)%nat && (0 <? List.length (pendingRows state))%nat then true
      else if (0 <? total)%nat && (processed <? total)%nat then true
      else false
  end.

(** *** Starting and running a campaign *)

(** What one turn of the send loop meets. *)
Record StepEnv : Type := mkStepEnv {
  pauseRequested : bool;   (* [isPaused] was set since the last check *)
  newMessageId : string;   (* [createMessageId()] *)
  dispatchEnv : DispatchEnv;
  clock : Clock
}.

(** What one call of [startCampaign] meets: the id [createCampaignId()]
    would give, what the parser makes of the source file, whether the
    wait for a ready session ends with one or with its timeout, and what
    each turn of the loop meets. *)
Record RunEnv : Type := mkRunEnv {
  newCampaignId : string;  (* [createCampaignId()] *)
  parse : string -> string -> outcome (list Contact);
  waitForReady : outcome unit;
  steps : nat -> StepEnv
}.

Record StartOptions : Type := mkStartOptions {
  opt_campaignId : option string;
  opt_delayMin : option Z;
  opt_delayMax : option Z
}.

Record StartReturn : Type := mkStartReturn {
  ret_campaignId : string;
  ret_error : option string
}.

(** State updates of the loop body. *)
Definition setMessageStatus (key : string) (entry : MessageStatus)
           (state : CampaignState) : CampaignState :=
  mkCampaignState (campaignId state) (totalContacts state)
    (processedRows state) (failedRows state) (pendingRows state)
    (<[key := entry]> (messageStatus state)) (config state).

Definition pushProcessed (r : Z) (state : CampaignState) : CampaignState :=
  mkCampaignState (campaignId state) (totalContacts state)
    (processedRows state ++ [r])%list (failedRows state) (pendingRows state)
    (messageStatus state) (config state).

Definition pushFailed (r : Z) (error : string) (state : CampaignState)
  : CampaignState :=
  mkCampaignState (campaignId state) (totalContacts state)
    (processedRows state) (failedRows state ++ [mkFailedRow r error])%list
    (pendingRows state) (messageStatus state) (config state).

(** [state.processedRows.includes(r)]. *)
Definition includes (r : Z) (rows : list Z) : bool :=
  existsb (Z.eqb r) rows.

(** [x ? Math.round(x / 1000) : undefined] for a whole number of
    milliseconds; [Math.round] rounds a half up. *)
Definition roundSeconds (ms : option Z) : option Z :=
  match ms with
  | Some x => if (x =? 0)%Z then None else Some ((x + 500) / 1000)%Z
  | None => None
  end.

Section Campaign.

(** The helpers of utils/correlation.js and the spintax parser are not
    among the sources; they are parameters. *)
Variable spintaxParse : string -> string.
Variable createContactId : Z -> string.
Variable buildCorrelationId : string -> string -> option string -> string.
Variable formatCorrelationTag : string -> string.

(** [{ nome: contact.name, telefone: contact.phone, ...contact }], as its
    entries. *)
Definition contactVariables (contact : Contact) : list (string * jsval) :=
  [("nome", JStr (name contact)); ("telefone", JStr (phone contact));
   ("row", JInt (row contact)); ("name", JStr (name contact));
   ("phone", JStr (phone contact))].

(** The argument of [dispatch] for one contact. *)
Definition contactPayload (campaign messageTemplate : string)
           (delayConfig : DelayConfig) (env : StepEnv) (contact : Contact)
  : Payload :=
  let contactId := createContactId (row contact) in
  let clientMessageId := newMessageId env in
  mkPayload (phone contact) messageTemplate (contactVariables contact)
    (mkCorrelation (Some campaign) (Some contactId) (Some clientMessageId)
       (Some (buildCorrelationId campaign contactId (Some clientMessageId))))
    delayConfig false.

(** The body of the [for] loop for one contact: the [try], its [catch],
    and the [saveState] after them.  [i] is the index of the contact in
    [toProcess] and [n] the length of [toProcess]. *)
Definition processContact (campaign messageTemplate : string)
           (delayConfig : DelayConfig) (n i : nat) (env : StepEnv)
           (contact : Contact) (state : CampaignState) (w : World)
  : CampaignState * World :=
  let contactId := createContactId (row contact) in
  let clientMessageId := newMessageId env in
  let correlationId :=
    buildCorrelationId campaign contactId (Some clientMessageId) in
  let correlationTag := formatCorrelationTag correlationId in
  let w :=
    _emitEvent (message_status campaign contactId clientMessageId
                 correlationId SENDING (phone contact) None) w in
  let '(trace, result) :=
    dispatch spintaxParse (dispatchEnv env)
      (contactPayload campaign messageTemplate delayConfig env contact) in
  let w := recordCalls trace w in
  let '(state, w) :=
    match result with
    | Returned result =>
        let state :=
          setMessageStatus clientMessageId
            (mkMessageStatus campaign contactId (phone contact)
               (status result) None (isoNow (clock env))) state in
        let w := setCurrentState state w in
        let w :=
          _emitEvent (message_status campaign contactId clientMessageId
                       correlationId (status result) (phone contact) None) w in
        if decide (status result = DELIVERED ∨ status result = SENT) then
          let state := pushProcessed (row contact) state in
          let w := saveState state (setCurrentState state w) in
          let w := writeStats (clock env) (status result) w in
          let w :=
            _emitEvent (queue_update (List.length (processedRows state))
                         (totalContacts state)) w in
          let isLastItem := (i =? n - 1)%nat in
          let w :=
            match delays result with
            | Some d =>
                if negb isLastItem && (0 <? wait d)%Z then
                  _emitEvent (cooldown_wait campaign (wait d)
                               (roundSeconds (minDelay delayConfig))
                               (roundSeconds (maxDelay delayConfig))) w
                else w
            | None => w
            end in
          (state, w)
        else (state, w)
    | Threw message =>
        let state := pushFailed (row contact) message state in
        let '(state, w) :=
          if truthy clientMessageId then
            (setMessageStatus clientMessageId
               (mkMessageStatus campaign contactId (phone contact)
                  FAILED (Some message) (isoNow (clock env))) state,
             _emitEvent (message_status campaign contactId clientMessageId
                          correlationTag FAILED (phone contact)
                          (Some message)) w)
          else (state, w) in
        (pushProcessed (row contact) state, w)
    end in
  (state, saveState state (setCurrentState state w)).

(** The [for] loop over [toProcess], from index [i] on. *)
Fixpoint processLoop (campaign messageTemplate : string)
         (delayConfig : DelayConfig) (n : nat) (env : nat -> StepEnv)
         (i : nat) (toProcess : list Contact) (state : CampaignState)
         (w : World) : CampaignState * World :=
  match toProcess with
  | [] => (state, w)
  | contact :: rest =>
      if isPaused w || pauseRequested (env i) then (state, setPaused true w)
      else
        let '(state, w) :=
          processContact campaign messageTemplate delayConfig n i (env i)
            contact state w in
        processLoop campaign messageTemplate delayConfig n env (S i) rest
          state w
  end.

(** The state [startCampaign] works on before the contacts are parsed:
    the loaded state, replaced by a blank one when another campaign is on
    record, with the campaign id and the configuration set. *)
Definition adoptCampaign (campaign : string) (cfg : Config)
           (loaded : CampaignState) : CampaignState :=
  let state :=
    match recordedId loaded with
    | Some previous =>
        if decide (previous ≠ campaign) then
          mkCampaignState (Some campaign) (Some 0) [] [] [] ∅ (Some cfg)
        else loaded
    | None => loaded
    end in
  mkCampaignState (Some campaign) (totalContacts state) (processedRows state)
    (failedRows state) (pendingRows state) (messageStatus state) (Some cfg).

Definition setTotalContacts (total : nat) (state : CampaignState)
  : CampaignState :=
  mkCampaignState (campaignId state) (Some total) (processedRows state)
    (failedRows state) (pendingRows state) (messageStatus state)
    (config state).

(** [options.campaignId || createCampaignId()]. *)
Definition chooseCampaignId (options : StartOptions) (env : RunEnv) : string :=
  match truthyId (opt_campaignId options) with
  | Some id => id
  | None => newCampaignId env
  end.

(** [{ minDelay: options.delayMin, maxDelay: options.delayMax }]. *)
Definition delayConfigOf (options : StartOptions) : DelayConfig :=
  mkDelayConfig (opt_delayMin options) (opt_delayMax options).

(** [allContacts.filter(c => !state.processedRows.includes(c.row))]. *)
Definition unprocessed (state : CampaignState) (allContacts : list Contact)
  : list Contact :=
  List.filter (fun c => negb (includes (row c) (processedRows state)))
              allContacts.

(** [startCampaign(excelPath, messageTemplate, originalFilename, options)].
    (The text of the log event is written without its diacritics.) *)
Definition startCampaign (excelPath messageTemplate originalFilename : string)
           (options : StartOptions) (env : RunEnv) (w : World)
  : World * outcome StartReturn :=
  let campaign := chooseCampaignId options env in
  let delayConfig := delayConfigOf options in
  let state :=
    adoptCampaign campaign
      (mkConfig messageTemplate excelPath originalFilename delayConfig)
      (loadState w) in
  let w := setCurrentState state w in
  match parse env excelPath originalFilename with
  | Threw message => (w, Threw message)
  | Returned allContacts =>
      let state := setTotalContacts (List.length allContacts) state in
      let w := saveState state (setCurrentState state w) in
      let toProcess := unprocessed state allContacts in
      let w :=
        _emitEvent (campaign_started campaign (List.length allContacts)
                     (List.length toProcess)) w in
      match (if (0 <? List.length toProcess)%nat then waitForReady env
             else Returned tt) with
      | Threw message =>
          (_emitEvent
             (log "[ERROR] Cancelado: Nenhuma conexao ativa encontrada em 2 minutos.")
             w,
           Returned (mkStartReturn campaign (Some message)))
      | Returned _ =>
          let '(state, w) :=
            processLoop campaign messageTemplate delayConfig
              (List.length toProcess) (steps env) 0 toProcess state
              (setPaused false w) in
          (_emitEvent (campaign_finished campaign
                        (List.length (processedRows state))
                        (List.length (failedRows state))) w,
           Returned (mkStartReturn campaign None))
      end
  end.

End Campaign.

End CampaignManager.

(** ** The start route of the API server (api/server.js) *)

Module ApiServer.
Import CampaignManager.

Record UploadedFile : Type := mkUploadedFile {
  path : string;
  originalname : string
}.

(** The body of [POST /api/campaign/start].  A delay field is the finite
    number [Number(...)] makes of it, in seconds, if there is one. *)
Record StartRequest : Type := mkStartRequest {
  req_file : option UploadedFile;
  req_message : string;
  req_delayMin : option Z;
  req_delayMax : option Z
}.

Inductive Response : Type :=
| Status500 (error : string)
| Started (campaign : string).

(** What the handler meets: the id [createCampaignId()] gives it, whether
    [initialize()] resolves, and what the background run meets. *)
Record ApiEnv : Type := mkApiEnv {
  api_newCampaignId : string;
  initialize : outcome unit;
  run : RunEnv
}.

(** The message of the error thrown while a campaign is active; its two
    accented letters are the code units U+00E1 and U+00E9. *)
Definition activeCampaignError : string :=
  "J" +:+ String "225"%char " existe uma campanha em andamento. Aguarde o t"
  +:+ String "233"%char "rmino ou limpe a campanha atual.".

Section Routes.

Variable spintaxParse : string -> string.
Variable createContactId : Z -> string.
Variable buildCorrelationId : string -> string -> option string -> string.
Variable formatCorrelationTag : string -> string.

(** The handler together with the background run it fires: the response,
    and the world once the run has ended. *)
Definition postCampaignStart (req : StartRequest) (env : ApiEnv) (w : World)
  : World * Response :=
  match req_file req with
  | None => (w, Status500 "No file uploaded")
  | Some upload =>
      if hasActiveCampaign w then (w, Status500 activeCampaignError)
      else
        let campaign := api_newCampaignId env in
        let delayMinMs := (fun s => s * 1000)%Z <$> req_delayMin req in
        let delayMaxMs := (fun s => s * 1000)%Z <$> req_delayMax req in
        let background :=
          match initialize env with
          | Threw message => (w, Threw message)
          | Returned _ =>
              startCampaign spintaxParse createContactId buildCorrelationId
                formatCorrelationTag (path upload) (req_message req)
                (originalname upload)
                (mkStartOptions (Some campaign) delayMinMs delayMaxMs)
                (run env) w
          end in
        let w :=
          match background with
          | (w, Threw message) =>
              _emitEvent (log ("[ERROR] Campaign Failed: " +:+ message)) w
          | (w, Returned _) => w
          end in
        (w, Started campaign)
  end.

End Routes.

End ApiServer.

(** ** Reconciling the session list of the dashboard (mergeSessions) *)

Module Sessions.

(** A session object: its [id] and its other properties. *)
Record Session : Type := mkSession {
  id : string;
  props : gmap string jsval
}.

(** [{ ...session, ...updated }]: the properties of both, those of
    [updated] winning; [id] is a property like the others. *)
Definition spread (session updated : Session) : Session :=
  mkSession (id updated) (props updated ∪ props session).

(** A [Map] keyed by id, as the list of its entries in insertion order. *)
Fixpoint map_set (k : string) (v : Session) (m : list (string * Session))
  : list (string * Session) :=
  match m with
  | [] => [(k, v)]
  | (k', v') :: m' =>
      if decide (k' = k) then (k, v) :: m' else (k', v') :: map_set k v m'
  end.

Fixpoint map_get (k : string) (m : list (string * Session)) : option Session :=
  match m with
  | [] => None
  | (k', v') :: m' => if decide (k' = k) then Some v' else map_get k m'
  end.

Fixpoint map_delete (k : string) (m : list (string * Session))
  : list (string * Session) :=
  match m with
  | [] => []
  | (k', v') :: m' =>
      if decide (k' = k) then m' else (k', v') :: map_delete k m'
  end.

(** [new Map(entries)]. *)
Definition newMap (entries : list (string * Session))
  : list (string * Session) :=
  fold_left (fun m e => map_set (fst e) (snd e) m) entries [].

(** [id.startsWith('temp_')]. *)
Definition isTemp (s : Session) : bool := String.prefix "temp_" (id s).

(** One turn of [previous.forEach]: [merged] and [incomingMap] after it. *)
Definition mergeStep (acc : list Session * list (string * Session))
           (session : Session) : list Session * list (string * Session) :=
  let '(merged, incomingMap) := acc in
  match map_get (id session) incomingMap with
  | Some updated =>
      ((merged ++ [spread session updated])%list,
       map_delete (id session) incomingMap)
  | None =>
      if isTemp session then ((merged ++ [session])%list, incomingMap)
      else (merged, incomingMap)
  end.

Definition mergeSessions (previous incoming : list Session) : list Session :=
  let incomingMap := newMap (map (fun s => (id s, s)) incoming) in
  let '(merged, incomingMap) :=
    fold_left mergeStep previous ([], incomingMap) in
  (merged ++ map snd incomingMap)%list.

(** The result as the claim words it: every previous session found in
    [incoming] merged with its counterpart, every other previous session
    kept exactly when it is temporary, then the incoming sessions without
    a previous counterpart. *)
Definition findById (k : string) (l : list Session) : option Session :=
  List.find (fun s => bool_decide (id s = k)) l.

Definition reconcile (incoming : list Session) (session : Session)
  : option Session :=
  match findById (id session) incoming with
  | Some updated => Some (spread session updated)
  | None => if isTemp session then Some session else None
  end.

Definition mergeSessions_spec (previous incoming : list Session)
  : list Session :=
  (omap (reconcile incoming) previous
   ++ List.filter (fun s => negb (bool_decide (id s ∈ map id previous)))
                  incoming)%list.

End Sessions.

(** ** Resuming a campaign and late status updates
    (campaign/campaignManager.js) *)

Module CampaignResume.
Import Dispatcher CampaignManager.

(** What [resumeCampaign] meets: whether the source file is still there
    ([fs.existsSync]), and what the run it starts meets. *)
Record ResumeEnv : Type := mkResumeEnv {
  existsSync : string -> bool;
  resumedRun : RunEnv
}.

(** The two log lines of a resume (written without their diacritics and
    without the warning sign). *)
Definition warnMsg : string :=
  "Houve uma interrupcao abrupta. Continuaremos de onde parou.".

Definition infoMsg (lastSuccessPhone : string) : string :=
  "A ultima mensagem enviada com sucesso foi para o n. "
  +:+ lastSuccessPhone +:+ ". Continuaremos a partir desse numero.".

(** A status update an account client emits. *)
Record StatusUpdate : Type := mkStatusUpdate {
  u_clientMessageId : option string;
  u_messageId : option string;
  u_status : Status
}.

(** [a || b] on two optional strings. *)
Definition orElse (a b : option string) : option string :=
  match truthyId a with
  | Some s => Some s
  | None => b
  end.

(** The names every plain object inherits from [Object.prototype].  A
    read of one of them on an object without such an entry gives a
    function, or the prototype itself for [__proto__]: a truthy value
    with no enumerable property of its own. *)
Definition inheritedNames : list string :=
  ["constructor"; "__defineGetter__"; "__defineSetter__"; "hasOwnProperty";
   "__lookupGetter__"; "__lookupSetter__"; "isPrototypeOf";
   "propertyIsEnumerable"; "toString"; "valueOf"; "__proto__";
   "toLocaleString"].

(** What the handler leaves behind: a world with a state as the campaign
    state document describes it, or a state it does not describe.  The
    latter is what a key that names an inherited property and no entry
    gives: [messageStatus[key]] is truthy, its spread has no field, so
    the object holding only [status] and [updatedAt] is assigned under
    the key (for [__proto__] it becomes the prototype of [messageStatus])
    and the state is saved. *)
Inductive Handled : Type :=
| Within (w : World)
| Outside (key : string) (status : Status) (updatedAt : string).

(** The [message_status] handler [registerSessionClient] attaches to an
    account client: the entry of a known message takes the new status and
    time and the state is saved.  [messageStatus[key]] is a read on a
    plain object: it finds the entries and the inherited names.  The
    update is then handed to [_emitEvent('message_status', update)] as it
    came; its payload is the client's object, so it is returned beside
    the result. *)
Definition onMessageStatus (update : StatusUpdate) (now : string) (w : World)
  : Handled * StatusUpdate :=
  match truthyId (orElse (u_clientMessageId update) (u_messageId update)),
        currentState w with
  | Some key, Some state =>
      match messageStatus state !! key with
      | Some entry =>
          let state' :=
            setMessageStatus key
              (mkMessageStatus (ms_campaignId entry) (ms_contactId entry)
                 (ms_phone entry) (u_status update) (ms_error entry) now)
              state in
          (Within (saveState state' (setCurrentState state' w)), update)
      | None =>
          if bool_decide (key ∈ inheritedNames)
          then (Outside key (u_status update) now, update)
          else (Within w, update)
      end
  | _, _ => (Within w, update)
  end.

Section Resume.

Variable spintaxParse : string -> string.
Variable createContactId : Z -> string.
Variable buildCorrelationId : string -> string -> option string -> string.
Variable formatCorrelationTag : string -> string.

(** The phone of the newest successful entry of [messageStatus], or N/A:
    [Object.values(...).filter(...).sort(...)[0]].  The order of
    [Object.values] and the reading of the dates are outside the model, so
    the choice is a parameter; it only feeds a log line. *)
Variable lastSuccessPhone : gmap string MessageStatus -> string.

(** [resumeCampaign()].  The stored [delayConfig] has the fields
    [minDelay] and [maxDelay]; the code reads [delayConfig?.delayMin] and
    [delayConfig?.delayMax], which no stored configuration has, so both
    options are [undefined]. *)
Definition resumeCampaign (env : ResumeEnv) (w : World) : World * bool :=
  if negb (hasActiveCampaign w) then (w, false)
  else
    let state := default (loadState w) (currentState w) in
    match config state with
    | None => (w, false)
    | Some cfg =>
        if negb (truthy (cfg_excelPath cfg)) then (w, false)
        else if negb (existsSync env (cfg_excelPath cfg)) then (w, false)
        else
          let w := _emitEvent (log warnMsg) w in
          let w :=
            _emitEvent (log (infoMsg (lastSuccessPhone (messageStatus state))))
                       w in
          match startCampaign spintaxParse createContactId buildCorrelationId
                  formatCorrelationTag (cfg_excelPath cfg)
                  (cfg_messageTemplate cfg) (cfg_originalFilename cfg)
                  (mkStartOptions (campaignId state) None None)
                  (resumedRun env) w with
          | (w, Returned _) => (w, true)
          | (w, Threw _) => (w, false)
          end
    end.

End Resume.

End CampaignResume.

(** ** The status routes and the log buffer (api/server.js) *)

Module ApiServerRoutes.
Import CampaignManager.

(** [_addToLogHistory(msg)]: a push, then a shift when the buffer holds
    more than 50 lines. *)
Definition _addToLogHistory (msg : string) (logHistory : list string)
  : list string :=
  let logHistory := (logHistory ++ [msg])%list in
  if (50 <? List.length logHistory)%nat then tail logHistory else logHistory.

(** What [eventAdapter.emit] does to the buffer: the [log] events of the
    campaign manager are kept, the other events only pass through. *)
Definition adapterEmit (logHistory : list string) (ev : Event)
  : list string :=
  match ev with
  | log text => _addToLogHistory text logHistory
  | _ => logHistory
  end.

(** The lines a socket is sent when it connects. *)
Definition onConnection (logHistory : list string) : list string :=
  match logHistory with
  | [] => ["Sistema Funcionando"]
  | _ => logHistory
  end.

(** The answer of [GET /api/status]. *)
Record StatusReply : Type := mkStatusReply {
  active_campaigns : nat;
  total_sent : option nat;
  delivery_rate : nat;
  queue_current : nat;
  queue_total : nat
}.

Definition getStatus (clock : Clock) (w : World) : StatusReply :=
  let state := default (loadState w) (currentState w) in
  let dailyStats := getDailyStats clock (statsFile w) in
  let totalSent := totalSent dailyStats in
  let deliveryRate := if (0 <? default 0 totalSent)%nat then 100 else 0 in
  let totalRows := default 0 (totalContacts state) in
  let processedCount := List.length (processedRows state) in
  mkStatusReply (if hasActiveCampaign w then 1 else 0) totalSent deliveryRate
    processedCount totalRows.

(** One point of the chart of [GET /api/dashboard/hourly]. *)
Record ChartPoint : Type := mkChartPoint {
  cp_hour : string;
  cp_sent : nat
}.

Definition hourlyChart (clock : Clock) (statsFile : file DailyStats)
  : list ChartPoint :=
  let dailyStats := getDailyStats clock statsFile in
  let hourlyCounts := default ∅ (hourly dailyStats) in
  map (fun i => mkChartPoint (hourKey i)
                  (default 0 (hourlyCounts !! hourKey i)))
      (seq 0 24).

End ApiServerRoutes.

(** ** Safe file reads and the session manager
    (utils/fileLockHelper.js, core/sessionManager.js) *)

Module FileLockHelper.
Import TemplateEngine.

(** What one try at the file meets: no file ([existsSync] is false), the
    content [readFileSync] returns, or an error of [readFileSync] with its
    [code] and [message]. *)
Inductive ReadTry : Type :=
| NoFile
| Content (content : string)
| ReadFailed (code : option string) (message : string).

(** [err.code === 'EBUSY' || err.code === 'EPERM' || err.code === 'EACCES']. *)
Definition isLockError (code : option string) : bool :=
  match code with
  | Some c =>
      bool_decide (c = "EBUSY") || bool_decide (c = "EPERM")
      || bool_decide (c = "EACCES")
  | None => false
  end.

Section Json.

Variable Json : Type.

(** [JSON.parse]: the value parsed, [None] when the text is the JSON
    [null]; [Threw] carries the message of the parse error. *)
Variable parseJson : string -> outcome (option Json).

(** The body of the [try]: the value returned, or the code and the
    message of the error thrown.  The value is [None] for [null]: there
    is no file, or the file holds [null]. *)
Definition readOnce (t : ReadTry) : option Json + option string * string :=
  match t with
  | NoFile => inl None
  | Content content =>
      if negb (truthy content) || (String.length (trim content) =? 0)%nat
      then inr (None, "Empty file")
      else
        match parseJson content with
        | Returned value => inl value
        | Threw message => inr (None, "JSON Parse Error: " +:+ message)
        end
  | ReadFailed code message => inr (code, message)
  end.

(** The [for] loop from index [i] on, with [remaining] turns left: the
    number of waits made and the result. *)
Fixpoint safeReadFrom (tries : nat -> ReadTry) (remaining i : nat)
  : nat * outcome (option Json) :=
  match remaining with
  | 0 => (0, Returned None)
  | S remaining' =>
      match readOnce (tries i) with
      | inl value => (0, Returned value)
      | inr (code, message) =>
          if (remaining' =? 0)%nat then (0, Threw message)
          else if isLockError code then
            let '(waits, result) := safeReadFrom tries remaining' (S i) in
            (S waits, result)
          else (0, Threw message)
      end
  end.

(** [safeReadJson(filePath, retries)]; [tries] is what the successive
    tries meet. *)
Definition safeReadJson (tries : nat -> ReadTry) (retries : nat)
  : nat * outcome (option Json) :=
  safeReadFrom tries retries 0.

End Json.

(** [safeMove(source, destination)], from the results of the rename and
    of the copy and delete of the fallback. *)
Definition safeMove (rename copyDelete : outcome unit) : bool :=
  match rename with
  | Returned _ => true
  | Threw _ =>
      match copyDelete with
      | Returned _ => true
      | Threw _ => false
      end
  end.

End FileLockHelper.

Module SessionManager.
Import FileLockHelper.

(** An account client as the manager sees it. *)
Record Client : Type := mkClient {
  cl_id : string;
  displayOrder : nat
}.

(** The manager: the [sessions] map in insertion order, the next display
    order and the loaded flag.  ([startingSessions] only holds the pending
    initialisations and is read nowhere.) *)
Record Manager : Type := mkManager {
  sessions : list (string * Client);
  nextDisplayOrder : nat;
  isLoaded : bool
}.

(** [new SessionManager()]. *)
Definition newManager : Manager := mkManager [] 1 false.

(** [getSession(id)]. *)
Definition getSession (id : string) (m : Manager) : option Client :=
  snd <$> List.find (fun e => bool_decide (fst e = id)) (sessions m).

(** [startSession(id)]: the manager afterwards and the client returned. *)
Definition startSession (id : string) (m : Manager) : Manager * Client :=
  match getSession id m with
  | Some client => (m, client)
  | None =>
      let client := mkClient id (nextDisplayOrder m) in
      (mkManager (sessions m ++ [(id, client)])%list
                 (nextDisplayOrder m + 1) (isLoaded m),
       client)
  end.

(** [stopSession(id)]; an error of the shutdown is caught. *)
Definition stopSession (id : string) (m : Manager) : Manager :=
  match getSession id m with
  | None => m
  | Some _ =>
      mkManager
        (List.filter (fun e => negb (bool_decide (fst e = id))) (sessions m))
        (nextDisplayOrder m) (isLoaded m)
  end.

(** What [removeSession] meets on disk: the provider's [clearState] when
    the client has one and whether the directory is still there after it,
    the three tries to delete the directory, and the rename to the
    trash. *)
Record RemoveEnv : Type := mkRemoveEnv {
  clearState : option (outcome unit);
  existsAfterClear : bool;
  rmTry : nat -> outcome unit;
  renameToTrash : outcome unit
}.

(** The retry loop of [removeSession] from index [i] on, with [remaining]
    turns left: the milliseconds waited and the value returned. *)
Fixpoint deleteFrom (env : RemoveEnv) (remaining i : nat) : Z * bool :=
  match remaining with
  | 0 => (0%Z, false)
  | S remaining' =>
      match rmTry env i with
      | Returned _ => (0%Z, true)
      | Threw _ =>
          if (remaining' =? 0)%nat then
            match renameToTrash env with
            | Returned _ => (0%Z, true)
            | Threw _ => (0%Z, false)
            end
          else
            let '(waited, result) := deleteFrom env remaining' (S i) in
            ((2000 + waited)%Z, result)
      end
  end.

(** [removeSession(id)]: the manager afterwards, the milliseconds waited
    and the value returned. *)
Definition removeSession (id : string) (env : RemoveEnv) (m : Manager)
  : Manager * Z * bool :=
  let client := getSession id m in
  let m := stopSession id m in
  let cleared :=
    match client, clearState env with
    | Some _, Some (Returned _) => negb (existsAfterClear env)
    | _, _ => false
    end in
  if cleared then (m, 1000%Z, true)
  else
    let '(waited, result) := deleteFrom env 3 0 in
    (m, (1000 + waited)%Z, result).

Section Loading.

Variable Json : Type.
Variable parseJson : string -> outcome (option Json).

(** Truthiness of a parsed value ([!creds]). *)
Variable isTruthy : Json -> bool.

(** What the tries at [creds.json] of a session directory meet. *)
Variable credsTries : string -> nat -> ReadTry.

(** The [for] loop of [loadSessions] over the ids of the session
    directories: the manager, the ids moved to quarantine, and whether the
    loop ran to its end ([false]: a read threw). *)
Fixpoint loadLoop (ids : list string) (m : Manager) (quarantined : list string)
  : Manager * list string * bool :=
  match ids with
  | [] => (m, quarantined, true)
  | id :: rest =>
      match getSession id m with
      | Some _ => loadLoop rest m quarantined
      | None =>
          match snd (safeReadJson Json parseJson (credsTries id) 5) with
          | Threw _ => (m, quarantined, false)
          | Returned creds =>
              if from_option isTruthy false creds then
                loadLoop rest (fst (startSession id m)) quarantined
              else loadLoop rest m (quarantined ++ [id])%list
          end
      end
  end.

(** [loadSessions()].  [listing] is [None] when the sessions directory is
    missing, and else the ids of its [session-] directories in the order
    of the sort. *)
Definition loadSessions (listing : option (list string)) (m : Manager)
  : Manager * list string :=
  if isLoaded m then (m, [])
  else
    match listing with
    | None => (m, [])
    | Some ids =>
        let '(m, quarantined, finished) := loadLoop ids m [] in
        (if finished
         then mkManager (sessions m) (nextDisplayOrder m) true
         else m,
         quarantined)
    end.

End Loading.

End SessionManager.

(** ** The QR window of a connecting account (api/server.js,
    [attachClientListeners]) *)

Module QrWindow.

(** The two fields the listeners keep on the client: the pending
    auto-destroy timer, as the time at which it fires, and the time of
    the first QR code. *)
Record QrState : Type := mkQrState {
  qrTimeout : option Z;
  qrTimestamp : option Z
}.

(** What the listeners emit on the socket. *)
Inductive SocketEvent : Type :=
| qr_code (chipId qr : string) (qrTimestamp : option Z)
| session_change (chipId status : string)
| session_deleted (chipId : string).

(** What the client emits: a QR code at a time [Date.now()], or a
    status. *)
Inductive ClientEvent : Type :=
| Qr (now : Z) (qr : string)
| StatusChange (status : string).

(** Truthiness of a number that may be missing. *)
Definition truthyTime (t : option Z) : bool :=
  match t with
  | Some z => negb (z =? 0)%Z
  | None => false
  end.

(** [["READY", "ONLINE", "AUTHENTICATING", "CONNECTED"].includes(status)]. *)
Definition connects (status : string) : bool :=
  bool_decide (status = "READY") || bool_decide (status = "ONLINE")
  || bool_decide (status = "AUTHENTICATING")
  || bool_decide (status = "CONNECTED").

Section Listeners.

Variable id : string.

(** [QRCode.toDataURL]. *)
Variable toDataURL : string -> outcome string.

(** The [qr] listener.  It is taken to run to its end before the next
    event is handled: the [await] of [toDataURL] sits between the setting
    of the timer and the emission, which reads [qrTimestamp] again. *)
Definition onQr(now : Z) (qr : string) (c : QrState)
  : QrState * list SocketEvent :=
  let c :=
    match qrTimeout c with
    | Some _ => c
    | None =>
        mkQrState (Some (now + 60000)%Z)
          (if truthyTime (qrTimestamp c) then qrTimestamp c else Some now)
    end in
  (c,
   match toDataURL qr with
   | Returned dataUrl => [qr_code id dataUrl (qrTimestamp c)]
   | Threw _ => []
   end).

(** The [status] listener. *)
Definition onStatus (status : string) (c : QrState)
  : QrState * list SocketEvent :=
  ((if connects status then mkQrState None None else c),
   [session_change id status]).

Definition listen (c : QrState) (ev : ClientEvent)
  : QrState * list SocketEvent :=
  match ev with
  | Qr now qr => onQr now qr c
  | StatusChange status => onStatus status c
  end.

(** The listeners over a series of events: the state at the end and
    everything emitted. *)
Fixpoint listenAll (events : list ClientEvent) (c : QrState)
  : QrState * list SocketEvent :=
  match events with
  | [] => (c, [])
  | ev :: rest =>
      let '(c, out) := listen c ev in
      let '(c', out') := listenAll rest c in
      (c', (out ++ out')%list)
  end.

End Listeners.

End QrWindow.

(** * Properties *)

(** ** The template engine *)

Module TemplateEngineFacts.
Import TemplateEngine.






Lemma append_cons (x : ascii) (a b : string) :
  String x a +:+ b = String x (a +:+ b).
Proof. reflexivity. Qed.

Lemma append_nil (b : string) : "" +:+ b = b.
Proof. reflexivity. Qed.

Lemma append_assoc (a b c : string) : (a +:+ b) +:+ c = a +:+ (b +:+ c).
Proof.
  induction a as [|x a IH]; [reflexivity|].
  now rewrite !append_cons, IH.
Qed.

Lemma replacePlaceholders_cons normalized c s :
  replacePlaceholders normalized (String c s) =
  match matchAt (String c s) with
  | Some ph =>
      replacer normalized (ph_match ph) (ph_rawKey ph)
        +:+ replacePlaceholders normalized (ph_rest ph)
  | None => String c (replacePlaceholders normalized s)
  end.
Proof.
  rewrite replacePlaceholders_equation_2.
  change (exist _ (matchAt (String c s)) eq_refl)
    with (with_eqn (matchAt (String c s))).
  destruct (with_eqn (matchAt (String c s))) as [[ph|] e];
    simp replacePlaceholders; rewrite e; reflexivity.
Qed.










(** A supplied variable is found under its normalized name: the last
    entry decides. *)
Lemma normalizeVariables_last variables key value :
  key <> "" -> normalizeKey key <> "__proto__" ->
  normalizeVariables (variables ++ [(key, value)]) !! normalizeKey key
  = Some (if js_isNullish value then "" else js_String value).
Proof.
  intros Hkey Hproto. unfold normalizeVariables.
  rewrite fold_left_app. simpl.
  destruct key as [|k key]; [congruence|]. simpl truthy. cbv iota.
  unfold assignProp. rewrite decide_False by exact Hproto.
  apply lookup_insert_eq.
Qed.

(** A name no supplied variable normalizes to is not found. *)
Lemma normalizeVariables_missing variables nk :
  Forall (fun entry => normalizeKey (fst entry) <> nk) variables ->
  normalizeVariables variables !! nk = None.
Proof.
  unfold normalizeVariables.
  assert (G : forall acc, acc !! nk = None ->
     Forall (fun entry => normalizeKey (fst entry) <> nk) variables ->
     fold_left normalizeEntry variables acc !! nk = None).
  { induction variables as [|[k v] l IH]; intros acc Hacc Hall; simpl.
    - exact Hacc.
    - inversion Hall as [|? ? Hk Hl]; subst. apply IH; [|exact Hl].
      destruct (truthy k); simpl; [|exact Hacc].
      unfold assignProp. case_decide; [exact Hacc|].
      rewrite lookup_insert_ne; [exact Hacc | exact Hk]. }
  intros Hall. apply G; [apply lookup_empty | exact Hall].
Qed.

(** A name that is found was supplied: some entry of the variables
    normalizes to it and carries the value found. *)
Lemma normalizeVariables_found variables nk text :
  normalizeVariables variables !! nk = Some text ->
  exists key value,
    In (key, value) variables /\ normalizeKey key = nk
    /\ text = (if js_isNullish value then "" else js_String value).
Proof.
  unfold normalizeVariables.
  assert (G : forall acc,
     fold_left normalizeEntry variables acc !! nk = Some text ->
     acc !! nk = Some text \/
     exists key value,
       In (key, value) variables /\ normalizeKey key = nk
       /\ text = (if js_isNullish value then "" else js_String value)).
  { induction variables as [|[k v] l IH]; intros acc H; simpl in *.
    - now left.
    - destruct (IH _ H) as [Hacc | (key & value & Hin & Hk & Hv)].
      + destruct (truthy k); simpl in Hacc; [|now left].
        unfold assignProp in Hacc. case_decide; [now left|].
        destruct (decide (normalizeKey k = nk)) as [<-|Hne].
        * rewrite lookup_insert_eq in Hacc. injection Hacc as <-.
          right. exists k, v. auto.
        * rewrite lookup_insert_ne in Hacc by exact Hne. now left.
      + right. exists key, value. auto. }
  intros H. destruct (G _ H) as [Hempty | Hex]; [|exact Hex].
  rewrite lookup_empty in Hempty. discriminate.
Qed.






























(** The renderer example of the specification, before the spintax pass:
    the variant group is left for that pass, the known name is replaced
    whatever its case and spacing, the unknown one stays. *)
Example withVariables_example :
  withVariables "{A/B} [ Name ] [missing]" [("name", JStr "Sam")]
  = "{A/B} Sam [missing]".
Proof. vm_compute. reflexivity. Qed.



End TemplateEngineFacts.

(** ** The dispatcher *)

Module DispatcherFacts.
Import TemplateEngine Dispatcher.

(** The readiness wait of the selected account, where the account has
    one, resolves. *)
Definition becomesReady (client : Client) : Prop :=
  match c_waitUntilReady client with
  | Some waitUntilReady => waitUntilReady 30000%Z = Returned tt
  | None => True
  end.

(** The calls a send consists of: the typing sleep, [sendMessage],
    [waitForDelivery] and [enterCooldown]. *)
Definition isSendCall (e : effect) : bool :=
  match e with
  | CallWaitUntilReady _ _ => false
  | Sleep _ | CallSendMessage _ _ _ _ | CallWaitForDelivery _ _ _
  | CallEnterCooldown _ _ _ => true
  end.

Definition isCooldownCall (e : effect) : bool :=
  match e with
  | CallEnterCooldown _ _ _ => true
  | _ => false
  end.

(** An account that accepts every send under the provider id [m1], never
    confirms delivery, and has both optional capabilities. *)
Definition silentClient : Client :=
  mkClient "chip_1"
    (Some (fun _ => Returned tt))
    (fun _ _ _ => Returned (Some (mkSendResult (Some "m1") (Some "jid1"))))
    (fun _ _ => Threw "Timeout waiting for delivery")
    true.

(** The same account, confirming every delivery. *)
Definition promptClient : Client :=
  mkClient "chip_1"
    (Some (fun _ => Returned tt))
    (fun _ _ _ => Returned (Some (mkSendResult (Some "m1") (Some "jid1"))))
    (fun _ _ => Returned tt)
    true.

Definition fixedDelays (client : Client) : DispatchEnv :=
  mkDispatchEnv (Some client) (fun _ _ => 1200%Z) (fun _ => 5000%Z).

Definition samplePayload (dryRun : bool) : Payload :=
  mkPayload "5511999990000" "Oi [nome]" [("nome", JStr "Sam")]
    (mkCorrelation (Some "camp_1") (Some "contact_2") (Some "msg_1")
       (Some "camp_1:contact_2:msg_1"))
    (mkDelayConfig None None) dryRun.

Section Facts.

Variable spintaxParse : string -> string.

(** Entering [dispatch] with an account that becomes ready. *)
Ltac enter_dispatch Hclient Hready :=
  unfold dispatch; rewrite Hclient;
  unfold becomesReady in Hready;
  destruct (c_waitUntilReady _) as [waitUntilReady|];
  [unfold perform at 1; rewrite Hready|]; cbn [bind ret fst snd app].

Lemma truthyId_Some (o : option string) (s : string) :
  truthyId o = Some s -> o = Some s.
Proof.
  unfold truthyId. destruct o as [x|]; [|discriminate].
  destruct (truthy x); congruence.
Qed.

(** C3. A real send whose provider result carries a message id waits for
    the delivery confirmation of that id with the 20 s bound and returns
    a result in both cases: DELIVERED when the confirmation arrives, SENT
    when the wait fails; no error reaches the caller. *)
Theorem dispatch_ack env p client sendResult msgId :
  p_dryRun p = false ->
  getNextClient env = Some client ->
  becomesReady client ->
  c_sendMessage client (p_phone p)
    (applyTemplate spintaxParse (p_messageTemplate p) (p_variables p))
    (p_correlation p) = Returned sendResult ->
  truthyId (sendResult ≫= sr_messageId) = Some msgId ->
  In (CallWaitForDelivery (c_id client) msgId 20000)
     (fst (dispatch spintaxParse env p))
  /\ exists r,
       snd (dispatch spintaxParse env p) = Returned r
       /\ messageId r = Some msgId
       /\ status r = match c_waitForDelivery client msgId 20000%Z with
                     | Returned _ => DELIVERED
                     | Threw _ => SENT
                     end.
Proof.
  intros Hdry Hclient Hready Hsend Hid.
  pose proof (truthyId_Some _ _ Hid) as Hsent.
  enter_dispatch Hclient Hready; rewrite Hdry; cbn [negb];
    unfold perform, attempt; cbn [bind ret fst snd app];
    rewrite Hsend; cbn [bind ret fst snd app];
    rewrite Hid; cbn [bind ret fst snd app];
    destruct (c_waitForDelivery client msgId 20000%Z) as [[]|err];
    destruct (c_enterCooldown client); cbn;
    (split; [tauto | eexists; repeat split; assumption]).
Qed.

(** The path the confirmation takes: a real send that is confirmed, or
    that carries no provider id, invokes the cooldown capability of an
    account that has one, with the post-send delay. *)
Lemma dispatch_confirmed_cooldown env p client sendResult :
  p_dryRun p = false ->
  getNextClient env = Some client ->
  becomesReady client ->
  c_enterCooldown client = true ->
  c_sendMessage client (p_phone p)
    (applyTemplate spintaxParse (p_messageTemplate p) (p_variables p))
    (p_correlation p) = Returned sendResult ->
  match truthyId (sendResult ≫= sr_messageId) with
  | Some msgId => c_waitForDelivery client msgId 20000%Z = Returned tt
  | None => True
  end ->
  In (CallEnterCooldown (c_id client)
        (getVariableDelay env (p_delayConfig p)) "post_send_delay")
     (fst (dispatch spintaxParse env p)).
Proof.
  intros Hdry Hclient Hready Hcool Hsend Hack.
  enter_dispatch Hclient Hready; rewrite Hdry; cbn [negb];
    unfold perform, attempt; cbn [bind ret fst snd app];
    rewrite Hsend; cbn [bind ret fst snd app];
    destruct (truthyId (sendResult ≫= sr_messageId)) as [msgId|];
    try rewrite Hack; rewrite Hcool; cbn; tauto.
Qed.

(** Case analysis over everything [dispatch] meets. *)
Ltac dispatch_cases :=
  unfold dispatch, perform, attempt, ret, throw;
  repeat first
    [ progress cbn [bind fst snd app negb]
    | match goal with
      | |- context [match getNextClient ?e with _ => _ end] =>
          destruct (getNextClient e) as [?client|]
      | |- context [match c_waitUntilReady ?c with _ => _ end] =>
          destruct (c_waitUntilReady c) as [?waitUntilReady|]
      | |- context [if negb (p_dryRun ?p) then _ else _] =>
          destruct (p_dryRun p)
      | |- context [if c_enterCooldown ?c then _ else _] =>
          destruct (c_enterCooldown c)
      | |- context [match truthyId ?o with _ => _ end] =>
          destruct (truthyId o) as [?msgId|]
      | |- context [match ?f ?a ?b ?c with Returned _ => _ | Threw _ => _ end] =>
          destruct (f a b c) as [?|?]
      | |- context [match ?f ?a ?b with Returned _ => _ | Threw _ => _ end] =>
          destruct (f a b) as [?|?]
      | |- context [match ?f ?a with Returned _ => _ | Threw _ => _ end] =>
          destruct (f a) as [?|?]
      end ].

(** [dispatch] reports no other status than DELIVERED and SENT. *)
Lemma dispatch_status env p r :
  snd (dispatch spintaxParse env p) = Returned r ->
  status r = DELIVERED \/ status r = SENT.
Proof. dispatch_cases; intros [= <-]; cbn; auto. Qed.

(** Whenever [dispatch] reports SENT, the cooldown capability was not
    invoked. *)
Lemma dispatch_sent_no_cooldown env p r :
  snd (dispatch spintaxParse env p) = Returned r ->
  status r = SENT ->
  forall e, In e (fst (dispatch spintaxParse env p)) ->
            isCooldownCall e = false.
Proof.
  dispatch_cases; intros [= <-]; cbn; try discriminate;
    intros _ e H; repeat destruct H as [<-|H]; try reflexivity; destruct H.
Qed.

(** C10 (amended). A dry run makes none of the calls of a send (no typing
    sleep, no [sendMessage], no [waitForDelivery], no [enterCooldown]),
    whatever the account does: its only call is the readiness wait of an
    account that has one.  When that wait resolves, or the account has
    none, it returns DELIVERED with the rendered message and no provider
    message id; when the wait fails it throws the error of the wait, and
    with no account selected it throws at once. *)
Theorem dispatch_dryRun env p :
  p_dryRun p = true ->
  (forall e, In e (fst (dispatch spintaxParse env p)) -> isSendCall e = false)
  /\ match getNextClient env with
     | None =>
         dispatch spintaxParse env p
         = ([], Threw "No active sessions available for dispatch.")
     | Some client =>
         fst (dispatch spintaxParse env p)
         = match c_waitUntilReady client with
           | Some _ => [CallWaitUntilReady (c_id client) 30000]
           | None => []
           end
         /\ (becomesReady client ->
             exists r,
               snd (dispatch spintaxParse env p) = Returned r
               /\ status r = DELIVERED /\ messageId r = None /\ jid r = None
               /\ chip r = c_id client
               /\ message r
                  = applyTemplate spintaxParse (p_messageTemplate p)
                      (p_variables p))
         /\ (forall waitUntilReady message,
                c_waitUntilReady client = Some waitUntilReady ->
                waitUntilReady 30000%Z = Threw message ->
                snd (dispatch spintaxParse env p) = Threw message)
     end.
Proof.
  intros Hdry. unfold dispatch, becomesReady.
  destruct (getNextClient env) as [client|];
    [|split; [intros e [] | reflexivity]].
  destruct (c_waitUntilReady client) as [waitUntilReady|].
  - unfold perform at 1.
    destruct (waitUntilReady 30000%Z) as [[]|message] eqn:Ew;
      cbn [bind ret fst snd app]; rewrite ?Hdry; cbn.
    + split; [intros e [<-|[]]; reflexivity|].
      split; [reflexivity|]. split; [|intros w m [= <-] H; congruence].
      intros _. eexists. repeat split.
    + split; [intros e [<-|[]]; reflexivity|].
      split; [reflexivity|]. split; [discriminate|].
      intros w m [= <-] H. congruence.
  - cbn [bind ret fst snd app]. rewrite Hdry. cbn.
    split; [intros e []|]. split; [reflexivity|].
    split; [|discriminate]. intros _. eexists. repeat split.
Qed.

End Facts.

Lemma dispatch_ack_witness :
  In (CallWaitForDelivery "chip_1" "m1" 20000)
     (fst (dispatch (fun s => s) (fixedDelays silentClient)
                    (samplePayload false)))
  /\ exists r,
       snd (dispatch (fun s => s) (fixedDelays silentClient)
                     (samplePayload false)) = Returned r
       /\ messageId r = Some "m1" /\ status r = SENT.
Proof.
  exact (dispatch_ack (fun s => s) (fixedDelays silentClient)
           (samplePayload false) silentClient
           (Some (mkSendResult (Some "m1") (Some "jid1"))) "m1"
           eq_refl eq_refl eq_refl eq_refl eq_refl).
Defined.

Lemma dispatch_dryRun_witness :
  (forall e,
      In e (fst (dispatch (fun s => s) (fixedDelays promptClient)
                          (samplePayload true))) ->
      isSendCall e = false)
  /\ exists r,
       snd (dispatch (fun s => s) (fixedDelays promptClient)
                     (samplePayload true)) = Returned r
       /\ status r = DELIVERED /\ messageId r = None /\ jid r = None
       /\ chip r = "chip_1" /\ message r = "Oi Sam".
Proof.
  destruct (dispatch_dryRun (fun s => s) (fixedDelays promptClient)
              (samplePayload true) eq_refl) as (Hcalls & _ & Hready & _).
  split; [exact Hcalls | exact (Hready eq_refl)].
Defined.

(** An account whose readiness wait fails. *)
Definition unreadyClient : Client :=
  mkClient "chip_1"
    (Some (fun _ => Threw "Timeout waiting for READY"))
    (fun _ _ _ => Returned (Some (mkSendResult (Some "m1") (Some "jid1"))))
    (fun _ _ => Returned tt)
    true.

(** C10, as stated, fails: a dry run on an account whose readiness wait
    fails returns no result; it throws the error of the wait, after
    calling [waitUntilReady] on the account. *)
Lemma dryRun_unready_throws :
  dispatch (fun s => s) (fixedDelays unreadyClient) (samplePayload true)
  = ([CallWaitUntilReady "chip_1" 30000], Threw "Timeout waiting for READY").
Proof. vm_compute. reflexivity. Qed.

(** C6. The account has the cooldown capability and accepts the send;
    the delivery confirmation does not arrive.  [dispatch] reports SENT
    and has made four calls, none of them [enterCooldown]; with the
    confirmation arriving, the same send ends with the cooldown call. *)
Theorem dispatch_ack_timeout_skips_cooldown :
  dispatch (fun s => s) (fixedDelays silentClient) (samplePayload false)
  = ([CallWaitUntilReady "chip_1" 30000;
      Sleep 1200;
      CallSendMessage "chip_1" "5511999990000" "Oi Sam"
        (p_correlation (samplePayload false));
      CallWaitForDelivery "chip_1" "m1" 20000],
     Returned (mkDispatchResult SENT "chip_1" "Oi Sam" (Some "msg_1")
                 (Some "m1") (Some "jid1") (Some (mkDelays 1200 5000))))
  /\ fst (dispatch (fun s => s) (fixedDelays promptClient)
                   (samplePayload false))
     = [CallWaitUntilReady "chip_1" 30000;
        Sleep 1200;
        CallSendMessage "chip_1" "5511999990000" "Oi Sam"
          (p_correlation (samplePayload false));
        CallWaitForDelivery "chip_1" "m1" 20000;
        CallEnterCooldown "chip_1" 5000 "post_send_delay"].
Proof. split; vm_compute; reflexivity. Qed.

End DispatcherFacts.

(** ** Daily statistics *)

Module DailyStatsFacts.
Import CampaignManager.

(** A send that counts for the campaign. *)
Definition success (status : Status) : Prop :=
  status = SENT \/ status = DELIVERED.

(** The stats file holds no record of the clock's day: there is no file,
    or its record is of another day. *)
Definition staleFor (clock : Clock) (statsFile : file DailyStats) : Prop :=
  match statsFile with
  | Absent => True
  | Corrupt => False
  | Doc stored => ds_date stored <> Some (today clock)
  end.

(** The stats file after one update. *)
Definition recordSend (status : Status) (clock : Clock)
           (statsFile : file DailyStats) : file DailyStats :=
  fst (_updateDailyStats status clock statsFile).

(** The [totalSent] a stats file holds. *)
Definition sentOf (statsFile : file DailyStats) : option nat :=
  match statsFile with
  | Doc stats => totalSent stats
  | _ => None
  end.

Lemma success_counts status : success status -> countsAsSent status = true.
Proof. intros [-> | ->]; reflexivity. Qed.

(** A success recorded on a day the file has no record of leaves the
    record of that day with one send, in the bucket of the hour. *)
Lemma recordSend_stale status clock statsFile :
  success status -> staleFor clock statsFile ->
  recordSend status clock statsFile
  = Doc (mkDailyStats (Some (today clock)) (Some 1) (Some 0)
           (Some {[hourKey (hours clock) := 1]})).
Proof.
  intros Hs Hstale. unfold recordSend, _updateDailyStats.
  destruct statsFile as [| |stored]; simpl in *; [|contradiction|].
  - rewrite (success_counts _ Hs). reflexivity.
  - rewrite decide_False by exact Hstale.
    rewrite (success_counts _ Hs). reflexivity.
Qed.

(** A success recorded on the day of the stored record adds one to
    [totalSent] and to the bucket of the hour and changes nothing else. *)
Lemma recordSend_sameDay status clock stored :
  success status -> ds_date stored = Some (today clock) ->
  recordSend status clock (Doc stored)
  = Doc (mkDailyStats (Some (today clock))
           (Some (default 0 (totalSent stored) + 1))
           (totalDelivered stored)
           (Some (<[hourKey (hours clock) :=
                      default 0 (default ∅ (hourly stored)
                                   !! hourKey (hours clock)) + 1]>
                    (default ∅ (hourly stored))))).
Proof.
  intros Hs Hday. unfold recordSend, _updateDailyStats. simpl.
  rewrite decide_True by exact Hday.
  rewrite (success_counts _ Hs). unfold countSend. now rewrite Hday.
Qed.

(** C7. Each success adds one to [totalSent] and to the bucket of the
    current hour, after the record has been reset when it is of another
    day; two successes on one day give [totalSent = 2], and a success
    after the day has changed gives [totalSent = 1]. *)
Theorem dailyStats_count :
  (forall status clock stored,
      success status -> ds_date stored = Some (today clock) ->
      exists stats,
        _updateDailyStats status clock (Doc stored) = (Doc stats, Some stats)
        /\ ds_date stats = Some (today clock)
        /\ totalSent stats = Some (default 0 (totalSent stored) + 1)
        /\ totalDelivered stats = totalDelivered stored
        /\ (exists buckets,
              hourly stats = Some buckets
              /\ buckets !! hourKey (hours clock)
                 = Some (default 0 (default ∅ (hourly stored)
                                      !! hourKey (hours clock)) + 1)
              /\ forall k, k <> hourKey (hours clock) ->
                           buckets !! k = default ∅ (hourly stored) !! k))
  /\ (forall status clock statsFile,
         success status -> staleFor clock statsFile ->
         _updateDailyStats status clock statsFile
         = (Doc (mkDailyStats (Some (today clock)) (Some 1) (Some 0)
                   (Some {[hourKey (hours clock) := 1]})),
            Some (mkDailyStats (Some (today clock)) (Some 1) (Some 0)
                    (Some {[hourKey (hours clock) := 1]}))))
  /\ (forall s1 s2 c1 c2 statsFile,
         success s1 -> success s2 -> today c1 = today c2 ->
         staleFor c1 statsFile ->
         sentOf (recordSend s2 c2 (recordSend s1 c1 statsFile)) = Some 2)
  /\ (forall s1 s2 s3 c1 c2 c3 statsFile,
         success s1 -> success s2 -> success s3 ->
         today c1 = today c2 -> today c3 <> today c2 ->
         staleFor c1 statsFile ->
         sentOf (recordSend s3 c3
                   (recordSend s2 c2 (recordSend s1 c1 statsFile)))
         = Some 1).
Proof.
  repeat apply conj.
  - intros status clock stored Hs Hday.
    pose proof (recordSend_sameDay _ _ _ Hs Hday) as H.
    unfold recordSend in H.
    destruct (_updateDailyStats status clock (Doc stored)) as [f r] eqn:E.
    simpl in H. subst f.
    unfold _updateDailyStats in E. simpl in E.
    rewrite decide_True in E by exact Hday.
    rewrite (success_counts _ Hs) in E. injection E as E1 E2.
    eexists. split; [rewrite <- E2; unfold countSend; rewrite Hday; f_equal|].
    simpl. repeat split.
    eexists. split; [reflexivity|]. split.
    + apply lookup_insert_eq.
    + intros k Hk. now apply lookup_insert_ne.
  - intros status clock statsFile Hs Hstale.
    pose proof (recordSend_stale _ _ _ Hs Hstale) as H.
    unfold recordSend in H. unfold _updateDailyStats in *.
    destruct statsFile as [| |stored]; simpl in *; [|contradiction|].
    + now rewrite (success_counts _ Hs).
    + rewrite decide_False by exact Hstale.
      now rewrite (success_counts _ Hs).
  - intros s1 s2 c1 c2 statsFile H1 H2 Hday Hstale.
    rewrite (recordSend_stale _ _ _ H1 Hstale).
    rewrite recordSend_sameDay; [reflexivity | exact H2 | simpl; now f_equal].
  - intros s1 s2 s3 c1 c2 c3 statsFile H1 H2 H3 Hday Hnext Hstale.
    rewrite (recordSend_stale _ _ _ H1 Hstale).
    rewrite recordSend_sameDay; [|exact H2 | simpl; now f_equal].
    rewrite recordSend_stale; [reflexivity | exact H3 |].
    simpl. rewrite <- Hday. intros [= E]. apply Hnext. congruence.
Qed.

(** Two sends on 2 March at 09h and 10h, then one on 3 March at 08h. *)
Example dailyStats_rollover :
  let c1 := mkClock "2026-03-02T09:15:00.000Z" "2026-03-02" 9 in
  let c2 := mkClock "2026-03-02T10:40:00.000Z" "2026-03-02" 10 in
  let c3 := mkClock "2026-03-03T08:05:00.000Z" "2026-03-03" 8 in
  let day1 := recordSend DELIVERED c2 (recordSend SENT c1 Absent) in
  day1 = Doc (mkDailyStats (Some "2026-03-02") (Some 2) (Some 0)
                (Some (<["10:00" := 1]> {["09:00" := 1]})))
  /\ sentOf (recordSend SENT c3 day1) = Some 1.
Proof. split; vm_compute; reflexivity. Qed.

End DailyStatsFacts.

(** ** The campaign manager *)

Module CampaignManagerFacts.
Import TemplateEngine Dispatcher DispatcherFacts CampaignManager.

(** The state a call of [startCampaign] works on: the loaded state with
    the campaign adopted. *)
Definition startingState (excelPath messageTemplate originalFilename : string)
           (options : StartOptions) (env : RunEnv) (w : World)
  : CampaignState :=
  adoptCampaign (chooseCampaignId options env)
    (mkConfig messageTemplate excelPath originalFilename
       (delayConfigOf options))
    (loadState w).

(** The claim that the two collections are disjoint: no row number is
    recorded in both. *)
Definition inExactlyOne (state : CampaignState) : Prop :=
  forall r, ~ (In r (processedRows state)
               /\ In r (map f_row (failedRows state))).

(** The world records [state] both in memory and on disk. *)
Definition recorded (state : CampaignState) (w : World) : Prop :=
  currentState w = Some state /\ stateFile w = Doc state.

Section Facts.

Variable spintaxParse : string -> string.
Variable createContactId : Z -> string.
Variable buildCorrelationId : string -> string -> option string -> string.
Variable formatCorrelationTag : string -> string.

Local Abbreviation processContact :=
  (processContact spintaxParse createContactId buildCorrelationId
                  formatCorrelationTag).
Local Abbreviation processLoop :=
  (processLoop spintaxParse createContactId buildCorrelationId
               formatCorrelationTag).
Local Abbreviation startCampaign :=
  (startCampaign spintaxParse createContactId buildCorrelationId
                 formatCorrelationTag).
Local Abbreviation contactPayload := (contactPayload createContactId buildCorrelationId).

(** What [dispatch] answers for the contact at index [i]. *)
Definition stepOutcome (campaign messageTemplate : string)
           (delayConfig : DelayConfig) (env : nat -> StepEnv) (i : nat)
           (contact : Contact) : outcome DispatchResult :=
  snd (dispatch spintaxParse (dispatchEnv (env i))
         (contactPayload campaign messageTemplate delayConfig (env i) contact)).

(** The entry [failedRows] gains for an outcome. *)
Definition failureOf (contact : Contact) (o : outcome DispatchResult)
  : list FailedRow :=
  match o with
  | Threw message => [mkFailedRow (row contact) message]
  | Returned _ => []
  end.

(** The entries [failedRows] gains over [toProcess], from index [i] on. *)
Fixpoint failuresFrom (campaign messageTemplate : string)
         (delayConfig : DelayConfig) (env : nat -> StepEnv) (i : nat)
         (toProcess : list Contact) : list FailedRow :=
  match toProcess with
  | [] => []
  | contact :: rest =>
      (failureOf contact
         (stepOutcome campaign messageTemplate delayConfig env i contact)
       ++ failuresFrom campaign messageTemplate delayConfig env (S i) rest)%list
  end.

(** The turn of the loop for a contact whose dispatch throws. *)
Lemma processContact_threw campaign messageTemplate delayConfig n i env
      contact state w message :
  snd (dispatch spintaxParse (dispatchEnv env)
         (contactPayload campaign messageTemplate delayConfig env contact))
  = Threw message ->
  truthy (newMessageId env) = true ->
  let contactId := createContactId (row contact) in
  let correlationId :=
    buildCorrelationId campaign contactId (Some (newMessageId env)) in
  let state' :=
    pushProcessed (row contact)
      (setMessageStatus (newMessageId env)
         (mkMessageStatus campaign contactId (phone contact) FAILED
            (Some message) (isoNow (clock env)))
         (pushFailed (row contact) message state)) in
  processContact campaign messageTemplate delayConfig n i env contact state w
  = (state',
     saveState state'
       (setCurrentState state'
          (_emitEvent
             (message_status campaign contactId (newMessageId env)
                (formatCorrelationTag correlationId) FAILED (phone contact)
                (Some message))
             (recordCalls
                (fst (dispatch spintaxParse (dispatchEnv env)
                        (contactPayload campaign messageTemplate delayConfig
                           env contact)))
                (_emitEvent
                   (message_status campaign contactId (newMessageId env)
                      correlationId SENDING (phone contact) None) w))))).
Proof.
  intros Hthrow Hid. unfold CampaignManager.processContact.
  fold (contactPayload campaign messageTemplate delayConfig env contact).
  destruct (dispatch spintaxParse (dispatchEnv env)
              (contactPayload campaign messageTemplate delayConfig env contact))
    as [trace result].
  simpl in Hthrow. subst result. rewrite Hid. reflexivity.
Qed.

(** C2. When the dispatch of a contact throws, the turn of the loop
    appends (row, error) to [failedRows], records a FAILED entry under the
    client message id, emits a FAILED [message_status] event, appends the
    row to [processedRows] as well, and saves the state; the row is then
    among those a start filters out. *)
Theorem failed_contact_recorded campaign messageTemplate delayConfig n i env
        contact state w message :
  snd (dispatch spintaxParse (dispatchEnv env)
         (contactPayload campaign messageTemplate delayConfig env contact))
  = Threw message ->
  truthy (newMessageId env) = true ->
  exists state' w',
    processContact campaign messageTemplate delayConfig n i env contact state w
    = (state', w')
    /\ failedRows state'
       = (failedRows state ++ [mkFailedRow (row contact) message])%list
    /\ processedRows state' = (processedRows state ++ [row contact])%list
    /\ messageStatus state' !! newMessageId env
       = Some (mkMessageStatus campaign (createContactId (row contact))
                 (phone contact) FAILED (Some message) (isoNow (clock env)))
    /\ (exists correlationId,
          emitted w'
          = (emitted w
             ++ [message_status campaign (createContactId (row contact))
                   (newMessageId env)
                   (buildCorrelationId campaign
                      (createContactId (row contact))
                      (Some (newMessageId env)))
                   SENDING (phone contact) None;
                 message_status campaign (createContactId (row contact))
                   (newMessageId env) correlationId FAILED (phone contact)
                   (Some message)])%list)
    /\ recorded state' w'
    /\ includes (row contact) (processedRows state') = true.
Proof.
  intros Hthrow Hid.
  rewrite (processContact_threw _ _ _ n i _ _ state w _ Hthrow Hid).
  eexists _, _. split; [reflexivity|]. simpl.
  repeat split.
  - apply lookup_insert_eq.
  - eexists. rewrite <- app_assoc. reflexivity.
  - unfold includes. rewrite existsb_app. simpl.
    rewrite Z.eqb_refl. now rewrite orb_true_r.
Qed.

(** What one turn of the loop does to the two collections. *)
Lemma processContact_rows campaign messageTemplate delayConfig n i env
      contact state w :
  processedRows
    (fst (processContact campaign messageTemplate delayConfig n i env contact
            state w))
  = (processedRows state ++ [row contact])%list
  /\ failedRows
       (fst (processContact campaign messageTemplate delayConfig n i env
               contact state w))
     = (failedRows state
        ++ failureOf contact
             (snd (dispatch spintaxParse (dispatchEnv env)
                     (contactPayload campaign messageTemplate delayConfig env
                        contact))))%list
  /\ recorded
       (fst (processContact campaign messageTemplate delayConfig n i env
               contact state w))
       (snd (processContact campaign messageTemplate delayConfig n i env
               contact state w))
  /\ isPaused
       (snd (processContact campaign messageTemplate delayConfig n i env
               contact state w))
     = isPaused w.
Proof.
  unfold CampaignManager.processContact.
  fold (contactPayload campaign messageTemplate delayConfig env contact).
  pose proof (dispatch_status spintaxParse (dispatchEnv env)
                (contactPayload campaign messageTemplate delayConfig env contact))
    as Hstatus.
  destruct (dispatch spintaxParse (dispatchEnv env)
              (contactPayload campaign messageTemplate delayConfig env contact))
    as [trace [result|message]]; simpl in Hstatus |- *.
  - specialize (Hstatus result eq_refl).
    destruct (decide (status result = DELIVERED ∨ status result = SENT))
      as [_|Hno]; [|contradiction].
    destruct (delays result) as [d|];
      [destruct (negb (i =? n - 1)%nat && (0 <? wait d)%Z)|];
      simpl; rewrite app_nil_r; repeat split.
  - destruct (truthy (newMessageId env)); simpl; repeat split.
Qed.

(** What a loop that is never paused does to the two collections. *)
Lemma processLoop_rows campaign messageTemplate delayConfig n env :
  (forall j, pauseRequested (env j) = false) ->
  forall toProcess i state w,
    isPaused w = false -> recorded state w ->
    processedRows
      (fst (processLoop campaign messageTemplate delayConfig n env i
              toProcess state w))
    = (processedRows state ++ map row toProcess)%list
    /\ failedRows
         (fst (processLoop campaign messageTemplate delayConfig n env i
                 toProcess state w))
       = (failedRows state
          ++ failuresFrom campaign messageTemplate delayConfig env i
               toProcess)%list
    /\ recorded
         (fst (processLoop campaign messageTemplate delayConfig n env i
                 toProcess state w))
         (snd (processLoop campaign messageTemplate delayConfig n env i
                 toProcess state w)).
Proof.
  intros Hrun. induction toProcess as [|contact rest IH];
    intros i state w Hpaused Hrec; simpl.
  - rewrite !app_nil_r. auto.
  - rewrite Hpaused, Hrun. simpl.
    pose proof (processContact_rows campaign messageTemplate delayConfig n i
                  (env i) contact state w) as (Hp & Hf & Hr & Hq).
    destruct (processContact campaign messageTemplate delayConfig n i (env i)
                contact state w) as [state1 w1].
    simpl in Hp, Hf, Hr, Hq.
    destruct (IH (S i) state1 w1) as (Hp' & Hf' & Hr');
      [congruence | exact Hr |].
    rewrite Hp', Hf', Hp, Hf. unfold stepOutcome.
    rewrite <- !app_assoc. auto.
Qed.

(** C1 (amended). After a full run of the loop the state, in memory and
    on disk, has every contact row in [processedRows]; [failedRows] has
    gained exactly the rows whose dispatch threw, and each of these rows
    is in [processedRows] as well. *)
Theorem full_run_rows excelPath messageTemplate originalFilename options env w
        contacts :
  parse env excelPath originalFilename = Returned contacts ->
  waitForReady env = Returned tt ->
  (forall i, pauseRequested (steps env i) = false) ->
  exists state',
    recorded state'
      (fst (startCampaign excelPath messageTemplate originalFilename options
              env w))
    /\ snd (startCampaign excelPath messageTemplate originalFilename options
              env w)
       = Returned (mkStartReturn (chooseCampaignId options env) None)
    /\ processedRows state'
       = (processedRows
            (startingState excelPath messageTemplate originalFilename
               options env w)
          ++ map row
               (unprocessed
                  (startingState excelPath messageTemplate originalFilename
                     options env w)
                  contacts))%list
    /\ failedRows state'
       = (failedRows
            (startingState excelPath messageTemplate originalFilename
               options env w)
          ++ failuresFrom (chooseCampaignId options env) messageTemplate
               (delayConfigOf options) (steps env) 0
               (unprocessed
                  (startingState excelPath messageTemplate originalFilename
                     options env w)
                  contacts))%list
    /\ (forall c, In c contacts -> In (row c) (processedRows state'))
    /\ (forall f,
           In f (failuresFrom (chooseCampaignId options env) messageTemplate
                   (delayConfigOf options) (steps env) 0
                   (unprocessed
                      (startingState excelPath messageTemplate
                         originalFilename options env w)
                      contacts)) ->
           In f (failedRows state') /\ In (f_row f) (processedRows state')).
Proof.
  intros Hparse Hready Hrun.
  unfold CampaignManager.startCampaign, startingState. rewrite Hparse.
  set (campaign := chooseCampaignId options env).
  set (state0 := adoptCampaign campaign _ (loadState w)).
  set (state1 := setTotalContacts (List.length contacts) state0).
  change (unprocessed state1 contacts) with (unprocessed state0 contacts).
  set (toProcess := unprocessed state0 contacts).
  rewrite Hready.
  assert (Hwait : (if (0 <? List.length toProcess)%nat
                   then Returned tt else Returned tt) = @Returned unit tt)
    by now destruct (0 <? List.length toProcess)%nat.
  rewrite Hwait. clear Hwait.
  set (w1 := setPaused false _).
  pose proof (processLoop_rows campaign messageTemplate (delayConfigOf options)
                (List.length toProcess) (steps env) Hrun toProcess 0 state1 w1
                eq_refl (conj eq_refl eq_refl)) as (Hp & Hf & Hrec).
  destruct (processLoop campaign messageTemplate (delayConfigOf options)
              (List.length toProcess) (steps env) 0 toProcess state1 w1)
    as [state' w'].
  simpl in Hp, Hf, Hrec. exists state'. simpl.
  split; [exact Hrec|]. split; [reflexivity|].
  split; [exact Hp|]. split; [exact Hf|]. split.
  - intros c Hc. rewrite Hp. apply in_or_app.
    destruct (includes (row c) (processedRows state0)) eqn:E.
    + left. unfold includes in E. apply existsb_exists in E as (r & Hr & Heq).
      apply Z.eqb_eq in Heq. now subst r.
    + right. apply in_map. unfold toProcess, unprocessed.
      apply filter_In. split; [exact Hc | now rewrite E].
  - intros f Hin. split; [rewrite Hf; apply in_or_app; now right|].
    rewrite Hp. apply in_or_app. right. clear -Hin.
    revert Hin. generalize 0. induction toProcess as [|c rest IH]; intros i; simpl.
    + intros [].
    + rewrite in_app_iff. intros [H|H]; [|right; exact (IH _ H)].
      left. destruct (stepOutcome _ _ _ _ _ _); simpl in H; [destruct H|].
      destruct H as [<-|[]]. reflexivity.
Qed.

(** A turn of the loop changes neither the campaign id nor the total. *)
Lemma processContact_frame campaign messageTemplate delayConfig n i env
      contact state w :
  campaignId
    (fst (processContact campaign messageTemplate delayConfig n i env contact
            state w))
  = campaignId state
  /\ totalContacts
       (fst (processContact campaign messageTemplate delayConfig n i env
               contact state w))
     = totalContacts state.
Proof.
  unfold CampaignManager.processContact.
  destruct (dispatch spintaxParse (dispatchEnv env) _)
    as [trace [result|message]]; simpl.
  - destruct (decide (status result = DELIVERED ∨ status result = SENT));
      [|split; reflexivity].
    destruct (delays result) as [d|];
      [destruct (negb (i =? n - 1)%nat && (0 <? wait d)%Z)|];
      split; reflexivity.
  - destruct (truthy (newMessageId env)); split; reflexivity.
Qed.

(** Paused or not, the loop ends with its state in memory and on disk,
    under the same campaign id and total. *)
Lemma processLoop_recorded campaign messageTemplate delayConfig n env :
  forall toProcess i state w,
    recorded state w ->
    recorded
      (fst (processLoop campaign messageTemplate delayConfig n env i
              toProcess state w))
      (snd (processLoop campaign messageTemplate delayConfig n env i
              toProcess state w))
    /\ campaignId
         (fst (processLoop campaign messageTemplate delayConfig n env i
                 toProcess state w))
       = campaignId state
    /\ totalContacts
         (fst (processLoop campaign messageTemplate delayConfig n env i
                 toProcess state w))
       = totalContacts state.
Proof.
  induction toProcess as [|contact rest IH]; intros i state w Hrec; simpl.
  - auto.
  - destruct (isPaused w || pauseRequested (env i)); simpl; [auto|].
    pose proof (processContact_rows campaign messageTemplate delayConfig n i
                  (env i) contact state w) as (_ & _ & Hr & _).
    pose proof (processContact_frame campaign messageTemplate delayConfig n i
                  (env i) contact state w) as (Hc & Ht).
    destruct (processContact campaign messageTemplate delayConfig n i (env i)
                contact state w) as [state1 w1].
    simpl in Hr, Hc, Ht.
    destruct (IH (S i) state1 w1 Hr) as (Hr' & Hc' & Ht').
    rewrite Hc', Ht', Hc, Ht. auto.
Qed.

(** With nothing processed yet, every contact is still to be processed. *)
Lemma unprocessed_blank state contacts :
  processedRows state = [] -> unprocessed state contacts = contacts.
Proof.
  intros H. unfold unprocessed. rewrite H. simpl.
  induction contacts as [|c l IH]; simpl; [reflexivity | now rewrite IH].
Qed.

(** C5 (amended). A call of [startCampaign] under an id other than the
    one on record works on a blank state with the new id: the collections
    are empty.  That state is in memory at once; it reaches the state file
    only once the contacts have been parsed, with their number, before the
    wait for a ready account and before the loop.  When parsing fails the
    state file is left as it was. *)
Theorem supersede_resets excelPath messageTemplate originalFilename options
        env w previous :
  recordedId (loadState w) = Some previous ->
  previous <> chooseCampaignId options env ->
  startingState excelPath messageTemplate originalFilename options env w
  = mkCampaignState (Some (chooseCampaignId options env)) (Some 0) [] [] []
      ∅ (Some (mkConfig messageTemplate excelPath originalFilename
                 (delayConfigOf options)))
  /\ (forall message,
         parse env excelPath originalFilename = Threw message ->
         startCampaign excelPath messageTemplate originalFilename options
           env w
         = (setCurrentState
              (startingState excelPath messageTemplate originalFilename
                 options env w) w,
            Threw message))
  /\ (forall contacts,
         parse env excelPath originalFilename = Returned contacts ->
         unprocessed
           (startingState excelPath messageTemplate originalFilename options
              env w) contacts = contacts
         /\ (forall message,
                contacts <> [] -> waitForReady env = Threw message ->
                recorded
                  (setTotalContacts (List.length contacts)
                     (startingState excelPath messageTemplate
                        originalFilename options env w))
                  (fst (startCampaign excelPath messageTemplate
                          originalFilename options env w))
                /\ snd (startCampaign excelPath messageTemplate
                          originalFilename options env w)
                   = Returned (mkStartReturn (chooseCampaignId options env)
                                 (Some message)))
         /\ exists state',
              recorded state'
                (fst (startCampaign excelPath messageTemplate
                        originalFilename options env w))
              /\ campaignId state' = Some (chooseCampaignId options env)
              /\ totalContacts state' = Some (List.length contacts)).
Proof.
  intros Hprev Hneq.
  assert (Hblank :
    startingState excelPath messageTemplate originalFilename options env w
    = mkCampaignState (Some (chooseCampaignId options env)) (Some 0) [] [] []
        ∅ (Some (mkConfig messageTemplate excelPath originalFilename
                   (delayConfigOf options)))).
  { unfold startingState, adoptCampaign. rewrite Hprev.
    rewrite decide_True by exact Hneq. reflexivity. }
  split; [exact Hblank|]. split.
  - intros message Hparse. unfold CampaignManager.startCampaign.
    rewrite Hparse. reflexivity.
  - intros contacts Hparse.
    assert (Hall :
      unprocessed
        (startingState excelPath messageTemplate originalFilename options
           env w) contacts = contacts).
    { apply unprocessed_blank. now rewrite Hblank. }
    split; [exact Hall|].
    unfold CampaignManager.startCampaign. rewrite Hparse.
    fold (startingState excelPath messageTemplate originalFilename options
            env w).
    set (state0 := startingState _ _ _ _ _ _) in *.
    set (state1 := setTotalContacts (List.length contacts) state0).
    change (unprocessed state1 contacts) with (unprocessed state0 contacts).
    rewrite Hall. split.
    + intros message Hne Hwait.
      destruct contacts as [|c l]; [congruence|]. simpl. rewrite Hwait.
      simpl. repeat split.
    + destruct (if (0 <? List.length contacts)%nat then waitForReady env
                else Returned tt) as [[]|message].
      * set (w1 := setPaused false _).
        pose proof (processLoop_recorded (chooseCampaignId options env)
                      messageTemplate (delayConfigOf options)
                      (List.length contacts) (steps env) contacts 0 state1 w1
                      (conj eq_refl eq_refl)) as (Hrec & Hc & Ht).
        destruct (processLoop (chooseCampaignId options env) messageTemplate
                    (delayConfigOf options) (List.length contacts)
                    (steps env) 0 contacts state1 w1) as [state' w'].
        simpl in Hrec, Hc, Ht. exists state'. simpl.
        split; [exact Hrec|]. rewrite Hc, Ht. subst state1. simpl.
        try rewrite Hblank. split; reflexivity.
      * exists state1. simpl. split; [split; reflexivity|].
        subst state1. simpl. try rewrite Hblank. split; reflexivity.
Qed.

End Facts.

(** *** Concrete runs *)

(** Stand-ins for the helpers of utils/correlation.js. *)
Definition contactIdOf (r : Z) : string := "contact_" +:+ pretty r.

Definition correlationOf (campaign contactId : string)
           (messageId : option string) : string :=
  campaign +:+ ":" +:+ contactId +:+ ":" +:+ default "" messageId.

Definition tagOf (correlationId : string) : string :=
  "[" +:+ correlationId +:+ "]".

(** An account whose [sendMessage] rejects every send. *)
Definition brokenClient : Client :=
  mkClient "chip_1"
    (Some (fun _ => Returned tt))
    (fun _ _ _ => Threw "Invalid phone number")
    (fun _ _ => Returned tt)
    true.

Definition failingStep : StepEnv :=
  mkStepEnv false "msg_1" (fixedDelays brokenClient)
    (mkClock "2026-03-02T09:15:00.000Z" "2026-03-02" 9).

Definition sam : Contact := mkContact 2 "Sam" "5511999990000".

(** One contact, a ready account, and a send that is rejected. *)
Definition rejectedRun : RunEnv :=
  mkRunEnv "camp_generated" (fun _ _ => Returned [sam]) (Returned tt)
    (fun _ => failingStep).

(** A source file the parser cannot read. *)
Definition unreadableRun : RunEnv :=
  mkRunEnv "camp_generated" (fun _ _ => Threw "Unsupported file")
    (Returned tt) (fun _ => failingStep).

Definition freshWorld : World := mkWorld Absent Absent None false [] [].

(** A campaign on record with two of its three rows handled. *)
Definition campaignA : CampaignState :=
  mkCampaignState (Some "camp_A") (Some 3) [2%Z; 3%Z]
    [mkFailedRow 3 "Invalid phone number"] [] ∅
    (Some (mkConfig "Oi [nome]" "a.xlsx" "a.xlsx" (mkDelayConfig None None))).

Definition worldA : World :=
  mkWorld (Doc campaignA) Absent None false [] [].

Definition runSam (env : RunEnv) (w : World) : World * outcome StartReturn :=
  startCampaign (fun s => s) contactIdOf correlationOf tagOf
    "b.xlsx" "Oi [nome]" "b.xlsx" (mkStartOptions (Some "camp_B") None None)
    env w.

(** C1, as stated, fails: a full run over one contact whose send is
    rejected ends with row 2 both in [processedRows] and in [failedRows]. *)
Lemma failed_row_in_both :
  exists state,
    recorded state (fst (runSam rejectedRun freshWorld))
    /\ processedRows state = [2%Z]
    /\ failedRows state = [mkFailedRow 2 "Invalid phone number"]
    /\ ~ inExactlyOne state.
Proof.
  eexists. split; [split; vm_compute; reflexivity|].
  split; [reflexivity|]. split; [reflexivity|].
  intros H. apply (H 2%Z). simpl. auto.
Qed.

Lemma full_run_rows_witness :
  exists state,
    recorded state (fst (runSam rejectedRun freshWorld))
    /\ In 2%Z (processedRows state)
    /\ In (mkFailedRow 2 "Invalid phone number") (failedRows state).
Proof.
  destruct (full_run_rows (fun s => s) contactIdOf correlationOf tagOf
              "b.xlsx" "Oi [nome]" "b.xlsx"
              (mkStartOptions (Some "camp_B") None None)
              rejectedRun freshWorld [sam] eq_refl eq_refl
              (fun _ => eq_refl))
    as (state & Hrec & _ & _ & _ & Hall & Hfailed).
  exists state. split; [exact Hrec|]. split.
  - apply (Hall sam). left. reflexivity.
  - apply (Hfailed (mkFailedRow 2 "Invalid phone number")).
    vm_compute. left. reflexivity.
Defined.

Lemma failed_contact_recorded_witness :
  exists state' w',
    processContact (fun s => s) contactIdOf correlationOf tagOf
      "camp_B" "Oi [nome]" (mkDelayConfig None None) 1 0 failingStep sam
      campaignA worldA = (state', w')
    /\ failedRows state'
       = [mkFailedRow 3 "Invalid phone number";
          mkFailedRow 2 "Invalid phone number"]
    /\ processedRows state' = [2%Z; 3%Z; 2%Z]
    /\ includes 2 (processedRows state') = true.
Proof.
  destruct (failed_contact_recorded (fun s => s) contactIdOf correlationOf
              tagOf "camp_B" "Oi [nome]" (mkDelayConfig None None) 1 0
              failingStep sam campaignA worldA "Invalid phone number"
              eq_refl eq_refl)
    as (state' & w' & Heq & Hf & Hp & _ & _ & _ & Hin).
  exists state', w'. repeat split; assumption.
Defined.

(** C5, as stated, fails: camp_A is on record, camp_B is started, and the
    source cannot be parsed.  The call throws; the blank state of camp_B
    is in memory, and the state file still holds camp_A with its rows. *)
Lemma supersede_not_persisted_before_parse :
  runSam unreadableRun worldA
  = (mkWorld (Doc campaignA) Absent
       (Some (mkCampaignState (Some "camp_B") (Some 0) [] [] [] ∅
                (Some (mkConfig "Oi [nome]" "b.xlsx" "b.xlsx"
                         (mkDelayConfig None None)))))
       false [] [],
     Threw "Unsupported file")
  /\ stateFile (fst (runSam unreadableRun worldA))
     <> Doc (startingState "b.xlsx" "Oi [nome]" "b.xlsx"
               (mkStartOptions (Some "camp_B") None None) unreadableRun
               worldA).
Proof.
  split; [vm_compute; reflexivity|].
  vm_compute. intros [= H]. 
Qed.

Lemma supersede_resets_witness :
  startingState "b.xlsx" "Oi [nome]" "b.xlsx"
    (mkStartOptions (Some "camp_B") None None) rejectedRun worldA
  = mkCampaignState (Some "camp_B") (Some 0) [] [] [] ∅
      (Some (mkConfig "Oi [nome]" "b.xlsx" "b.xlsx" (mkDelayConfig None None)))
  /\ exists state',
       recorded state' (fst (runSam rejectedRun worldA))
       /\ campaignId state' = Some "camp_B"
       /\ totalContacts state' = Some 1.
Proof.
  destruct (supersede_resets (fun s => s) contactIdOf correlationOf tagOf
              "b.xlsx" "Oi [nome]" "b.xlsx"
              (mkStartOptions (Some "camp_B") None None) rejectedRun worldA
              "camp_A" eq_refl ltac:(discriminate))
    as (Hblank & _ & Hparsed).
  split; [exact Hblank|].
  destruct (Hparsed [sam] eq_refl) as (_ & _ & Hrec). exact Hrec.
Defined.

End CampaignManagerFacts.

(** ** Reconciling the session list *)

Module SessionsFacts.
Import Sessions.

(** The entries [incoming.map(s => [s.id, s])]. *)
Definition entriesOf (l : list Session) : list (string * Session) :=
  map (fun s => (id s, s)) l.

(** An entry whose key is not among the ids seen so far. *)
Definition keep (seen : list string) (e : string * Session) : bool :=
  negb (bool_decide (fst e ∈ seen)).

(** [reconcile] against the entries of a [Map]. *)
Definition reconcileIn (m : list (string * Session)) (session : Session)
  : option Session :=
  match map_get (id session) m with
  | Some updated => Some (spread session updated)
  | None => if isTemp session then Some session else None
  end.

Lemma map_set_fresh k v m :
  k ∉ map fst m -> map_set k v m = (m ++ [(k, v)])%list.
Proof.
  induction m as [|[k' v'] m IH]; simpl; intros H; [reflexivity|].
  rewrite decide_False by (intros ->; apply H; left).
  rewrite IH; [reflexivity|]. intros Hin. apply H. now right.
Qed.

Lemma newMap_distinct entries :
  NoDup (map fst entries) -> newMap entries = entries.
Proof.
  unfold newMap.
  assert (G : forall acc, NoDup (map fst acc ++ map fst entries) ->
    fold_left (fun m e => map_set (fst e) (snd e) m) entries acc
    = (acc ++ entries)%list).
  { induction entries as [|[k v] l IH]; intros acc H; simpl.
    - now rewrite app_nil_r.
    - simpl in H. apply NoDup_app in H as (Hacc & Hdisj & Hl).
      rewrite map_set_fresh.
      + rewrite IH.
        * now rewrite <- app_assoc.
        * rewrite map_app. simpl. rewrite <- app_assoc. simpl.
          apply NoDup_app. split; [exact Hacc|]. split; [exact Hdisj|exact Hl].
      + intros Hin. apply (Hdisj k Hin). left. }
  intros H. apply (G []). exact H.
Qed.

Lemma map_get_entries k l : map_get k (entriesOf l) = findById k l.
Proof.
  unfold findById. induction l as [|s l IH]; simpl; [reflexivity|].
  destruct (decide (id s = k)) as [E|E].
  - now rewrite bool_decide_eq_true_2.
  - now rewrite bool_decide_eq_false_2.
Qed.

Lemma map_get_None k m : map_get k m = None -> k ∉ map fst m.
Proof.
  induction m as [|[k' v'] m IH]; simpl; [intros _ H; inversion H|].
  destruct (decide (k' = k)); [discriminate|].
  intros H Hin. apply elem_of_cons in Hin as [->|Hin]; [congruence|].
  now apply IH.
Qed.

Lemma map_get_filter (f : string -> bool) k m :
  map_get k (List.filter (fun e => f (fst e)) m)
  = if f k then map_get k m else None.
Proof.
  induction m as [|[k' v'] m IH]; simpl; [now destruct (f k)|].
  destruct (f k') eqn:Ek'; simpl.
  - destruct (decide (k' = k)) as [->|]; [now rewrite Ek'|exact IH].
  - rewrite IH. destruct (decide (k' = k)) as [->|]; [now rewrite Ek'|reflexivity].
Qed.

Lemma filter_all {A} (f : A -> bool) (l : list A) :
  (forall x, In x l -> f x = true) -> List.filter f l = l.
Proof.
  induction l as [|a l IH]; simpl; intros H; [reflexivity|].
  rewrite (H a) by now left. rewrite IH; [reflexivity|]. intros x Hx. apply H. now right.
Qed.

Lemma map_delete_filter k m :
  NoDup (map fst m) ->
  map_delete k m = List.filter (fun e => negb (bool_decide (fst e = k))) m.
Proof.
  induction m as [|[k' v'] m IH]; simpl; intros H; [reflexivity|].
  apply NoDup_cons in H as [Hk' Hm].
  destruct (decide (k' = k)) as [->|Hne].
  - rewrite bool_decide_eq_true_2 by reflexivity. simpl.
    symmetry. apply filter_all. intros [k2 v2] Hin. simpl.
    rewrite bool_decide_eq_false_2; [reflexivity|].
    intros ->. apply Hk'. apply list_elem_of_In.
    change k with (fst (k, v2)). now apply in_map.
  - rewrite bool_decide_eq_false_2 by exact Hne. simpl. now rewrite IH.
Qed.

Lemma NoDup_keys_filter (f : string * Session -> bool) m :
  NoDup (map fst m) -> NoDup (map fst (List.filter f m)).
Proof.
  induction m as [|e m IH]; simpl; intros H; [constructor|].
  apply NoDup_cons in H as [He Hm].
  destruct (f e); simpl; [|now apply IH].
  apply NoDup_cons. split; [|now apply IH].
  intros Hin. apply He. apply list_elem_of_In in Hin. apply list_elem_of_In.
  apply in_map_iff in Hin as (x & Hx & Hin). apply filter_In in Hin as [Hin _].
  apply in_map_iff. eauto.
Qed.

Lemma filter_filter {A} (f g : A -> bool) (l : list A) :
  List.filter f (List.filter g l) = List.filter (fun x => g x && f x) l.
Proof.
  induction l as [|a l IH]; simpl; [reflexivity|].
  destruct (g a); simpl; [destruct (f a); now rewrite IH | exact IH].
Qed.

Lemma keep_snoc seen k e :
  keep (seen ++ [k])%list e = keep seen e && negb (bool_decide (fst e = k)).
Proof.
  unfold keep.
  repeat case_bool_decide; simpl; try reflexivity; exfalso;
    match goal with
    | H : _ ∈ (_ ++ _)%list |- _ =>
        apply elem_of_app in H as [H|H];
        [|apply list_elem_of_singleton in H]; tauto
    | H : ¬ _ ∈ (_ ++ _)%list |- _ =>
        apply H, elem_of_app; first [left; assumption | right];
        apply list_elem_of_singleton; assumption
    end.
Qed.

(** The [forEach] over [previous]: what has been pushed, and the entries
    left in [incomingMap]. *)
Lemma mergeLoop previous : forall merged seen imap0,
  NoDup (map fst imap0) ->
  NoDup (seen ++ map id previous) ->
  fold_left mergeStep previous (merged, List.filter (keep seen) imap0)
  = ((merged ++ omap (reconcileIn imap0) previous)%list,
     List.filter (keep (seen ++ map id previous)) imap0).
Proof.
  induction previous as [|s rest IH]; intros merged seen imap0 Hmap Hseen; simpl.
  - now rewrite !app_nil_r.
  - assert (Hs : id s ∉ seen).
    { apply NoDup_app in Hseen as (_ & Hd & _). intros Hin.
      apply (Hd _ Hin). left. }
    assert (Hget : map_get (id s) (List.filter (keep seen) imap0)
                   = map_get (id s) imap0).
    { pose proof (map_get_filter (fun k => negb (bool_decide (k ∈ seen)))
                    (id s) imap0) as Hf.
      cbv beta in Hf. rewrite bool_decide_eq_false_2 in Hf by exact Hs.
      exact Hf. }
    assert (Hnext : NoDup ((seen ++ [id s]) ++ map id rest)).
    { now rewrite <- app_assoc. }
    assert (Hdel : List.filter (fun e => negb (bool_decide (fst e = id s)))
                     (List.filter (keep seen) imap0)
                   = List.filter (keep (seen ++ [id s])) imap0).
    { rewrite filter_filter. apply filter_ext. intros e.
      now rewrite keep_snoc. }
    rewrite Hget.
    replace (seen ++ id s :: map id rest)%list
      with ((seen ++ [id s]) ++ map id rest)%list by now rewrite <- app_assoc.
    destruct (map_get (id s) imap0) as [updated|] eqn:E.
    + assert (Hr : reconcileIn imap0 s = Some (spread s updated))
        by (unfold reconcileIn; now rewrite E).
      rewrite map_delete_filter by now apply NoDup_keys_filter.
      rewrite Hdel, (IH _ _ _ Hmap Hnext), Hr. now rewrite <- app_assoc.
    + assert (Hsame : List.filter (keep seen) imap0
                      = List.filter (keep (seen ++ [id s])) imap0).
      { rewrite <- Hdel. symmetry. apply filter_all. intros e He.
        apply filter_In in He as [He _].
        rewrite bool_decide_eq_false_2; [reflexivity|].
        intros Heq. apply (map_get_None _ _ E). rewrite <- Heq.
        apply list_elem_of_In. now apply in_map. }
      assert (Hr : reconcileIn imap0 s
                   = if isTemp s then Some s else None)
        by (unfold reconcileIn; now rewrite E).
      rewrite Hr. destruct (isTemp s).
      * rewrite Hsame, (IH _ _ _ Hmap Hnext). now rewrite <- app_assoc.
      * rewrite Hsame, (IH _ _ _ Hmap Hnext). reflexivity.
Qed.

Lemma snd_filter_entries (g : string -> bool) l :
  map snd (List.filter (fun e => g (fst e)) (entriesOf l))
  = List.filter (fun s => g (id s)) l.
Proof.
  induction l as [|s l IH]; simpl; [reflexivity|].
  destruct (g (id s)); simpl; now rewrite IH.
Qed.

Lemma keys_entries l : map fst (entriesOf l) = map id l.
Proof. unfold entriesOf. rewrite map_map. reflexivity. Qed.

(** With distinct ids on both sides the code computes the reconciliation
    the claim words. *)
Lemma mergeSessions_refines previous incoming :
  NoDup (map id previous) -> NoDup (map id incoming) ->
  mergeSessions previous incoming = mergeSessions_spec previous incoming.
Proof.
  intros Hprev Hinc. unfold mergeSessions, mergeSessions_spec.
  fold (entriesOf incoming).
  rewrite newMap_distinct by now rewrite keys_entries.
  pose proof (mergeLoop previous [] [] (entriesOf incoming)) as H.
  rewrite (filter_all (keep [])) in H.
  2:{ intros e _. unfold keep. rewrite bool_decide_eq_false_2; [reflexivity|].
      apply not_elem_of_nil. }
  rewrite H; [|now rewrite keys_entries | exact Hprev].
  simpl. f_equal.
  - apply list_omap_ext, Forall2_same_length_lookup_2; [reflexivity|].
    intros i x y Hx Hy. rewrite Hx in Hy. injection Hy as <-.
    unfold reconcileIn, reconcile. now rewrite map_get_entries.
  - exact (snd_filter_entries
             (fun k : string => negb (bool_decide (k ∈ map id previous)))
             incoming).
Qed.

Lemma findById_Some k l u : findById k l = Some u -> In u l /\ id u = k.
Proof.
  unfold findById. intros H. apply find_some in H as [Hin Hk].
  split; [exact Hin|]. now apply bool_decide_eq_true in Hk.
Qed.

Lemma findById_None k l : k ∉ map id l -> findById k l = None.
Proof.
  unfold findById. intros H.
  destruct (find _ l) as [u|] eqn:E; [|reflexivity].
  apply find_some in E as [Hin Hk]. apply bool_decide_eq_true in Hk.
  exfalso. apply H. rewrite <- Hk. apply list_elem_of_In. now apply in_map.
Qed.

(** C9 (amended). For lists whose ids are distinct, [mergeSessions]
    returns the previous sessions found in [incoming] merged with their
    counterpart (incoming properties win), the other previous sessions
    exactly when they are temporary, then the incoming sessions that have
    no previous counterpart; so a previous session that is neither in the
    snapshot nor temporary is not in the result. *)
Theorem mergeSessions_distinct previous incoming :
  NoDup (map id previous) -> NoDup (map id incoming) ->
  mergeSessions previous incoming = mergeSessions_spec previous incoming
  /\ (forall s,
         In s previous -> id s ∉ map id incoming -> isTemp s = false ->
         forall r, In r (mergeSessions previous incoming) -> id r <> id s).
Proof.
  intros Hprev Hinc. split; [now apply mergeSessions_refines|].
  intros s Hs Hmissing Htemp r Hr.
  rewrite (mergeSessions_refines _ _ Hprev Hinc) in Hr.
  unfold mergeSessions_spec in Hr. apply in_app_or in Hr as [Hr|Hr].
  - apply list_elem_of_In, list_elem_of_omap in Hr as (s' & Hs' & Hrec).
    apply list_elem_of_In in Hs'. intros Heq.
    unfold reconcile in Hrec.
    destruct (findById (id s') incoming) as [u|] eqn:E.
    + injection Hrec as <-. apply findById_Some in E as [Hu Hid].
      simpl in Heq. apply Hmissing. rewrite <- Heq.
      apply list_elem_of_In. now apply in_map.
    + destruct (isTemp s') eqn:Et; [|discriminate]. injection Hrec as <-.
      assert (s' = s); [|congruence].
      clear -Hprev Hs Hs' Heq.
      induction previous as [|a l IH]; [destruct Hs|].
      simpl in Hprev. apply NoDup_cons in Hprev as [Ha Hl].
      destruct Hs as [->|Hs], Hs' as [->|Hs']; auto.
      * exfalso. apply Ha. rewrite <- Heq. apply list_elem_of_In.
        now apply in_map.
      * exfalso. apply Ha. rewrite Heq. apply list_elem_of_In.
        now apply in_map.
  - apply filter_In in Hr as [_ Hr]. intros Heq.
    apply negb_true_iff, bool_decide_eq_false in Hr. apply Hr.
    rewrite Heq. apply list_elem_of_In. now apply in_map.
Qed.

(** *** Concrete lists *)

Definition chipOnline : Session :=
  mkSession "chip_1" {["status" := JStr "READY"; "displayOrder" := JInt 1]}.

Definition chipLoading : Session :=
  mkSession "chip_1" {["status" := JStr "LOADING"; "name" := JStr "Chip"]}.

Definition chipStale : Session :=
  mkSession "chip_1" {["status" := JStr "ERROR"]}.

Definition chipGone : Session :=
  mkSession "chip_2" {["status" := JStr "DISCONNECTED"]}.

Definition chipPending : Session :=
  mkSession "temp_1700000000000" {["status" := JStr "LOADING"]}.

Definition chipNew : Session :=
  mkSession "chip_3" {["status" := JStr "QR"]}.

(** C9, as stated, fails: two previous sessions share the id of an
    incoming one; only the first is merged, the second is dropped. *)
Lemma mergeSessions_duplicate_id :
  mergeSessions [chipLoading; chipStale] [chipOnline]
  = [spread chipLoading chipOnline]
  /\ mergeSessions_spec [chipLoading; chipStale] [chipOnline]
     = [spread chipLoading chipOnline; spread chipStale chipOnline]
  /\ mergeSessions [chipLoading; chipStale] [chipOnline]
     <> mergeSessions_spec [chipLoading; chipStale] [chipOnline].
Proof.
  assert (H1 : mergeSessions [chipLoading; chipStale] [chipOnline]
               = [spread chipLoading chipOnline])
    by (vm_compute; reflexivity).
  assert (H2 : mergeSessions_spec [chipLoading; chipStale] [chipOnline]
               = [spread chipLoading chipOnline; spread chipStale chipOnline])
    by (vm_compute; reflexivity).
  split; [exact H1|]. split; [exact H2|]. rewrite H1, H2. discriminate.
Qed.

Lemma mergeSessions_distinct_witness :
  mergeSessions [chipLoading; chipGone; chipPending] [chipOnline; chipNew]
  = mergeSessions_spec [chipLoading; chipGone; chipPending]
      [chipOnline; chipNew]
  /\ forall r,
       In r (mergeSessions [chipLoading; chipGone; chipPending]
               [chipOnline; chipNew]) ->
       id r <> "chip_2".
Proof.
  destruct (mergeSessions_distinct [chipLoading; chipGone; chipPending]
              [chipOnline; chipNew])
    as [Heq Hdrop].
  - apply (bool_decide_unpack _). vm_compute. exact I.
  - apply (bool_decide_unpack _). vm_compute. exact I.
  - split; [exact Heq|].
    apply (Hdrop chipGone); [right; left; reflexivity | | reflexivity].
    apply (bool_decide_unpack _). vm_compute. exact I.
Defined.

(** The reconciliation of the lists above. *)
Example mergeSessions_example :
  mergeSessions [chipLoading; chipGone; chipPending] [chipOnline; chipNew]
  = [mkSession "chip_1"
       {["status" := JStr "READY"; "displayOrder" := JInt 1;
         "name" := JStr "Chip"]};
     chipPending; chipNew].
Proof. vm_compute. reflexivity. Qed.

End SessionsFacts.

(** ** The start route *)

Module ApiServerFacts.
Import CampaignManager CampaignManagerFacts ApiServer.

(** [hasActiveCampaign] in the words of its comments: a campaign id is on
    record and either rows are left to process, or the state has no total
    and a pending queue. *)
Lemma hasActiveCampaign_iff (w : World) :
  hasActiveCampaign w = true <->
  exists id,
    recordedId (default (loadState w) (currentState w)) = Some id
    /\ ((default 0 (totalContacts (default (loadState w) (currentState w)))
         = 0
         /\ pendingRows (default (loadState w) (currentState w)) <> [])
        \/ (0 < default 0
                  (totalContacts (default (loadState w) (currentState w)))
            /\ List.length
                 (processedRows (default (loadState w) (currentState w)))
               < default 0
                   (totalContacts
                      (default (loadState w) (currentState w))))).
Proof.
  unfold hasActiveCampaign.
  set (state := default (loadState w) (currentState w)).
  destruct (recordedId state) as [id|]; [|split; [discriminate|]].
  - set (total := default 0 (totalContacts state)).
    destruct (Nat.eqb_spec total 0) as [E|E]; simpl.
    + destruct (pendingRows state) as [|r rows] eqn:Ep; simpl.
      * rewrite E. simpl. split; [discriminate|].
        intros (_ & _ & [[_ H]|[H _]]); [congruence | lia].
      * split; [|reflexivity]. intros _. exists id. split; [reflexivity|].
        left. split; [exact E | discriminate].
    + destruct (Nat.ltb_spec 0 total) as [Hpos|Hpos]; [|lia]. simpl.
      destruct (Nat.ltb_spec (List.length (processedRows state)) total)
        as [Hlt|Hge].
      * split; [|reflexivity]. intros _. exists id. split; [reflexivity|].
        right. split; assumption.
      * split; [discriminate|].
        intros (_ & _ & [[H _]|[_ H]]); [congruence | lia].
  - intros (id & H & _). discriminate.
Qed.

Section Facts.

Variable spintaxParse : string -> string.
Variable createContactId : Z -> string.
Variable buildCorrelationId : string -> string -> option string -> string.
Variable formatCorrelationTag : string -> string.

Local Abbreviation postCampaignStart :=
  (postCampaignStart spintaxParse createContactId buildCorrelationId
                     formatCorrelationTag).

(** C4. While [hasActiveCampaign()] holds, a start request is answered
    with an error and nothing of the manager or of its files changes:
    the persisted campaign state is the one it was. *)
Theorem start_rejected_while_active req env w :
  hasActiveCampaign w = true ->
  fst (postCampaignStart req env w) = w
  /\ (exists error, snd (postCampaignStart req env w) = Status500 error)
  /\ stateFile (fst (postCampaignStart req env w)) = stateFile w
  /\ currentState (fst (postCampaignStart req env w)) = currentState w.
Proof.
  intros Hactive. unfold ApiServer.postCampaignStart.
  destruct (req_file req) as [upload|]; [rewrite Hactive|]; simpl; eauto.
Qed.

(** With no campaign active and a file uploaded, the request is accepted
    under a new campaign id. *)
Lemma start_accepted_when_idle req env w upload :
  hasActiveCampaign w = false ->
  req_file req = Some upload ->
  snd (postCampaignStart req env w) = Started (api_newCampaignId env).
Proof.
  intros Hidle Hfile. unfold ApiServer.postCampaignStart.
  rewrite Hfile, Hidle. reflexivity.
Qed.

End Facts.

(** The world in which camp_A has been loaded by the manager. *)
Definition worldRunningA : World :=
  mkWorld (Doc campaignA) Absent (Some campaignA) false [] [].

Definition uploadB : StartRequest :=
  mkStartRequest (Some (mkUploadedFile "uploads/b" "b.xlsx")) "Oi [nome]"
    (Some 5%Z) (Some 9%Z).

Definition apiEnvB : ApiEnv := mkApiEnv "camp_B" (Returned tt) rejectedRun.

Lemma start_rejected_while_active_witness :
  fst (postCampaignStart (fun s => s) contactIdOf correlationOf tagOf uploadB
         apiEnvB worldRunningA) = worldRunningA
  /\ snd (postCampaignStart (fun s => s) contactIdOf correlationOf tagOf
            uploadB apiEnvB worldRunningA)
     = Status500 activeCampaignError.
Proof.
  destruct (start_rejected_while_active (fun s => s) contactIdOf
              correlationOf tagOf uploadB apiEnvB worldRunningA eq_refl)
    as (Hw & _ & _ & _).
  split; [exact Hw | reflexivity].
Defined.

(** The guard is the route's: [startCampaign] itself, called under a new
    id while camp_A is active, supersedes it. *)
Example startCampaign_unguarded :
  hasActiveCampaign worldA = true
  /\ exists state,
       recorded state (fst (runSam rejectedRun worldA))
       /\ campaignId state = Some "camp_B"
       /\ processedRows state = [2%Z].
Proof.
  split; [reflexivity|].
  eexists. split; [split; vm_compute; reflexivity|]. split; reflexivity.
Qed.

End ApiServerFacts.

(** * Further properties of the code *)

(** ** The dispatcher: failures and the order of calls *)

Module DispatcherEdges.
Import TemplateEngine Dispatcher DispatcherFacts.

(** The calls of a send, after the readiness wait: the typing sleep and
    the send, then possibly the delivery wait, then possibly the
    cooldown. *)
Inductive sendCalls (chip phone text : string) (correlation : Correlation)
          (typingTime postSendDelay : Z) : list effect -> Prop :=
| calls_sent tail :
    tail = [] \/
    (exists msgId, tail = [CallWaitForDelivery chip msgId 20000]) \/
    tail = [CallEnterCooldown chip postSendDelay "post_send_delay"] \/
    (exists msgId,
        tail = [CallWaitForDelivery chip msgId 20000;
                CallEnterCooldown chip postSendDelay "post_send_delay"]) ->
    sendCalls chip phone text correlation typingTime postSendDelay
      (Sleep typingTime :: CallSendMessage chip phone text correlation
         :: tail).

(** The readiness wait [dispatch] makes on an account: one call when the
    account has the capability, none otherwise. *)
Definition readinessCalls (client : Client) : list effect :=
  match c_waitUntilReady client with
  | Some _ => [CallWaitUntilReady (c_id client) 30000]
  | None => []
  end.

(** An account that accepts a send without giving it a provider id. *)
Definition anonymousClient : Client :=
  mkClient "chip_1" None
    (fun _ _ _ => Returned (Some (mkSendResult None (Some "jid1"))))
    (fun _ _ => Threw "unexpected")
    true.

(** An account that accepts nothing. *)
Definition rejectingClient : Client :=
  mkClient "chip_1" None
    (fun _ _ _ => Threw "Invalid phone number")
    (fun _ _ => Returned tt)
    true.

Section Facts.

Variable spintaxParse : string -> string.

Ltac cases :=
  unfold dispatch, perform, attempt, ret, throw;
  repeat first
    [ progress cbn [bind fst snd app negb]
    | match goal with
      | |- context [match getNextClient ?e with _ => _ end] =>
          destruct (getNextClient e) as [?client|] eqn:?
      | |- context [match c_waitUntilReady ?c with _ => _ end] =>
          destruct (c_waitUntilReady c) as [?waitUntilReady|] eqn:?
      | |- context [if negb (p_dryRun ?p) then _ else _] =>
          destruct (p_dryRun p) eqn:?
      | |- context [if c_enterCooldown ?c then _ else _] =>
          destruct (c_enterCooldown c) eqn:?
      | |- context [match truthyId ?o with _ => _ end] =>
          destruct (truthyId o) as [?msgId|] eqn:?
      | |- context [match ?f ?a ?b ?c with Returned _ => _ | Threw _ => _ end] =>
          destruct (f a b c) as [?|?] eqn:?
      | |- context [match ?f ?a ?b with Returned _ => _ | Threw _ => _ end] =>
          destruct (f a b) as [?|?] eqn:?
      | |- context [match ?f ?a with Returned _ => _ | Threw _ => _ end] =>
          destruct (f a) as [?|?] eqn:?
      end ].

Ltac ready_client Hclient Hready :=
  unfold dispatch; rewrite Hclient;
  unfold becomesReady in Hready;
  destruct (c_waitUntilReady _) as [waitUntilReady|];
  [unfold perform at 1; rewrite Hready|]; cbn [bind ret fst snd app].

Lemma truthyId_truthy (o : option string) (s : string) :
  truthyId o = Some s -> truthy s = true.
Proof.
  unfold truthyId. destruct o as [x|]; [|discriminate].
  destruct (truthy x) eqn:E; [|discriminate]. now intros [= <-].
Qed.

(** X1. An error of [sendMessage] reaches the caller as it is; the delivery
    wait and the cooldown are not called. *)
Theorem dispatch_send_failure env p client message :
  p_dryRun p = false ->
  getNextClient env = Some client ->
  becomesReady client ->
  c_sendMessage client (p_phone p)
    (applyTemplate spintaxParse (p_messageTemplate p) (p_variables p))
    (p_correlation p) = Threw message ->
  snd (dispatch spintaxParse env p) = Threw message
  /\ exists waited,
       (waited = [] \/ waited = [CallWaitUntilReady (c_id client) 30000])
       /\ fst (dispatch spintaxParse env p)
          = (waited
             ++ [Sleep (getTypingDelay env (p_delayConfig p)
                          (applyTemplate spintaxParse (p_messageTemplate p)
                             (p_variables p)));
                 CallSendMessage (c_id client) (p_phone p)
                   (applyTemplate spintaxParse (p_messageTemplate p)
                      (p_variables p))
                   (p_correlation p)])%list.
Proof.
  intros Hdry Hclient Hready Hsend.
  ready_client Hclient Hready; rewrite Hdry; cbn [negb];
    unfold perform; cbn [bind ret fst snd app]; rewrite Hsend; cbn.
  - split; [reflexivity|]. eexists. split; [right; reflexivity|reflexivity].
  - split; [reflexivity|]. exists []. split; [now left|reflexivity].
Qed.

(** X2. The calls of a [dispatch] come in one order.  With no account
    selected there is none.  Otherwise the readiness wait is called
    exactly when the account has one; nothing follows it in a dry run or
    when the wait fails; else the typing sleep and one send follow, with
    the computed typing time and the rendered message, then at most one
    delivery wait and at most one cooldown with the post-send delay. *)
Theorem dispatch_call_order env p :
  match getNextClient env with
  | None => fst (dispatch spintaxParse env p) = []
  | Some client =>
      exists rest,
        fst (dispatch spintaxParse env p)
        = (readinessCalls client ++ rest)%list
        /\ (p_dryRun p = true \/ ~ becomesReady client -> rest = [])
        /\ (p_dryRun p = false -> becomesReady client ->
            sendCalls (c_id client) (p_phone p)
              (applyTemplate spintaxParse (p_messageTemplate p)
                 (p_variables p))
              (p_correlation p)
              (getTypingDelay env (p_delayConfig p)
                 (applyTemplate spintaxParse (p_messageTemplate p)
                    (p_variables p)))
              (getVariableDelay env (p_delayConfig p)) rest)
  end.
Proof.
  unfold readinessCalls, becomesReady. cases;
    lazymatch goal with
    | |- [] = [] => reflexivity
    | |- exists rest, (CallWaitUntilReady ?c ?t :: ?tl) = _ /\ _ =>
        exists tl
    | |- exists rest, ?tl = _ /\ _ => exists tl
    end.
  all: repeat match goal with a : unit |- _ => destruct a end.
  all: split; [reflexivity|].
  all: split;
    [ intros [H|H];
      first [ discriminate H | reflexivity
            | exfalso; apply H; first [reflexivity | exact I] ]
    | intros Hd Hr;
      first [ discriminate Hd | discriminate Hr
            | apply calls_sent; eauto 8 ] ].
Qed.

(** X3. What a returned result holds: the status is DELIVERED or SENT, the
    chip is the selected account, the message is the rendered template,
    both delays are reported, and a SENT result carries the provider id. *)
Theorem dispatch_result env p r :
  snd (dispatch spintaxParse env p) = Returned r ->
  (status r = DELIVERED \/ status r = SENT)
  /\ (exists client, getNextClient env = Some client /\ chip r = c_id client)
  /\ message r
     = applyTemplate spintaxParse (p_messageTemplate p) (p_variables p)
  /\ clientMessageId r = cor_clientMessageId (p_correlation p)
  /\ delays r
     = Some (mkDelays
               (getTypingDelay env (p_delayConfig p)
                  (applyTemplate spintaxParse (p_messageTemplate p)
                     (p_variables p)))
               (getVariableDelay env (p_delayConfig p)))
  /\ (status r = SENT ->
      exists msgId, messageId r = Some msgId /\ truthy msgId = true).
Proof.
  cases; intros [= <-]; cbn; repeat split; eauto; try discriminate.
  all: intros _; exists msgId; split; [reflexivity|].
  all: eapply truthyId_truthy; eassumption.
Qed.

(** X4. A send the provider accepts without a message id is reported
    DELIVERED at once: no delivery confirmation is waited for. *)
Theorem dispatch_without_provider_id env p client sendResult :
  p_dryRun p = false ->
  getNextClient env = Some client ->
  becomesReady client ->
  c_sendMessage client (p_phone p)
    (applyTemplate spintaxParse (p_messageTemplate p) (p_variables p))
    (p_correlation p) = Returned sendResult ->
  truthyId (sendResult ≫= sr_messageId) = None ->
  (exists r,
      snd (dispatch spintaxParse env p) = Returned r
      /\ status r = DELIVERED
      /\ messageId r = sendResult ≫= sr_messageId)
  /\ forall chip msgId timeoutMs,
       ~ In (CallWaitForDelivery chip msgId timeoutMs)
            (fst (dispatch spintaxParse env p)).
Proof.
  intros Hdry Hclient Hready Hsend Hid.
  ready_client Hclient Hready; rewrite Hdry; cbn [negb];
    unfold perform; cbn [bind ret fst snd app]; rewrite Hsend;
    cbn [bind ret fst snd app]; rewrite Hid;
    destruct (c_enterCooldown client); cbn;
    (split; [eexists; repeat split|]);
    intros chip msgId timeoutMs H;
    repeat destruct H as [H|H]; try discriminate; destruct H.
Qed.

End Facts.

Lemma dispatch_send_failure_witness :
  snd (dispatch (fun s => s) (fixedDelays rejectingClient)
         (samplePayload false))
  = Threw "Invalid phone number"
  /\ fst (dispatch (fun s => s) (fixedDelays rejectingClient)
            (samplePayload false))
     = [Sleep 1200;
        CallSendMessage "chip_1" "5511999990000" "Oi Sam"
          (p_correlation (samplePayload false))].
Proof.
  destruct (dispatch_send_failure (fun s => s) (fixedDelays rejectingClient)
              (samplePayload false) rejectingClient "Invalid phone number"
              eq_refl eq_refl I eq_refl)
    as (Hthrow & waited & _ & _).
  split; [exact Hthrow | vm_compute; reflexivity].
Defined.

Lemma dispatch_result_witness :
  exists r,
    snd (dispatch (fun s => s) (fixedDelays promptClient)
           (samplePayload false)) = Returned r
    /\ (status r = DELIVERED \/ status r = SENT)
    /\ message r = "Oi Sam"
    /\ delays r = Some (mkDelays 1200 5000).
Proof.
  eexists. split; [vm_compute; reflexivity|].
  destruct (dispatch_result (fun s => s) (fixedDelays promptClient)
              (samplePayload false) _ eq_refl)
    as (Hs & _ & Hm & _ & Hd & _).
  split; [exact Hs|]. split; [exact Hm | exact Hd].
Defined.

Lemma dispatch_without_provider_id_witness :
  exists r,
    snd (dispatch (fun s => s) (fixedDelays anonymousClient)
           (samplePayload false)) = Returned r
    /\ status r = DELIVERED /\ messageId r = None.
Proof.
  destruct (dispatch_without_provider_id (fun s => s)
              (fixedDelays anonymousClient) (samplePayload false)
              anonymousClient (Some (mkSendResult None (Some "jid1")))
              eq_refl eq_refl I eq_refl eq_refl)
    as [Hr _].
  exact Hr.
Defined.

End DispatcherEdges.

(** ** The template engine: unknown names, contact fields, key normalization *)

Module TemplateEngineEdges.
Import TemplateEngine TemplateEngineFacts CampaignManager.

Lemma span_append p s run rest :
  span p s = (run, rest) -> s = run +:+ rest.
Proof.
  revert run rest. induction s as [|c s IH]; intros run rest; simpl.
  - now intros [= <- <-].
  - destruct (p c).
    + destruct (span p s) as [r1 r2] eqn:E. intros [= <- <-].
      rewrite append_cons. f_equal. now apply IH.
    + now intros [= <- <-].
Qed.

Lemma matchDelimited_text o c p s key rest :
  matchDelimited o c p s = Some (key, rest) ->
  s = String o (key +:+ String c rest).
Proof.
  destruct s as [|a s]; simpl; [discriminate|].
  destruct (Ascii.eqb_spec a o) as [->|]; [|discriminate].
  destruct (span p s) as [run tl] eqn:E.
  destruct run as [|k run]; [discriminate|].
  destruct tl as [|c' tl]; [discriminate|].
  destruct (Ascii.eqb_spec c' c) as [->|]; [|discriminate].
  intros [= <- <-]. f_equal. now apply span_append in E.
Qed.

(** A match is a piece of the template: the matched text followed by the
    rest is the text matched against. *)
Lemma matchAt_text s ph :
  matchAt s = Some ph -> s = ph_match ph +:+ ph_rest ph.
Proof.
  unfold matchAt.
  destruct (matchDelimited "{" "}" braceKeyChar s) as [[k r]|] eqn:E1.
  - intros [= <-]. simpl. apply matchDelimited_text in E1.
    rewrite E1, !append_cons, append_assoc, append_cons, append_nil.
    reflexivity.
  - destruct (matchDelimited "[" "]" bracketKeyChar s) as [[k r]|] eqn:E2;
      [|discriminate].
    intros [= <-]. simpl. apply matchDelimited_text in E2.
    rewrite E2, !append_cons, append_assoc, append_cons, append_nil.
    reflexivity.
Qed.

Lemma replace_unknown normalized :
  (forall nk, normalized !! nk = None) ->
  forall n s, String.length s <= n -> replacePlaceholders normalized s = s.
Proof.
  intros Hnone. induction n as [|n IH]; intros s Hlen.
  - destruct s; [reflexivity | simpl in Hlen; lia].
  - destruct s as [|c s]; [reflexivity|].
    rewrite replacePlaceholders_cons.
    destruct (matchAt (String c s)) as [ph|] eqn:E.
    + unfold replacer. rewrite Hnone.
      pose proof (matchAt_shorter _ _ E) as Hshort.
      rewrite IH by (simpl in Hlen, Hshort; lia).
      symmetry. now apply matchAt_text.
    + f_equal. apply IH. simpl in Hlen. lia.
Qed.

(** X5. When the variables supply no name at all (none given, or only empty
    keys), the replace pass returns the template as it is. *)
Theorem withVariables_no_names template variables :
  normalizeVariables variables = ∅ ->
  withVariables template variables = template.
Proof.
  intros H. unfold withVariables. rewrite H.
  apply (replace_unknown ∅ (fun nk => lookup_empty nk)
           (String.length template)).
  lia.
Qed.

Lemma withVariables_no_names_witness :
  withVariables "Oi [nome], {a|b} {x}" [("", JStr "Sam")]
  = "Oi [nome], {a|b} {x}".
Proof.
  exact (withVariables_no_names "Oi [nome], {a|b} {x}" [("", JStr "Sam")]
           eq_refl).
Defined.





Lemma lowerChar_idem c : lowerChar (lowerChar c) = lowerChar c.
Proof. destruct c as [[] [] [] [] [] [] [] []]; reflexivity. Qed.

Lemma isWhiteSpace_lowerChar c : isWhiteSpace (lowerChar c) = isWhiteSpace c.
Proof. destruct c as [[] [] [] [] [] [] [] []]; reflexivity. Qed.

Lemma toLowerCase_idem s : toLowerCase (toLowerCase s) = toLowerCase s.
Proof.
  induction s as [|c s IH]; simpl; [reflexivity|].
  now rewrite lowerChar_idem, IH.
Qed.

Lemma trimStart_toLowerCase s :
  trimStart (toLowerCase s) = toLowerCase (trimStart s).
Proof.
  induction s as [|c s IH]; simpl; [reflexivity|].
  rewrite isWhiteSpace_lowerChar. now destruct (isWhiteSpace c).
Qed.

Lemma trimEnd_toLowerCase s :
  trimEnd (toLowerCase s) = toLowerCase (trimEnd s).
Proof.
  induction s as [|c s IH]; simpl; [reflexivity|].
  rewrite IH, isWhiteSpace_lowerChar.
  destruct (trimEnd s) as [|d t]; simpl; [now destruct (isWhiteSpace c)|].
  reflexivity.
Qed.

Lemma trimEnd_idem s : trimEnd (trimEnd s) = trimEnd s.
Proof.
  induction s as [|c s IH]; simpl; [reflexivity|].
  destruct (trimEnd s) as [|d t] eqn:E.
  - destruct (isWhiteSpace c) eqn:Ec; simpl; [reflexivity | now rewrite Ec].
  - change (trimEnd (String c (String d t)))
      with (match trimEnd (String d t) with
            | "" => if isWhiteSpace c then "" else String c ""
            | String a b => String c (String a b)
            end).
    now rewrite IH.
Qed.

Lemma trimStart_trimmed s :
  match s with
  | String c _ => isWhiteSpace c = false
  | "" => True
  end -> trimStart s = s.
Proof. destruct s as [|c s]; simpl; [reflexivity|]. now intros ->. Qed.

Lemma trimStart_head s :
  match trimStart s with
  | String c _ => isWhiteSpace c = false
  | "" => True
  end.
Proof.
  induction s as [|c s IH]; simpl; [exact I|].
  destruct (isWhiteSpace c) eqn:E; [exact IH | exact E].
Qed.

Lemma trimEnd_head s :
  match s with
  | String c _ => isWhiteSpace c = false
  | "" => True
  end ->
  match trimEnd s with
  | String c _ => isWhiteSpace c = false
  | "" => True
  end.
Proof.
  destruct s as [|c s]; simpl; [auto|]. intros Hc.
  destruct (trimEnd s); [now rewrite Hc | exact Hc].
Qed.

Lemma trim_idem s : trim (trim s) = trim s.
Proof.
  unfold trim.
  rewrite (trimStart_trimmed (trimEnd (trimStart s))).
  - apply trimEnd_idem.
  - apply trimEnd_head, trimStart_head.
Qed.

Lemma trim_toLowerCase s : trim (toLowerCase s) = toLowerCase (trim s).
Proof. unfold trim. now rewrite trimStart_toLowerCase, trimEnd_toLowerCase. Qed.

(** X7. Normalizing a name twice is normalizing it once, and neither the case
    nor the surrounding whitespace of a name matters to its normal form:
    a variable and a placeholder meet whenever their names differ only in
    these. *)
Theorem normalizeKey_stable key :
  normalizeKey (normalizeKey key) = normalizeKey key
  /\ normalizeKey (toLowerCase key) = normalizeKey key
  /\ normalizeKey (trim key) = normalizeKey key.
Proof.
  unfold normalizeKey. repeat split.
  - now rewrite trim_toLowerCase, trim_idem, toLowerCase_idem.
  - now rewrite trim_toLowerCase, toLowerCase_idem.
  - now rewrite trim_idem.
Qed.

End TemplateEngineEdges.

(** ** Campaign runs: pauses, aborted starts, repeated starts *)

Module CampaignRuns.
Import TemplateEngine Dispatcher DispatcherFacts CampaignManager
       CampaignManagerFacts.

Section Facts.

Variable spintaxParse : string -> string.
Variable createContactId : Z -> string.
Variable buildCorrelationId : string -> string -> option string -> string.
Variable formatCorrelationTag : string -> string.

Local Abbreviation processContact :=
  (processContact spintaxParse createContactId buildCorrelationId
                  formatCorrelationTag).
Local Abbreviation processLoop :=
  (processLoop spintaxParse createContactId buildCorrelationId
               formatCorrelationTag).
Local Abbreviation startCampaign :=
  (startCampaign spintaxParse createContactId buildCorrelationId
                 formatCorrelationTag).
Local Abbreviation contactPayload :=
  (contactPayload createContactId buildCorrelationId).
Local Abbreviation failuresFrom :=
  (failuresFrom spintaxParse createContactId buildCorrelationId).
Local Abbreviation processContact_rows :=
  (processContact_rows spintaxParse createContactId buildCorrelationId
                       formatCorrelationTag).

(** The loop handles a prefix of [toProcess]: all of it, or the contacts
    before the turn at which it found the pause flag set. *)
Lemma processLoop_prefix campaign messageTemplate delayConfig n env :
  forall toProcess i state w,
    recorded state w ->
    exists k,
      k <= List.length toProcess
      /\ processedRows
           (fst (processLoop campaign messageTemplate delayConfig n env i
                   toProcess state w))
         = (processedRows state ++ map row (take k toProcess))%list
      /\ failedRows
           (fst (processLoop campaign messageTemplate delayConfig n env i
                   toProcess state w))
         = (failedRows state
            ++ failuresFrom campaign messageTemplate delayConfig env i
                 (take k toProcess))%list
      /\ recorded
           (fst (processLoop campaign messageTemplate delayConfig n env i
                   toProcess state w))
           (snd (processLoop campaign messageTemplate delayConfig n env i
                   toProcess state w))
      /\ (k < List.length toProcess ->
          isPaused
            (snd (processLoop campaign messageTemplate delayConfig n env i
                    toProcess state w)) = true).
Proof.
  induction toProcess as [|contact rest IH]; intros i state w Hrec; simpl.
  - exists 0. simpl. rewrite !app_nil_r.
    repeat split; try apply Hrec; try reflexivity; intros; simpl in *; lia.
  - destruct (isPaused w || pauseRequested (env i)) eqn:Ep; simpl.
    + exists 0. simpl. rewrite !app_nil_r.
      repeat split; try apply Hrec; try reflexivity; lia.
    + pose proof (processContact_rows campaign messageTemplate delayConfig n
                    i (env i) contact state w) as (Hp & Hf & Hr & Hq).
      destruct (processContact campaign messageTemplate delayConfig n i
                  (env i) contact state w) as [state1 w1].
      simpl in Hp, Hf, Hr, Hq.
      destruct (IH (S i) state1 w1 Hr) as (k & Hk & Hp' & Hf' & Hr' & Hq').
      exists (S k). simpl. rewrite Hp', Hf', Hp, Hf.
      unfold stepOutcome. rewrite <- !app_assoc. simpl.
      repeat split; try apply Hr'; try reflexivity; try lia.
      intros Hlt. apply Hq'. lia.
Qed.

(** The loop stops at the first turn that finds the pause flag set; the
    contacts before that turn have been handled, the others not. *)
Lemma processLoop_paused campaign messageTemplate delayConfig n env :
  forall k toProcess i state w,
    isPaused w = false ->
    recorded state w ->
    (forall j, j < k -> pauseRequested (env (i + j)) = false) ->
    pauseRequested (env (i + k)) = true ->
    k < List.length toProcess ->
    processedRows
      (fst (processLoop campaign messageTemplate delayConfig n env i
              toProcess state w))
    = (processedRows state ++ map row (take k toProcess))%list
    /\ failedRows
         (fst (processLoop campaign messageTemplate delayConfig n env i
                 toProcess state w))
       = (failedRows state
          ++ failuresFrom campaign messageTemplate delayConfig env i
               (take k toProcess))%list
    /\ isPaused
         (snd (processLoop campaign messageTemplate delayConfig n env i
                 toProcess state w)) = true
    /\ recorded
         (fst (processLoop campaign messageTemplate delayConfig n env i
                 toProcess state w))
         (snd (processLoop campaign messageTemplate delayConfig n env i
                 toProcess state w)).
Proof.
  induction k as [|k IH]; intros toProcess i state w Hw Hrec Hrun Hpause Hlen.
  - destruct toProcess as [|c rest]; [simpl in Hlen; lia|]. simpl.
    rewrite Nat.add_0_r in Hpause. rewrite Hw, Hpause. simpl.
    rewrite !app_nil_r. repeat split; try apply Hrec; reflexivity.
  - destruct toProcess as [|c rest]; [simpl in Hlen; lia|]. simpl.
    assert (Hi : pauseRequested (env i) = false).
    { rewrite <- (Nat.add_0_r i). apply Hrun. lia. }
    rewrite Hw, Hi. simpl.
    pose proof (processContact_rows campaign messageTemplate delayConfig n
                  i (env i) c state w) as (Hp & Hf & Hr & Hq).
    destruct (processContact campaign messageTemplate delayConfig n i
                (env i) c state w) as [state1 w1].
    simpl in Hp, Hf, Hr, Hq.
    destruct (IH rest (S i) state1 w1) as (Hp' & Hf' & Hq' & Hr').
    + congruence.
    + exact Hr.
    + intros j Hj. replace (S i + j) with (i + S j) by lia. apply Hrun. lia.
    + replace (S i + k) with (i + S k) by lia. exact Hpause.
    + simpl in Hlen. lia.
    + rewrite Hp', Hf', Hp, Hf. unfold stepOutcome.
      rewrite <- !app_assoc. simpl. repeat split; try apply Hr'; auto.
Qed.

(** The start of a run whose source parses, up to the loop. *)
Lemma startCampaign_parsed excelPath messageTemplate originalFilename options
      env w contacts :
  parse env excelPath originalFilename = Returned contacts ->
  startCampaign excelPath messageTemplate originalFilename options env w
  = (let state0 :=
       startingState excelPath messageTemplate originalFilename options env w
     in
     let state1 := setTotalContacts (List.length contacts) state0 in
     let toProcess := unprocessed state0 contacts in
     let w1 :=
       _emitEvent
         (campaign_started (chooseCampaignId options env)
            (List.length contacts) (List.length toProcess))
         (saveState state1 (setCurrentState state1 (setCurrentState state0 w)))
     in
     match (if (0 <? List.length toProcess)%nat then waitForReady env
            else Returned tt) with
     | Threw message =>
         (_emitEvent
            (log "[ERROR] Cancelado: Nenhuma conexao ativa encontrada em 2 minutos.")
            w1,
          Returned (mkStartReturn (chooseCampaignId options env)
                      (Some message)))
     | Returned _ =>
         (_emitEvent
            (campaign_finished (chooseCampaignId options env)
               (List.length
                  (processedRows
                     (fst (processLoop (chooseCampaignId options env)
                             messageTemplate (delayConfigOf options)
                             (List.length toProcess) (steps env) 0 toProcess
                             state1 (setPaused false w1)))))
               (List.length
                  (failedRows
                     (fst (processLoop (chooseCampaignId options env)
                             messageTemplate (delayConfigOf options)
                             (List.length toProcess) (steps env) 0 toProcess
                             state1 (setPaused false w1))))))
            (snd (processLoop (chooseCampaignId options env) messageTemplate
                    (delayConfigOf options) (List.length toProcess)
                    (steps env) 0 toProcess state1 (setPaused false w1))),
          Returned (mkStartReturn (chooseCampaignId options env) None))
     end).
Proof.
  intros Hparse. unfold CampaignManager.startCampaign, startingState.
  rewrite Hparse. cbv zeta.
  change (unprocessed (setTotalContacts (List.length contacts) ?s) contacts)
    with (unprocessed s contacts).
  destruct (if (0 <? _)%nat then waitForReady env else Returned tt);
    [|reflexivity].
  destruct (processLoop _ _ _ _ _ _ _ _ _). reflexivity.
Qed.

(** A fresh campaign that is paused after [k] of its [n] contacts is still
    the active campaign. *)
Lemma paused_run_active excelPath messageTemplate originalFilename
        options env w contacts k :
  parse env excelPath originalFilename = Returned contacts ->
  waitForReady env = Returned tt ->
  (forall j, j < k -> pauseRequested (steps env j) = false) ->
  pauseRequested (steps env k) = true ->
  k < List.length contacts ->
  processedRows
    (startingState excelPath messageTemplate originalFilename options env w)
  = [] ->
  truthy (chooseCampaignId options env) = true ->
  hasActiveCampaign
    (fst (startCampaign excelPath messageTemplate originalFilename options
            env w)) = true.
Proof.
  intros Hparse Hready Hrun Hpause Hk Hblank Hid.
  rewrite (startCampaign_parsed _ _ _ _ _ _ _ Hparse). cbv zeta.
  set (state0 := startingState _ _ _ _ _ _) in *.
  assert (Hid0 : campaignId state0 = Some (chooseCampaignId options env))
    by reflexivity.
  clearbody state0.
  rewrite (unprocessed_blank state0 contacts Hblank).
  rewrite Hready.
  replace (if (0 <? List.length contacts)%nat then Returned tt
           else Returned tt) with (@Returned unit tt)
    by now destruct (0 <? List.length contacts)%nat.
  set (state1 := setTotalContacts (List.length contacts) state0).
  set (w1 := setPaused false _).
  destruct (processLoop_paused (chooseCampaignId options env) messageTemplate
              (delayConfigOf options) (List.length contacts) (steps env)
              k contacts 0 state1 w1 eq_refl (conj eq_refl eq_refl))
    as (Hp & _ & _ & Hr); auto.
  pose proof (processLoop_recorded spintaxParse createContactId
                buildCorrelationId formatCorrelationTag
                (chooseCampaignId options env) messageTemplate
                (delayConfigOf options) (List.length contacts) (steps env)
                contacts 0 state1 w1 (conj eq_refl eq_refl))
    as (_ & Hc & Ht).
  destruct (processLoop _ _ _ _ _ _ _ _ _) as [state' w'].
  simpl in Hp, Hr, Hc, Ht |- *. destruct Hr as [Hcur _].
  unfold hasActiveCampaign. simpl. rewrite Hcur. simpl.
  unfold recordedId. rewrite Hc, Hid0. simpl. rewrite Hid, Ht. simpl.
  rewrite Hp, Hblank. simpl. rewrite length_map, length_take.
  clearbody w1.
  destruct (Nat.eqb_spec (List.length contacts) 0) as [E|_]; [lia|].
  destruct (Nat.ltb_spec 0 (List.length contacts)) as [_|E]; [|lia].
  destruct (Nat.ltb_spec (k `min` List.length contacts)
              (List.length contacts)) as [_|E]; [|lia].
  reflexivity.
Qed.

(** X8. A pause requested before turn [k] stops the run there: the first [k]
    unprocessed contacts have been handled and saved, the manager is
    paused, and [startCampaign] returns without an error, its last event
    being [campaign_finished] with the counts reached.  A campaign that
    started with nothing processed is then still the active campaign. *)
Theorem run_stops_at_pause excelPath messageTemplate originalFilename options
        env w contacts k :
  parse env excelPath originalFilename = Returned contacts ->
  waitForReady env = Returned tt ->
  (forall j, j < k -> pauseRequested (steps env j) = false) ->
  pauseRequested (steps env k) = true ->
  k < List.length
        (unprocessed
           (startingState excelPath messageTemplate originalFilename options
              env w) contacts) ->
  (exists state',
       recorded state'
         (fst (startCampaign excelPath messageTemplate originalFilename options
                 env w))
       /\ processedRows state'
          = (processedRows
               (startingState excelPath messageTemplate originalFilename options
                  env w)
             ++ map row
                  (take k
                     (unprocessed
                        (startingState excelPath messageTemplate
                           originalFilename options env w) contacts)))%list
       /\ isPaused
            (fst (startCampaign excelPath messageTemplate originalFilename
                    options env w)) = true
       /\ snd (startCampaign excelPath messageTemplate originalFilename options
                 env w)
          = Returned (mkStartReturn (chooseCampaignId options env) None)
       /\ last (emitted
                  (fst (startCampaign excelPath messageTemplate originalFilename
                          options env w)))
          = Some (campaign_finished (chooseCampaignId options env)
                    (List.length (processedRows state'))
                    (List.length (failedRows state'))))
  /\ (processedRows
        (startingState excelPath messageTemplate originalFilename options
           env w) = [] ->
      truthy (chooseCampaignId options env) = true ->
      hasActiveCampaign
        (fst (startCampaign excelPath messageTemplate originalFilename
                options env w)) = true).
Proof.
  intros Hparse Hready Hrun Hpause Hk. split.
  2:{ intros Hblank Hid.
      apply (paused_run_active excelPath messageTemplate originalFilename
               options env w contacts k Hparse Hready Hrun Hpause);
        [|exact Hblank | exact Hid].
      now rewrite (unprocessed_blank _ contacts Hblank) in Hk. }
  rewrite (startCampaign_parsed _ _ _ _ _ _ _ Hparse). cbv zeta.
  set (state0 := startingState _ _ _ _ _ _) in *.
  set (toProcess := unprocessed state0 contacts) in *.
  rewrite Hready.
  replace (if (0 <? List.length toProcess)%nat then Returned tt
           else Returned tt) with (@Returned unit tt)
    by now destruct (0 <? List.length toProcess)%nat.
  set (state1 := setTotalContacts (List.length contacts) state0).
  set (w1 := setPaused false _).
  destruct (processLoop_paused (chooseCampaignId options env) messageTemplate
              (delayConfigOf options) (List.length toProcess) (steps env)
              k toProcess 0 state1 w1 eq_refl (conj eq_refl eq_refl))
    as (Hp & Hf & Hq & Hr); auto.
  exists (fst (processLoop (chooseCampaignId options env) messageTemplate
                 (delayConfigOf options) (List.length toProcess) (steps env)
                 0 toProcess state1 w1)).
  simpl. repeat split; try apply Hr; auto.
  apply last_snoc.
Qed.

Lemma includes_elem r rows : includes r rows = true <-> r ∈ rows.
Proof.
  unfold includes. rewrite existsb_exists. split.
  - intros (x & Hx & Heq). apply Z.eqb_eq in Heq. subst x.
    now apply list_elem_of_In.
  - intros H. exists r. split; [now apply list_elem_of_In | apply Z.eqb_refl].
Qed.

Lemma unprocessed_rows state contacts r :
  r ∈ map row (unprocessed state contacts) ->
  r ∈ map row contacts /\ r ∉ processedRows state.
Proof.
  intros H. apply list_elem_of_In, in_map_iff in H as (c & <- & Hc).
  apply filter_In in Hc as [Hc Hn]. split.
  - apply list_elem_of_In. now apply in_map.
  - intros Hin. apply includes_elem in Hin. now rewrite Hin in Hn.
Qed.

Lemma unprocessed_distinct state contacts :
  NoDup (map row contacts) -> NoDup (map row (unprocessed state contacts)).
Proof.
  unfold unprocessed. induction contacts as [|c l IH]; simpl; intros H;
    [constructor|].
  apply NoDup_cons in H as [Hc Hl].
  destruct (negb (includes (row c) (processedRows state))); simpl;
    [|now apply IH].
  apply NoDup_cons. split; [|now apply IH].
  intros Hin. apply Hc. apply list_elem_of_In, in_map_iff in Hin
    as (x & Hx & Hin). apply filter_In in Hin as [Hin _].
  rewrite <- Hx. apply list_elem_of_In. now apply in_map.
Qed.

(** With distinct rows, the contacts are no more than the rows already
    processed and the contacts still to process together. *)
Lemma contacts_covered state contacts :
  NoDup (map row contacts) ->
  List.length contacts
  <= List.length (processedRows state)
     + List.length (unprocessed state contacts).
Proof.
  intros Hnd.
  assert (G : forall seen,
     NoDup seen -> (forall r, r ∈ seen -> r ∈ processedRows state) ->
     (forall r, r ∈ seen -> r ∉ map row contacts) ->
     List.length seen + List.length contacts
     <= List.length (processedRows state)
        + List.length (unprocessed state contacts)).
  { induction contacts as [|c l IH]; intros seen Hs Hsub Hdisj; simpl.
    - rewrite !Nat.add_0_r. apply submseteq_length.
      apply NoDup_submseteq; assumption.
    - simpl in Hnd. apply NoDup_cons in Hnd as [Hc Hl].
      destruct (includes (row c) (processedRows state)) eqn:E; simpl.
      + specialize (IH Hl (row c :: seen)). simpl in IH.
        assert (H1 : NoDup (row c :: seen)).
        { apply NoDup_cons. split; [|exact Hs]. intros Hin.
          apply (Hdisj _ Hin). simpl. left. }
        specialize (IH H1).
        enough (S (List.length seen) + List.length l
                <= List.length (processedRows state)
                   + List.length (unprocessed state l)) by lia.
        apply IH.
        * intros r Hr. apply elem_of_cons in Hr as [->|Hr];
            [now apply includes_elem | now apply Hsub].
        * intros r Hr Hin. apply elem_of_cons in Hr as [->|Hr];
            [contradiction|]. apply (Hdisj _ Hr). simpl. now right.
      + specialize (IH Hl seen Hs Hsub).
        enough (List.length seen + List.length l
                <= List.length (processedRows state)
                   + List.length (unprocessed state l)) by lia.
        apply IH. intros r Hr Hin. apply (Hdisj _ Hr). simpl. now right. }
  apply (G [] (NoDup_nil_2)); intros r Hr; inversion Hr.
Qed.

(** X9. After a full run over contacts with distinct rows the campaign is no
    longer active: a new campaign may start. *)
Theorem full_run_finishes excelPath messageTemplate originalFilename options
        env w contacts :
  parse env excelPath originalFilename = Returned contacts ->
  waitForReady env = Returned tt ->
  (forall i, pauseRequested (steps env i) = false) ->
  NoDup (map row contacts) ->
  contacts <> [] ->
  hasActiveCampaign
    (fst (startCampaign excelPath messageTemplate originalFilename options
            env w)) = false.
Proof.
  intros Hparse Hready Hrun Hnd Hne.
  rewrite (startCampaign_parsed _ _ _ _ _ _ _ Hparse). cbv zeta.
  set (state0 := startingState _ _ _ _ _ _) in *.
  set (toProcess := unprocessed state0 contacts) in *.
  rewrite Hready.
  replace (if (0 <? List.length toProcess)%nat then Returned tt
           else Returned tt) with (@Returned unit tt)
    by now destruct (0 <? List.length toProcess)%nat.
  set (state1 := setTotalContacts (List.length contacts) state0).
  set (w1 := setPaused false _).
  pose proof (processLoop_rows spintaxParse createContactId
                buildCorrelationId formatCorrelationTag
                (chooseCampaignId options env) messageTemplate
                (delayConfigOf options) (List.length toProcess) (steps env)
                Hrun toProcess 0 state1 w1 eq_refl (conj eq_refl eq_refl))
    as (Hp & _ & Hr).
  pose proof (processLoop_recorded spintaxParse createContactId
                buildCorrelationId formatCorrelationTag
                (chooseCampaignId options env) messageTemplate
                (delayConfigOf options) (List.length toProcess) (steps env)
                toProcess 0 state1 w1 (conj eq_refl eq_refl))
    as (_ & _ & Ht).
  destruct (processLoop _ _ _ _ _ _ _ _ _) as [state' w'].
  simpl in Hp, Hr, Ht |- *. destruct Hr as [Hcur _].
  unfold hasActiveCampaign. simpl. rewrite Hcur. simpl.
  destruct (recordedId state'); [|reflexivity].
  rewrite Ht. simpl.
  assert (Hlen : List.length contacts
                 <= List.length (processedRows state')).
  { rewrite Hp, length_app, length_map.
    apply (contacts_covered state0 contacts Hnd). }
  assert (Hpos : 0 < List.length contacts)
    by (destruct contacts; [congruence | simpl; lia]).
  clearbody state0 toProcess state1 w1.
  destruct (Nat.eqb_spec (List.length contacts) 0) as [E|_]; [lia|].
  destruct (Nat.ltb_spec (List.length (processedRows state'))
              (List.length contacts)) as [E|_]; [lia|].
  simpl. now rewrite andb_false_r.
Qed.

(** X10. Whatever the run meets after parsing (a readiness timeout, pauses,
    failed sends), [processedRows] stays free of duplicates when it was
    and the contact rows are distinct. *)
Theorem rows_stay_distinct excelPath messageTemplate originalFilename options
        env w contacts :
  parse env excelPath originalFilename = Returned contacts ->
  NoDup (processedRows (loadState w)) ->
  NoDup (map row contacts) ->
  exists state',
    recorded state'
      (fst (startCampaign excelPath messageTemplate originalFilename options
              env w))
    /\ NoDup (processedRows state').
Proof.
  intros Hparse Hold Hnd.
  rewrite (startCampaign_parsed _ _ _ _ _ _ _ Hparse). cbv zeta.
  assert (H0 : NoDup (processedRows
                        (startingState excelPath messageTemplate
                           originalFilename options env w))).
  { unfold startingState, adoptCampaign.
    destruct (recordedId (loadState w)); [|exact Hold].
    case_decide; [constructor | exact Hold]. }
  set (state0 := startingState _ _ _ _ _ _) in *.
  set (toProcess := unprocessed state0 contacts) in *.
  set (state1 := setTotalContacts (List.length contacts) state0).
  destruct (if (0 <? List.length toProcess)%nat then waitForReady env
            else Returned tt) as [[]|message].
  - set (w1 := setPaused false _).
    destruct (processLoop_prefix (chooseCampaignId options env)
                messageTemplate (delayConfigOf options)
                (List.length toProcess) (steps env) toProcess 0 state1 w1
                (conj eq_refl eq_refl))
      as (k & Hk & Hp & _ & Hr & _).
    eexists. split; [exact Hr|]. rewrite Hp. simpl.
    apply NoDup_app. split; [exact H0|]. split.
    + intros r Hr0 Hin.
      assert (Hin' : r ∈ map row toProcess).
      { apply (elem_of_sublist _ _ _ Hin).
        apply (fmap_sublist row), sublist_take. }
      apply unprocessed_rows in Hin' as [_ Hn]. contradiction.
    + apply (sublist_NoDup _ (map row toProcess)).
      * now apply unprocessed_distinct.
      * apply (fmap_sublist row), sublist_take.
  - exists state1. simpl. split; [split; reflexivity | exact H0].
Qed.

Lemma unprocessed_none state contacts :
  (forall c, In c contacts ->
             includes (row c) (processedRows state) = true) ->
  unprocessed state contacts = [].
Proof.
  unfold unprocessed. induction contacts as [|c l IH]; intros Hall;
    [reflexivity|].
  simpl. rewrite (Hall c) by now left. simpl. apply IH.
  intros x Hx. apply Hall. now right.
Qed.

(** X11. A start that finds no account ready in time is abandoned before any
    send: no account is called, [processedRows] and [failedRows] are as
    loaded, the state with the new total is in memory and on disk, and the
    call returns the error of the wait instead of throwing it. *)
Theorem start_abandoned_without_session excelPath messageTemplate
        originalFilename options env w contacts message :
  parse env excelPath originalFilename = Returned contacts ->
  unprocessed
    (startingState excelPath messageTemplate originalFilename options env w)
    contacts <> [] ->
  waitForReady env = Threw message ->
  snd (startCampaign excelPath messageTemplate originalFilename options env w)
  = Returned (mkStartReturn (chooseCampaignId options env) (Some message))
  /\ calls (fst (startCampaign excelPath messageTemplate originalFilename
                   options env w)) = calls w
  /\ statsFile (fst (startCampaign excelPath messageTemplate originalFilename
                       options env w)) = statsFile w
  /\ recorded
       (setTotalContacts (List.length contacts)
          (startingState excelPath messageTemplate originalFilename options
             env w))
       (fst (startCampaign excelPath messageTemplate originalFilename options
               env w))
  /\ emitted (fst (startCampaign excelPath messageTemplate originalFilename
                     options env w))
     = (emitted w
        ++ [campaign_started (chooseCampaignId options env)
              (List.length contacts)
              (List.length
                 (unprocessed
                    (startingState excelPath messageTemplate originalFilename
                       options env w) contacts));
            log "[ERROR] Cancelado: Nenhuma conexao ativa encontrada em 2 minutos."])%list.
Proof.
  intros Hparse Hsome Hwait.
  rewrite (startCampaign_parsed _ _ _ _ _ _ _ Hparse). cbv zeta.
  set (state0 := startingState _ _ _ _ _ _) in *.
  destruct (unprocessed state0 contacts) as [|c l] eqn:E; [congruence|].
  simpl. rewrite Hwait. simpl. rewrite <- app_assoc. repeat split.
Qed.

(** X12. Starting the same campaign again over the same contacts after a full
    run sends nothing: no account is called and the processed and failed
    rows are those the first run left. *)
Theorem second_run_sends_nothing excelPath messageTemplate originalFilename
        options env1 env2 w contacts :
  parse env1 excelPath originalFilename = Returned contacts ->
  waitForReady env1 = Returned tt ->
  (forall i, pauseRequested (steps env1 i) = false) ->
  parse env2 excelPath originalFilename = Returned contacts ->
  chooseCampaignId options env2 = chooseCampaignId options env1 ->
  exists state1 state2,
    recorded state1
      (fst (startCampaign excelPath messageTemplate originalFilename options
              env1 w))
    /\ recorded state2
         (fst (startCampaign excelPath messageTemplate originalFilename
                 options env2
                 (fst (startCampaign excelPath messageTemplate
                         originalFilename options env1 w))))
    /\ processedRows state2 = processedRows state1
    /\ failedRows state2 = failedRows state1
    /\ calls (fst (startCampaign excelPath messageTemplate originalFilename
                     options env2
                     (fst (startCampaign excelPath messageTemplate
                             originalFilename options env1 w))))
       = calls (fst (startCampaign excelPath messageTemplate originalFilename
                       options env1 w)).
Proof.
  intros Hparse1 Hready Hrun Hparse2 Hsame.
  assert (First : exists state1,
    recorded state1
      (fst (startCampaign excelPath messageTemplate originalFilename options
              env1 w))
    /\ campaignId state1 = Some (chooseCampaignId options env1)
    /\ forall c, In c contacts -> includes (row c) (processedRows state1)
                                  = true).
  { rewrite (startCampaign_parsed _ _ _ _ _ _ _ Hparse1). cbv zeta.
    set (state0 := startingState _ _ _ _ _ _) in *.
    set (toProcess := unprocessed state0 contacts) in *.
    rewrite Hready.
    replace (if (0 <? List.length toProcess)%nat then Returned tt
             else Returned tt) with (@Returned unit tt)
      by now destruct (0 <? List.length toProcess)%nat.
    set (st := setTotalContacts (List.length contacts) state0).
    set (w1 := setPaused false _).
    pose proof (processLoop_rows spintaxParse createContactId
                  buildCorrelationId formatCorrelationTag
                  (chooseCampaignId options env1) messageTemplate
                  (delayConfigOf options) (List.length toProcess)
                  (steps env1) Hrun toProcess 0 st w1 eq_refl
                  (conj eq_refl eq_refl)) as (Hp & _ & Hr).
    pose proof (processLoop_recorded spintaxParse createContactId
                  buildCorrelationId formatCorrelationTag
                  (chooseCampaignId options env1) messageTemplate
                  (delayConfigOf options) (List.length toProcess)
                  (steps env1) toProcess 0 st w1 (conj eq_refl eq_refl))
      as (_ & Hc & _).
    destruct (processLoop _ _ _ _ _ _ _ _ _) as [state' w'].
    simpl in Hp, Hr, Hc |- *. exists state'. split; [exact Hr|].
    split; [exact Hc|]. intros c Hin. apply includes_elem. rewrite Hp.
    apply elem_of_app.
    destruct (includes (row c) (processedRows state0)) eqn:E.
    - left. now apply includes_elem.
    - right. apply list_elem_of_In, in_map. apply filter_In.
      split; [exact Hin | now rewrite E]. }
  destruct First as (state1 & Hrec1 & Hid & Hall).
  set (w1 := fst (startCampaign excelPath messageTemplate originalFilename
                    options env1 w)) in *.
  assert (Hkeep :
    processedRows
      (startingState excelPath messageTemplate originalFilename options
         env2 w1) = processedRows state1
    /\ failedRows
         (startingState excelPath messageTemplate originalFilename options
            env2 w1) = failedRows state1).
  { unfold startingState, loadState. destruct Hrec1 as [_ ->].
    unfold adoptCampaign, recordedId. rewrite Hid, Hsame. simpl.
    destruct (truthy (chooseCampaignId options env1)); [|split; reflexivity].
    rewrite decide_False by tauto. split; reflexivity. }
  destruct Hkeep as [Hkp Hkf].
  rewrite (startCampaign_parsed _ _ _ _ _ _ _ Hparse2). cbv zeta.
  rewrite (unprocessed_none _ contacts) by (intros c Hc; rewrite Hkp; auto).
  simpl. exists state1. eexists. split; [exact Hrec1|].
  split; [split; reflexivity|]. simpl. auto.
Qed.

End Facts.

(** *** Concrete runs *)

Definition bia : Contact := mkContact 3 "Bia" "5511977776666".

Definition caio : Contact := mkContact 4 "Caio" "5511966665555".

Definition threeContacts : list Contact := [sam; bia; caio].

(** A turn in which the account confirms the delivery. *)
Definition deliveringStep (paused : bool) (i : nat) : StepEnv :=
  mkStepEnv paused ("msg_" +:+ pretty i) (fixedDelays promptClient)
    (mkClock "2026-03-02T09:15:00.000Z" "2026-03-02" 9).

(** Three contacts, every send confirmed, no pause. *)
Definition confirmedRun : RunEnv :=
  mkRunEnv "camp_generated" (fun _ _ => Returned threeContacts) (Returned tt)
    (deliveringStep false).

(** The same, with a pause requested during the first send. *)
Definition pausedRun : RunEnv :=
  mkRunEnv "camp_generated" (fun _ _ => Returned threeContacts) (Returned tt)
    (fun i => deliveringStep (1 <=? i)%nat i).

(** The same contacts, and no account ready within the wait. *)
Definition waitingRun : RunEnv :=
  mkRunEnv "camp_generated" (fun _ _ => Returned threeContacts)
    (Threw "No sessions READY after 120000ms (minReady=1).")
    (deliveringStep false).

Definition optionsB : StartOptions := mkStartOptions (Some "camp_B") None None.

Lemma threeContacts_distinct : NoDup (map row threeContacts).
Proof. apply (bool_decide_unpack _). vm_compute. exact I. Qed.

Lemma run_stops_at_pause_witness :
  (exists state',
      recorded state' (fst (runSam pausedRun freshWorld))
      /\ processedRows state' = [2%Z]
      /\ isPaused (fst (runSam pausedRun freshWorld)) = true)
  /\ hasActiveCampaign (fst (runSam pausedRun freshWorld)) = true.
Proof.
  destruct (run_stops_at_pause (fun s => s) contactIdOf correlationOf tagOf
              "b.xlsx" "Oi [nome]" "b.xlsx" optionsB pausedRun freshWorld
              threeContacts 1 eq_refl eq_refl)
    as [(state' & Hrec & Hp & Hq & _) Hactive].
  - intros j Hj. destruct j; [reflexivity | lia].
  - reflexivity.
  - vm_compute. lia.
  - split; [|exact (Hactive eq_refl eq_refl)].
    exists state'. split; [exact Hrec|]. split; [exact Hp | exact Hq].
Defined.

Lemma full_run_finishes_witness :
  hasActiveCampaign (fst (runSam confirmedRun freshWorld)) = false.
Proof.
  apply (full_run_finishes (fun s => s) contactIdOf correlationOf tagOf
           "b.xlsx" "Oi [nome]" "b.xlsx" optionsB confirmedRun freshWorld
           threeContacts eq_refl eq_refl (fun _ => eq_refl)
           threeContacts_distinct).
  discriminate.
Defined.

Lemma rows_stay_distinct_witness :
  exists state',
    recorded state' (fst (runSam pausedRun worldA))
    /\ NoDup (processedRows state').
Proof.
  apply (rows_stay_distinct (fun s => s) contactIdOf correlationOf tagOf
           "b.xlsx" "Oi [nome]" "b.xlsx" optionsB pausedRun worldA
           threeContacts eq_refl).
  - apply (bool_decide_unpack _). vm_compute. exact I.
  - exact threeContacts_distinct.
Defined.

Lemma start_abandoned_without_session_witness :
  snd (runSam waitingRun freshWorld)
  = Returned (mkStartReturn "camp_B"
                (Some "No sessions READY after 120000ms (minReady=1)."))
  /\ calls (fst (runSam waitingRun freshWorld)) = [].
Proof.
  destruct (start_abandoned_without_session (fun s => s) contactIdOf
              correlationOf tagOf "b.xlsx" "Oi [nome]" "b.xlsx" optionsB
              waitingRun freshWorld threeContacts
              "No sessions READY after 120000ms (minReady=1)." eq_refl)
    as (Hr & Hc & _).
  - vm_compute. discriminate.
  - reflexivity.
  - split; [exact Hr | exact Hc].
Defined.

Lemma second_run_sends_nothing_witness :
  calls (fst (runSam confirmedRun (fst (runSam confirmedRun freshWorld))))
  = calls (fst (runSam confirmedRun freshWorld)).
Proof.
  destruct (second_run_sends_nothing (fun s => s) contactIdOf correlationOf
              tagOf "b.xlsx" "Oi [nome]" "b.xlsx" optionsB confirmedRun
              confirmedRun freshWorld threeContacts eq_refl eq_refl
              (fun _ => eq_refl) eq_refl eq_refl)
    as (state1 & state2 & _ & _ & _ & _ & Hc).
  exact Hc.
Defined.

End CampaignRuns.

(** ** Resuming a campaign and late status updates *)

Module CampaignResumeFacts.
Import TemplateEngine Dispatcher DispatcherFacts CampaignManager
       CampaignManagerFacts CampaignResume.

Section Resume.

Variable spintaxParse : string -> string.
Variable createContactId : Z -> string.
Variable buildCorrelationId : string -> string -> option string -> string.
Variable formatCorrelationTag : string -> string.
Variable lastSuccessPhone : gmap string MessageStatus -> string.

Local Abbreviation resumeCampaign :=
  (resumeCampaign spintaxParse createContactId buildCorrelationId
                  formatCorrelationTag lastSuccessPhone).

(** X13. Nothing is resumed, and nothing changes, when no campaign is active,
    when the stored state has no configuration or no source path, or when
    the source file is gone. *)
Theorem resume_refused env w :
  hasActiveCampaign w = false
  \/ config (default (loadState w) (currentState w)) = None
  \/ (exists cfg,
         config (default (loadState w) (currentState w)) = Some cfg
         /\ (cfg_excelPath cfg = "" \/ existsSync env (cfg_excelPath cfg)
                                       = false)) ->
  resumeCampaign env w = (w, false).
Proof.
  unfold resumeCampaign. intros [H|[H|(cfg & Hc & [H|H])]].
  - now rewrite H.
  - destruct (hasActiveCampaign w); [|reflexivity]. simpl. now rewrite H.
  - destruct (hasActiveCampaign w); [|reflexivity]. simpl.
    now rewrite Hc, H.
  - destruct (hasActiveCampaign w); [|reflexivity]. simpl. rewrite Hc, H.
    now destruct (truthy (cfg_excelPath cfg)).
Qed.

(** X14. A resume after a restart continues the stored campaign: the run it
    starts works on the stored rows, failures and statuses under the
    stored id, not on a blank state.  The stored delay window is not
    carried over: the configuration of the resumed run has neither bound. *)
Theorem resume_continues env w state cfg :
  currentState w = None ->
  stateFile w = Doc state ->
  hasActiveCampaign w = true ->
  config state = Some cfg ->
  truthy (cfg_excelPath cfg) = true ->
  existsSync env (cfg_excelPath cfg) = true ->
  exists w0,
    emitted w0
    = (emitted w
       ++ [log warnMsg;
           log (infoMsg (lastSuccessPhone (messageStatus state)))])%list
    /\ stateFile w0 = stateFile w
    /\ fst (resumeCampaign env w)
       = fst (startCampaign spintaxParse createContactId buildCorrelationId
                formatCorrelationTag (cfg_excelPath cfg)
                (cfg_messageTemplate cfg) (cfg_originalFilename cfg)
                (mkStartOptions (campaignId state) None None)
                (resumedRun env) w0)
    /\ startingState (cfg_excelPath cfg) (cfg_messageTemplate cfg)
         (cfg_originalFilename cfg)
         (mkStartOptions (campaignId state) None None) (resumedRun env) w0
       = mkCampaignState (campaignId state) (totalContacts state)
           (processedRows state) (failedRows state) (pendingRows state)
           (messageStatus state)
           (Some (mkConfig (cfg_messageTemplate cfg) (cfg_excelPath cfg)
                    (cfg_originalFilename cfg) (mkDelayConfig None None))).
Proof.
  intros Hcur Hfile Hactive Hcfg Hpath Hexists.
  assert (Hstate : default (loadState w) (currentState w) = state).
  { rewrite Hcur. unfold loadState. now rewrite Hfile. }
  assert (Hid : exists id, campaignId state = Some id /\ truthy id = true).
  { unfold hasActiveCampaign in Hactive. rewrite Hstate in Hactive.
    unfold recordedId, truthyId in Hactive.
    destruct (campaignId state) as [id|]; [|discriminate].
    exists id. split; [reflexivity|].
    destruct (truthy id); [reflexivity | discriminate]. }
  destruct Hid as (id & Hid & Hty).
  exists (_emitEvent (log (infoMsg (lastSuccessPhone (messageStatus state))))
            (_emitEvent (log warnMsg) w)).
  split; [|split; [|split]].
  - simpl. now rewrite <- app_assoc.
  - reflexivity.
  - unfold resumeCampaign. rewrite Hactive, Hstate, Hcfg, Hpath, Hexists.
    simpl. destruct (startCampaign _ _ _ _ _ _ _ _ _ _) as [w' [r|m]];
      reflexivity.
  - unfold startingState, loadState. simpl. rewrite Hfile.
    unfold adoptCampaign, recordedId, chooseCampaignId, delayConfigOf.
    simpl. rewrite Hid. simpl. rewrite Hty.
    rewrite decide_False by tauto. reflexivity.
Qed.

End Resume.

(** The update names an entry of the state in memory, or a name that no
    plain object inherits, or there is no key or no state in memory. *)
Definition namesNoInherited (update : StatusUpdate) (w : World) : Prop :=
  match truthyId (orElse (u_clientMessageId update) (u_messageId update)),
        currentState w with
  | Some key, Some state =>
      is_Some (messageStatus state !! key) \/ key ∉ inheritedNames
  | _, _ => True
  end.

(** X15. A status update is always forwarded as it came.  Unless its key
    is a name every object inherits and no entry, it changes one thing at
    most: the entry it names, when the state in memory has one, takes the
    status and the time of the update, keeps its other fields, and the
    state is saved; no entry is created, the rows, the failures, the
    total and the daily stats stay as they are, and an update naming no
    known message changes nothing.  A key such as [constructor] that is
    no entry is taken for one all the same: an object holding only the
    status and the time is stored under it and the state is saved. *)
Theorem status_update_is_local update now w :
  snd (onMessageStatus update now w) = update
  /\ (namesNoInherited update w ->
      exists w',
        fst (onMessageStatus update now w) = Within w'
        /\ statsFile w' = statsFile w
        /\ (forall state,
               currentState w = Some state ->
               exists state',
                 currentState w' = Some state'
                 /\ processedRows state' = processedRows state
                 /\ failedRows state' = failedRows state
                 /\ campaignId state' = campaignId state
                 /\ totalContacts state' = totalContacts state
                 /\ dom (messageStatus state') = dom (messageStatus state)
                 /\ forall key,
                      Some key <> truthyId (orElse (u_clientMessageId update)
                                                   (u_messageId update)) ->
                      messageStatus state' !! key
                      = messageStatus state !! key)
        /\ (forall state key entry,
               currentState w = Some state ->
               truthyId (orElse (u_clientMessageId update)
                                (u_messageId update)) = Some key ->
               messageStatus state !! key = Some entry ->
               exists state',
                 currentState w' = Some state'
                 /\ stateFile w' = Doc state'
                 /\ messageStatus state' !! key
                    = Some (mkMessageStatus (ms_campaignId entry)
                              (ms_contactId entry) (ms_phone entry)
                              (u_status update) (ms_error entry) now))
        /\ (match truthyId (orElse (u_clientMessageId update)
                                   (u_messageId update)),
                  currentState w with
            | Some key, Some state => messageStatus state !! key = None
            | _, _ => True
            end ->
            w' = w))
  /\ (forall state key,
         currentState w = Some state ->
         truthyId (orElse (u_clientMessageId update) (u_messageId update))
         = Some key ->
         messageStatus state !! key = None ->
         key ∈ inheritedNames ->
         fst (onMessageStatus update now w)
         = Outside key (u_status update) now).
Proof.
  split; [|split].
  - unfold onMessageStatus.
    destruct (truthyId _) as [key|]; destruct (currentState w) as [state|];
      try reflexivity.
    destruct (messageStatus state !! key); [reflexivity|].
    now case_bool_decide.
  - unfold namesNoInherited, onMessageStatus.
    destruct (truthyId _) as [key|] eqn:Hkey;
      destruct (currentState w) as [state|] eqn:Hcur;
      try (intros _; exists w; repeat split; try discriminate;
           intros st [= ->]; exists st; repeat split; auto; fail).
    destruct (messageStatus state !! key) as [entry|] eqn:He.
    + intros _. eexists. split; [reflexivity|]. split; [reflexivity|].
      split; [|split].
      * intros st [= <-]. eexists. split; [reflexivity|]. simpl.
        repeat split.
        -- apply dom_insert_lookup_L. now rewrite He.
        -- intros k Hk. apply lookup_insert_ne. congruence.
      * intros st k e [= <-] [= <-] He'. rewrite He in He'.
        injection He' as <-.
        eexists. split; [reflexivity|]. split; [reflexivity|].
        simpl. apply lookup_insert_eq.
      * discriminate.
    + intros [[e He']|Hout]; [discriminate|].
      rewrite bool_decide_eq_false_2 by exact Hout.
      exists w. split; [reflexivity|]. split; [reflexivity|].
      split; [|split].
      * intros st [= ->]. exists st. repeat split; auto.
      * intros st k e [= <-] [= <-] He'. congruence.
      * reflexivity.
  - intros state key Hcur Hkey He Hin. unfold onMessageStatus.
    rewrite Hkey, Hcur, He. now rewrite bool_decide_eq_true_2.
Qed.

(** A campaign interrupted after one of three rows, found at start-up. *)
Definition storedCampaign : CampaignState :=
  mkCampaignState (Some "camp_A") (Some 3) [2%Z] [] [] ∅
    (Some (mkConfig "Oi [nome]" "a.xlsx" "a.xlsx"
             (mkDelayConfig (Some 5000%Z) (Some 9000%Z)))).

Definition restarted : World :=
  mkWorld (Doc storedCampaign) Absent None false [] [].

Definition resumeEnv : ResumeEnv := mkResumeEnv (fun _ => true) rejectedRun.

Definition noSuccess (_ : gmap string MessageStatus) : string := "N/A".

(** The same campaign in memory, with the message of row 2 on record. *)
Definition tracked : CampaignState :=
  setMessageStatus "camp_A:contact_2:msg_1"
    (mkMessageStatus "camp_A" "contact_2" "5511999990000" SENT None
       "2026-03-02T09:15:00.000Z")
    storedCampaign.

Definition trackingWorld : World :=
  mkWorld (Doc tracked) Absent (Some tracked) false [] [].

Definition receipt : StatusUpdate :=
  mkStatusUpdate (Some "camp_A:contact_2:msg_1") (Some "wamid.1") DELIVERED.

Lemma resume_refused_witness :
  resumeCampaign (fun s => s) contactIdOf correlationOf tagOf noSuccess
    resumeEnv freshWorld
  = (freshWorld, false).
Proof.
  apply resume_refused. left. reflexivity.
Defined.

Lemma resume_continues_witness :
  exists w0,
    stateFile w0 = Doc storedCampaign
    /\ startingState "a.xlsx" "Oi [nome]" "a.xlsx"
         (mkStartOptions (Some "camp_A") None None) rejectedRun w0
       = mkCampaignState (Some "camp_A") (Some 3) [2%Z] [] [] ∅
           (Some (mkConfig "Oi [nome]" "a.xlsx" "a.xlsx"
                    (mkDelayConfig None None))).
Proof.
  destruct (resume_continues (fun s => s) contactIdOf correlationOf tagOf
              noSuccess resumeEnv restarted storedCampaign
              (mkConfig "Oi [nome]" "a.xlsx" "a.xlsx"
                 (mkDelayConfig (Some 5000%Z) (Some 9000%Z)))
              eq_refl eq_refl eq_refl eq_refl eq_refl eq_refl)
    as (w0 & _ & Hfile & _ & Hstart).
  exists w0. split; [exact Hfile | exact Hstart].
Defined.

Lemma status_update_is_local_witness :
  exists w' state',
    fst (onMessageStatus receipt "2026-03-02T09:16:00.000Z" trackingWorld)
    = Within w'
    /\ currentState w' = Some state'
    /\ stateFile w' = Doc state'
    /\ messageStatus state' !! "camp_A:contact_2:msg_1"
       = Some (mkMessageStatus "camp_A" "contact_2" "5511999990000"
                 DELIVERED None "2026-03-02T09:16:00.000Z").
Proof.
  destruct (status_update_is_local receipt "2026-03-02T09:16:00.000Z"
              trackingWorld) as (_ & Hwithin & _).
  destruct Hwithin as (w' & Hw & _ & _ & Hstored & _).
  - left. exists (mkMessageStatus "camp_A" "contact_2" "5511999990000" SENT
                    None "2026-03-02T09:15:00.000Z").
    apply lookup_insert_eq.
  - destruct (Hstored tracked "camp_A:contact_2:msg_1"
                (mkMessageStatus "camp_A" "contact_2" "5511999990000" SENT
                   None "2026-03-02T09:15:00.000Z"))
      as (state' & Hcur & Hfile & Hentry).
    + reflexivity.
    + reflexivity.
    + apply lookup_insert_eq.
    + exists w', state'. auto.
Defined.

(** A receipt whose id is the name of an inherited property. *)
Example status_update_inherited_name :
  fst (onMessageStatus (mkStatusUpdate (Some "constructor") None READ)
         "2026-03-02T09:17:00.000Z" trackingWorld)
  = Outside "constructor" READ "2026-03-02T09:17:00.000Z".
Proof. vm_compute. reflexivity. Qed.

End CampaignResumeFacts.

(** ** The status routes, the log buffer and the daily statistics *)

Module ApiServerRoutesFacts.
Import TemplateEngine Dispatcher DispatcherFacts CampaignManager
       DailyStatsFacts CampaignManagerFacts ApiServerRoutes.


(** The texts of the [log] events among [events]. *)
Definition logTexts (events : list Event) : list string :=
  omap (fun ev => match ev with log text => Some text | _ => None end) events.

(** The last [n] elements of a list. *)
Definition lastN {A} (n : nat) (l : list A) : list A :=
  drop (List.length l - n) l.

(** The stats file after a series of updates, each with its status and
    the clock it read. *)
Definition recordAll (updates : list (Status * Clock))
           (statsFile : file DailyStats) : file DailyStats :=
  fold_left (fun f u => fst (_updateDailyStats (fst u) (snd u) f)) updates
            statsFile.

(** What the dashboard shows for the day: the total and one hour. *)
Definition sentToday (clock : Clock) (statsFile : file DailyStats) : nat :=
  default 0 (totalSent (getDailyStats clock statsFile)).

Definition sentInHour (clock : Clock) (statsFile : file DailyStats)
           (h : nat) : nat :=
  default 0 (default ∅ (hourly (getDailyStats clock statsFile)) !! hourKey h).

(** The updates that count as a send, and those of them in hour [h]. *)
Definition sentCount (updates : list (Status * Clock)) : nat :=
  List.length (List.filter (fun u => countsAsSent (fst u)) updates).

Definition sentAt (h : nat) (updates : list (Status * Clock)) : nat :=
  List.length
    (List.filter (fun u => countsAsSent (fst u) && (hours (snd u) =? h)%nat)
                 updates).

Lemma _addToLogHistory_lastN msg logHistory :
  List.length logHistory <= 50 ->
  _addToLogHistory msg logHistory = lastN 50 (logHistory ++ [msg])%list.
Proof.
  intros Hlen. unfold _addToLogHistory, lastN. cbv zeta.
  rewrite length_app. simpl.
  destruct (Nat.ltb_spec 50 (List.length logHistory + 1)) as [H|H].
  - replace (List.length logHistory + 1 - 50) with 1 by lia.
    now destruct logHistory.
  - replace (List.length logHistory + 1 - 50) with 0 by lia. reflexivity.
Qed.

Lemma lastN_length {A} n (l : list A) : List.length (lastN n l) <= n.
Proof. unfold lastN. rewrite length_drop. lia. Qed.

Lemma lastN_app {A} n (l k : list A) :
  lastN n (lastN n l ++ k)%list = lastN n (l ++ k)%list.
Proof.
  unfold lastN. rewrite !length_app, length_drop.
  destruct (Nat.le_gt_cases (List.length l) n) as [H|H].
  - replace (List.length l - n) with 0 by lia. simpl.
    now rewrite Nat.sub_0_r.
  - rewrite <- (drop_app_le l k (List.length l - n)) by lia.
    rewrite drop_drop. f_equal. lia.
Qed.

(** X16. The buffer holds the last 50 log lines the campaign manager emitted,
    oldest first, whatever other events passed in between. *)
Theorem log_history_last_50 events logHistory :
  List.length logHistory <= 50 ->
  fold_left adapterEmit events logHistory
  = lastN 50 (logHistory ++ logTexts events)%list
  /\ List.length (fold_left adapterEmit events logHistory) <= 50.
Proof.
  intros Hlen.
  assert (G : fold_left adapterEmit events logHistory
              = lastN 50 (logHistory ++ logTexts events)%list).
  { revert logHistory Hlen.
    induction events as [|ev events IH]; intros logHistory Hlen; simpl.
    - rewrite app_nil_r. unfold lastN.
      replace (List.length logHistory - 50) with 0 by lia. reflexivity.
    - destruct ev; simpl; try (apply IH; exact Hlen).
      rewrite IH.
      + rewrite _addToLogHistory_lastN by exact Hlen.
        rewrite lastN_app, <- app_assoc. reflexivity.
      + rewrite _addToLogHistory_lastN by exact Hlen. apply lastN_length. }
  split; [exact G|]. rewrite G. apply lastN_length.
Qed.

Lemma getDailyStats_date clock statsFile :
  ds_date (getDailyStats clock statsFile) = Some (today clock).
Proof.
  unfold getDailyStats. destruct statsFile as [| |stats]; try reflexivity.
  case_decide; [assumption | reflexivity].
Qed.

Lemma getDailyStats_Doc clock stats :
  ds_date stats = Some (today clock) ->
  getDailyStats clock (Doc stats) = stats.
Proof. intros H. unfold getDailyStats. now rewrite decide_True. Qed.

(** An update writes what [getDailyStats] reads, with the send counted. *)
Lemma update_from_reading status clock now statsFile :
  statsFile <> Corrupt -> today now = today clock ->
  fst (_updateDailyStats status now statsFile)
  = Doc (if countsAsSent status
         then countSend (hours now) (getDailyStats clock statsFile)
         else getDailyStats clock statsFile).
Proof.
  intros Hfile Hday. unfold _updateDailyStats, getDailyStats.
  rewrite Hday.
  destruct statsFile as [| |stats]; [|congruence|]; simpl.
  - repeat case_decide; try discriminate; reflexivity.
  - case_decide; reflexivity.
Qed.

Lemma hourKey_inj_24 h1 h2 :
  h1 < 24 -> h2 < 24 -> hourKey h1 = hourKey h2 -> h1 = h2.
Proof.
  intros H1 H2 Heq.
  assert (G : forallb (fun a =>
                forallb (fun b =>
                  implb (bool_decide (hourKey a = hourKey b)) (a =? b)%nat)
                  (seq 0 24)) (seq 0 24) = true) by (vm_compute; reflexivity).
  rewrite forallb_forall in G.
  specialize (G h1). rewrite forallb_forall in G.
  assert (Hin1 : In h1 (seq 0 24)) by (apply in_seq; lia).
  assert (Hin2 : In h2 (seq 0 24)) by (apply in_seq; lia).
  specialize (G Hin1 h2 Hin2).
  rewrite bool_decide_eq_true_2 in G by exact Heq.
  now apply Nat.eqb_eq in G.
Qed.

Lemma update_counts status clock now statsFile :
  statsFile <> Corrupt -> today now = today clock ->
  fst (_updateDailyStats status now statsFile) <> Corrupt
  /\ sentToday clock (fst (_updateDailyStats status now statsFile))
     = sentToday clock statsFile + (if countsAsSent status then 1 else 0)
  /\ (hours now < 24 ->
      forall h, h < 24 ->
        sentInHour clock (fst (_updateDailyStats status now statsFile)) h
        = sentInHour clock statsFile h
          + (if countsAsSent status && (hours now =? h)%nat then 1 else 0)).
Proof.
  intros Hfile Hday.
  rewrite (update_from_reading status clock now statsFile Hfile Hday).
  split; [discriminate|].
  unfold sentToday, sentInHour.
  pose proof (getDailyStats_date clock statsFile) as Hdate.
  destruct (countsAsSent status); cbv iota.
  - rewrite getDailyStats_Doc by exact Hdate. simpl. split; [reflexivity|].
    intros Hnow h Hh. destruct (Nat.eqb_spec (hours now) h) as [->|Hne].
    + now rewrite lookup_insert_eq.
    + rewrite lookup_insert_ne; [now rewrite Nat.add_0_r|].
      intros E. apply Hne. now apply hourKey_inj_24.
  - rewrite getDailyStats_Doc by exact Hdate.
    split; [now rewrite Nat.add_0_r|].
    intros _ h _. simpl. now rewrite Nat.add_0_r.
Qed.

Lemma recordAll_counts clock updates :
  forall statsFile,
    statsFile <> Corrupt ->
    Forall (fun u => today (snd u) = today clock) updates ->
    (updates <> [] -> recordAll updates statsFile <> Corrupt)
    /\ sentToday clock (recordAll updates statsFile)
       = sentToday clock statsFile + sentCount updates
    /\ (Forall (fun u => hours (snd u) < 24) updates ->
        forall h, h < 24 ->
          sentInHour clock (recordAll updates statsFile) h
          = sentInHour clock statsFile h + sentAt h updates).
Proof.
  induction updates as [|[status now] updates IH]; intros statsFile Hfile Hday.
  - simpl. unfold sentCount, sentAt. simpl.
    repeat split; [congruence | lia | intros; lia].
  - apply Forall_cons in Hday as [Hnow Hday]. simpl in Hnow.
    destruct (update_counts status clock now statsFile Hfile Hnow)
      as (Hf & Ht & Hh).
    destruct (IH _ Hf Hday) as (_ & Ht' & Hh').
    unfold recordAll in *. simpl.
    split; [|split].
    + intros _. destruct updates as [|u l]; [exact Hf|].
      apply (IH _ Hf Hday). discriminate.
    + rewrite Ht', Ht. unfold sentCount. simpl.
      destruct (countsAsSent status); simpl; lia.
    + intros Hhours h Hlt. apply Forall_cons in Hhours as [H1 H2].
      simpl in H1. rewrite (Hh' H2 h Hlt), (Hh H1 h Hlt).
      unfold sentAt. simpl.
      destruct (countsAsSent status && (hours now =? h)%nat); simpl; lia.
Qed.

(** X17. Every update of the day is accounted for: the total the dashboard
    reads grows by the updates that count as a send, and the chart entry
    of each hour by those of that hour. *)
Theorem daily_stats_accumulate clock updates statsFile :
  statsFile <> Corrupt ->
  Forall (fun u => today (snd u) = today clock /\ hours (snd u) < 24)
         updates ->
  sentToday clock (recordAll updates statsFile)
  = sentToday clock statsFile + sentCount updates
  /\ forall h,
       h < 24 ->
       hourlyChart clock (recordAll updates statsFile) !! h
       = Some (mkChartPoint (hourKey h)
                 (sentInHour clock statsFile h + sentAt h updates)).
Proof.
  intros Hfile Hall.
  assert (H1 : Forall (fun u => today (snd u) = today clock) updates)
    by (eapply Forall_impl; [exact Hall | now intros u [? ?]]).
  assert (H2 : Forall (fun u => hours (snd u) < 24) updates)
    by (eapply Forall_impl; [exact Hall | now intros u [? ?]]).
  destruct (recordAll_counts clock updates statsFile Hfile H1)
    as (_ & Ht & Hh).
  split; [exact Ht|]. intros h Hlt.
  unfold hourlyChart. cbv zeta. rewrite list_lookup_fmap.
  rewrite lookup_seq_lt by exact Hlt. simpl. f_equal. f_equal.
  apply (Hh H2 h Hlt).
Qed.

Lemma sum_indicator x a n :
  sum_list (map (fun h => if (x =? h)%nat then 1 else 0) (seq a n))
  = if (a <=? x)%nat && (x <? a + n)%nat then 1 else 0.
Proof.
  revert a. induction n as [|n IH]; intros a; simpl.
  - destruct (Nat.leb_spec a x), (Nat.ltb_spec x (a + 0)); simpl; lia.
  - rewrite IH.
    destruct (Nat.eqb_spec x a), (Nat.leb_spec a x), (Nat.leb_spec (S a) x),
      (Nat.ltb_spec x (S a + n)), (Nat.ltb_spec x (a + S n)); simpl; lia.
Qed.

Lemma sum_list_plus {A} (f g : A -> nat) l :
  sum_list (map (fun x => f x + g x) l)
  = sum_list (map f l) + sum_list (map g l).
Proof. induction l as [|x l IH]; simpl; lia. Qed.

Lemma sentAt_cons h status now updates :
  sentAt h ((status, now) :: updates)
  = (if countsAsSent status && (hours now =? h)%nat then 1 else 0)
    + sentAt h updates.
Proof.
  unfold sentAt. simpl.
  destruct (countsAsSent status && (hours now =? h)%nat); reflexivity.
Qed.

Lemma sentCount_cons status now updates :
  sentCount ((status, now) :: updates)
  = (if countsAsSent status then 1 else 0) + sentCount updates.
Proof. unfold sentCount. simpl. destruct (countsAsSent status); reflexivity. Qed.

Lemma sentAt_sum updates :
  Forall (fun u => hours (snd u) < 24) updates ->
  sum_list (map (fun h => sentAt h updates) (seq 0 24)) = sentCount updates.
Proof.
  induction updates as [|[status now] updates IH]; intros Hall.
  - vm_compute. reflexivity.
  - apply Forall_cons in Hall as [Hnow Hall]. simpl in Hnow.
    rewrite (map_ext _
               (fun h => (if countsAsSent status && (hours now =? h)%nat
                          then 1 else 0) + sentAt h updates))
      by (intros h; apply sentAt_cons).
    rewrite (sum_list_plus
               (fun h => if countsAsSent status && (hours now =? h)%nat
                         then 1 else 0)
               (fun h => sentAt h updates)).
    rewrite (IH Hall), sentCount_cons. f_equal.
    destruct (countsAsSent status).
    + rewrite (map_ext _ (fun h => if (hours now =? h)%nat then 1 else 0))
        by reflexivity.
      rewrite sum_indicator.
      destruct (Nat.leb_spec 0 (hours now)),
        (Nat.ltb_spec (hours now) (0 + 24)); simpl; lia.
    + generalize (seq 0 24). intros l. induction l; simpl; auto.
Qed.

(** X18. Starting from a file with no record of the day, the chart has one
    entry per hour of the day, in order, and its entries add up to the
    total sent today, which is the number of counted updates. *)
Theorem chart_sums_to_total clock updates statsFile :
  staleFor clock statsFile ->
  Forall (fun u => today (snd u) = today clock /\ hours (snd u) < 24)
         updates ->
  map cp_hour (hourlyChart clock (recordAll updates statsFile))
  = map hourKey (seq 0 24)
  /\ sum_list (map cp_sent (hourlyChart clock (recordAll updates statsFile)))
     = sentCount updates
  /\ sentToday clock (recordAll updates statsFile) = sentCount updates.
Proof.
  intros Hstale Hall.
  assert (Hfile : statsFile <> Corrupt)
    by (intros ->; exact Hstale).
  assert (H1 : Forall (fun u => today (snd u) = today clock) updates)
    by (eapply Forall_impl; [exact Hall | now intros u [? ?]]).
  assert (H2 : Forall (fun u => hours (snd u) < 24) updates)
    by (eapply Forall_impl; [exact Hall | now intros u [? ?]]).
  destruct (recordAll_counts clock updates statsFile Hfile H1)
    as (_ & Ht & Hh).
  assert (Hfresh : getDailyStats clock statsFile = freshStats (today clock)).
  { unfold getDailyStats. destruct statsFile as [| |stats]; try reflexivity.
    simpl in Hstale. now rewrite decide_False. }
  assert (Ht0 : sentToday clock statsFile = 0)
    by (unfold sentToday; now rewrite Hfresh).
  assert (Hh0 : forall h, sentInHour clock statsFile h = 0)
    by (intros h; unfold sentInHour; now rewrite Hfresh).
  split; [|split].
  - unfold hourlyChart. cbv zeta. rewrite map_map. reflexivity.
  - rewrite <- (sentAt_sum updates H2).
    unfold hourlyChart. cbv zeta. rewrite map_map.
    f_equal. apply map_ext_in. intros h Hin. apply in_seq in Hin.
    cbn [cp_sent].
    change (sentInHour clock (recordAll updates statsFile) h
            = sentAt h updates).
    rewrite (Hh H2 h) by lia. now rewrite Hh0.
  - now rewrite Ht, Ht0.
Qed.

Section Runs.

Variable spintaxParse : string -> string.
Variable createContactId : Z -> string.
Variable buildCorrelationId : string -> string -> option string -> string.
Variable formatCorrelationTag : string -> string.

Local Abbreviation processContact :=
  (processContact spintaxParse createContactId buildCorrelationId
                  formatCorrelationTag).
Local Abbreviation processLoop :=
  (processLoop spintaxParse createContactId buildCorrelationId
               formatCorrelationTag).
Local Abbreviation startCampaign :=
  (startCampaign spintaxParse createContactId buildCorrelationId
                 formatCorrelationTag).
Local Abbreviation contactPayload :=
  (contactPayload createContactId buildCorrelationId).
Local Abbreviation stepOutcome :=
  (stepOutcome spintaxParse createContactId buildCorrelationId).
Local Abbreviation failuresFrom :=
  (failuresFrom spintaxParse createContactId buildCorrelationId).

(** The stats update a turn of the loop makes for an outcome. *)
Definition sendOf (env : StepEnv) (o : outcome DispatchResult)
  : list (Status * Clock) :=
  match o with
  | Returned result => [(status result, clock env)]
  | Threw _ => []
  end.

(** The stats updates of the loop over [toProcess], from index [i] on. *)
Fixpoint sendsFrom (campaign messageTemplate : string)
         (delayConfig : DelayConfig) (env : nat -> StepEnv) (i : nat)
         (toProcess : list Contact) : list (Status * Clock) :=
  match toProcess with
  | [] => []
  | contact :: rest =>
      (sendOf (env i)
         (stepOutcome campaign messageTemplate delayConfig env i contact)
       ++ sendsFrom campaign messageTemplate delayConfig env (S i) rest)%list
  end.

Lemma processContact_stats campaign messageTemplate delayConfig n i env
      contact state w :
  statsFile
    (snd (processContact campaign messageTemplate delayConfig n i env contact
            state w))
  = recordAll
      (sendOf env
         (snd (dispatch spintaxParse (dispatchEnv env)
                 (contactPayload campaign messageTemplate delayConfig env
                    contact))))
      (statsFile w).
Proof.
  unfold CampaignManager.processContact.
  fold (contactPayload campaign messageTemplate delayConfig env contact).
  pose proof (dispatch_status spintaxParse (dispatchEnv env)
                (contactPayload campaign messageTemplate delayConfig env
                   contact)) as Hstatus.
  destruct (dispatch spintaxParse (dispatchEnv env)
              (contactPayload campaign messageTemplate delayConfig env
                 contact))
    as [trace [result|message]]; simpl in Hstatus |- *.
  - specialize (Hstatus result eq_refl).
    rewrite decide_True by tauto.
    destruct (delays result) as [d|];
      [destruct (negb (i =? n - 1)%nat && (0 <? wait d)%Z)|]; reflexivity.
  - destruct (truthy (newMessageId env)); reflexivity.
Qed.

Lemma recordAll_app l1 l2 f :
  recordAll (l1 ++ l2)%list f = recordAll l2 (recordAll l1 f).
Proof. unfold recordAll. apply fold_left_app. Qed.

Lemma processLoop_stats campaign messageTemplate delayConfig n env :
  (forall j, pauseRequested (env j) = false) ->
  forall toProcess i state w,
    isPaused w = false ->
    statsFile
      (snd (processLoop campaign messageTemplate delayConfig n env i
              toProcess state w))
    = recordAll (sendsFrom campaign messageTemplate delayConfig env i
                   toProcess)
                (statsFile w).
Proof.
  intros Hrun. induction toProcess as [|contact rest IH];
    intros i state w Hpaused; simpl; [reflexivity|].
  rewrite Hpaused, Hrun. simpl.
  pose proof (processContact_rows spintaxParse createContactId
                buildCorrelationId formatCorrelationTag campaign
                messageTemplate delayConfig n i (env i) contact state w)
    as (_ & _ & _ & Hq).
  pose proof (processContact_stats campaign messageTemplate delayConfig n i
                (env i) contact state w) as Hs.
  destruct (processContact campaign messageTemplate delayConfig n i (env i)
              contact state w) as [state1 w1].
  simpl in Hq, Hs. rewrite IH by congruence.
  rewrite Hs, recordAll_app. reflexivity.
Qed.

(** Of the contacts the loop handles, those not failed are the sends it
    has counted. *)
Lemma sends_and_failures campaign messageTemplate delayConfig env :
  forall toProcess i,
    sentCount (sendsFrom campaign messageTemplate delayConfig env i toProcess)
    + List.length
        (failuresFrom campaign messageTemplate delayConfig env i toProcess)
    = List.length toProcess
    /\ Forall (fun u => exists j, snd u = clock (env j))
              (sendsFrom campaign messageTemplate delayConfig env i
                 toProcess).
Proof.
  induction toProcess as [|contact rest IH]; intros i; simpl.
  - split; [reflexivity | constructor].
  - destruct (IH (S i)) as [Hn Hc].
    unfold CampaignManagerFacts.stepOutcome.
    pose proof (dispatch_status spintaxParse (dispatchEnv (env i))
                  (contactPayload campaign messageTemplate delayConfig
                     (env i) contact)) as Hstatus.
    destruct (snd (dispatch spintaxParse (dispatchEnv (env i))
                     (contactPayload campaign messageTemplate delayConfig
                        (env i) contact))) as [result|message]; simpl.
    + split.
      * rewrite sentCount_cons.
        destruct (Hstatus result eq_refl) as [-> | ->]; simpl; lia.
      * constructor; [now exists i | exact Hc].
    + split; [lia | exact Hc].
Qed.

(** X19. A full run is accounted for in the daily statistics: the total sent
    today grows by the contacts handled that did not fail. *)
Theorem run_counted_in_daily_stats excelPath messageTemplate originalFilename
        options env w contacts now :
  parse env excelPath originalFilename = Returned contacts ->
  waitForReady env = Returned tt ->
  (forall i, pauseRequested (steps env i) = false) ->
  statsFile w <> Corrupt ->
  (forall i, today (clock (steps env i)) = today now) ->
  sentToday now
    (statsFile
       (fst (startCampaign excelPath messageTemplate originalFilename options
               env w)))
  + List.length
      (failuresFrom (chooseCampaignId options env) messageTemplate
         (delayConfigOf options) (steps env) 0
         (unprocessed
            (startingState excelPath messageTemplate originalFilename options
               env w) contacts))
  = sentToday now (statsFile w)
    + List.length
        (unprocessed
           (startingState excelPath messageTemplate originalFilename options
              env w) contacts).
Proof.
  intros Hparse Hready Hrun Hfile Hday.
  rewrite (CampaignRuns.startCampaign_parsed spintaxParse createContactId
             buildCorrelationId formatCorrelationTag _ _ _ _ _ _ _ Hparse).
  cbv zeta.
  set (state0 := startingState _ _ _ _ _ _) in *.
  set (toProcess := unprocessed state0 contacts) in *.
  rewrite Hready.
  replace (if (0 <? List.length toProcess)%nat then Returned tt
           else Returned tt) with (@Returned unit tt)
    by now destruct (0 <? List.length toProcess)%nat.
  set (state1 := setTotalContacts (List.length contacts) state0).
  set (w1 := setPaused false _).
  pose proof (processLoop_stats (chooseCampaignId options env)
                messageTemplate (delayConfigOf options)
                (List.length toProcess) (steps env) Hrun toProcess 0 state1
                w1 eq_refl) as Hs.
  destruct (sends_and_failures (chooseCampaignId options env) messageTemplate
              (delayConfigOf options) (steps env) toProcess 0) as [Hn Hc].
  cbn [fst statsFile _emitEvent]. rewrite Hs.
  change (statsFile w1) with (statsFile w).
  destruct (recordAll_counts now
              (sendsFrom (chooseCampaignId options env) messageTemplate
                 (delayConfigOf options) (steps env) 0 toProcess)
              (statsFile w) Hfile) as (_ & Ht & _).
  { eapply Forall_impl; [exact Hc|]. intros u [j ->]. apply Hday. }
  rewrite Ht. lia.
Qed.

(** X20. After a full run over contacts with distinct rows the status route
    reports no active campaign and a queue that is through: the total is
    the number of contacts and the count of processed rows is no less; the
    two are equal when the run started with nothing processed. *)
Theorem status_after_full_run excelPath messageTemplate originalFilename
        options env w contacts now :
  parse env excelPath originalFilename = Returned contacts ->
  waitForReady env = Returned tt ->
  (forall i, pauseRequested (steps env i) = false) ->
  NoDup (map row contacts) ->
  contacts <> [] ->
  active_campaigns
    (getStatus now
       (fst (startCampaign excelPath messageTemplate originalFilename options
               env w))) = 0
  /\ queue_total
       (getStatus now
          (fst (startCampaign excelPath messageTemplate originalFilename
                  options env w))) = List.length contacts
  /\ List.length contacts
     <= queue_current
          (getStatus now
             (fst (startCampaign excelPath messageTemplate originalFilename
                     options env w)))
  /\ (processedRows
        (startingState excelPath messageTemplate originalFilename options
           env w) = [] ->
      queue_current
        (getStatus now
           (fst (startCampaign excelPath messageTemplate originalFilename
                   options env w))) = List.length contacts).
Proof.
  intros Hparse Hready Hrun Hnd Hne.
  rewrite (CampaignRuns.startCampaign_parsed spintaxParse createContactId
             buildCorrelationId formatCorrelationTag _ _ _ _ _ _ _ Hparse).
  cbv zeta.
  set (state0 := startingState _ _ _ _ _ _) in *.
  set (toProcess := unprocessed state0 contacts) in *.
  rewrite Hready.
  replace (if (0 <? List.length toProcess)%nat then Returned tt
           else Returned tt) with (@Returned unit tt)
    by now destruct (0 <? List.length toProcess)%nat.
  set (state1 := setTotalContacts (List.length contacts) state0).
  set (w1 := setPaused false _).
  pose proof (processLoop_rows spintaxParse createContactId
                buildCorrelationId formatCorrelationTag
                (chooseCampaignId options env) messageTemplate
                (delayConfigOf options) (List.length toProcess) (steps env)
                Hrun toProcess 0 state1 w1 eq_refl (conj eq_refl eq_refl))
    as (Hp & _ & Hr).
  pose proof (processLoop_recorded spintaxParse createContactId
                buildCorrelationId formatCorrelationTag
                (chooseCampaignId options env) messageTemplate
                (delayConfigOf options) (List.length toProcess) (steps env)
                toProcess 0 state1 w1 (conj eq_refl eq_refl))
    as (_ & _ & Ht).
  destruct (processLoop _ _ _ _ _ _ _ _ _) as [state' w'].
  simpl in Hp, Hr, Ht. destruct Hr as [Hcur _].
  assert (Hlen : List.length contacts
                 <= List.length (processedRows state')).
  { rewrite Hp, length_app, length_map.
    apply (CampaignRuns.contacts_covered state0 contacts Hnd). }
  assert (Hpos : 0 < List.length contacts)
    by (destruct contacts; [congruence | simpl; lia]).
  assert (Hblank : processedRows state0 = [] ->
                   List.length (processedRows state')
                   = List.length contacts).
  { intros E. rewrite Hp.
    change (List.length (processedRows state0 ++ map row toProcess)%list
            = List.length contacts).
    rewrite E. simpl. rewrite length_map. unfold toProcess.
    now rewrite (unprocessed_blank state0 contacts E). }
  clearbody state0 toProcess state1 w1.
  unfold getStatus, hasActiveCampaign. simpl. rewrite Hcur. simpl.
  rewrite Ht. simpl. repeat split; auto.
  destruct (recordedId state'); [|reflexivity].
  destruct (Nat.eqb_spec (List.length contacts) 0) as [E|_]; [lia|].
  destruct (Nat.ltb_spec (List.length (processedRows state'))
              (List.length contacts)) as [E|_]; [lia|].
  simpl. now rewrite andb_false_r.
Qed.

End Runs.

(** *** Concrete cases *)

Definition morning : Clock := mkClock "2026-03-02T09:15:00.000Z" "2026-03-02" 9.

Definition noon : Clock := mkClock "2026-03-02T12:00:00.000Z" "2026-03-02" 12.

Definition threeUpdates : list (Status * Clock) :=
  [(SENT, morning); (FAILED, noon); (DELIVERED, noon)].

(** Three contacts; the send to the second is rejected. *)
Definition mixedRun : RunEnv :=
  mkRunEnv "camp_generated"
    (fun _ _ => Returned CampaignRuns.threeContacts) (Returned tt)
    (fun i => if (i =? 1)%nat then failingStep
              else CampaignRuns.deliveringStep false i).

Lemma log_history_last_50_witness :
  fold_left adapterEmit
    [log "Iniciando"; queue_update 1 (Some 3); log "Concluido"] []
  = ["Iniciando"; "Concluido"].
Proof.
  apply (log_history_last_50
           [log "Iniciando"; queue_update 1 (Some 3); log "Concluido"] []).
  simpl. lia.
Defined.

Lemma daily_stats_accumulate_witness :
  sentToday noon (recordAll threeUpdates Absent) = 0 + 2
  /\ hourlyChart noon (recordAll threeUpdates Absent) !! 12
     = Some (mkChartPoint "12:00" (0 + 1)).
Proof.
  destruct (daily_stats_accumulate noon threeUpdates Absent) as [Ht Hh].
  - discriminate.
  - repeat constructor.
  - split; [exact Ht | apply (Hh 12); lia].
Defined.

Lemma chart_sums_to_total_witness :
  sum_list (map cp_sent (hourlyChart noon (recordAll threeUpdates Absent)))
  = 2
  /\ sentToday noon (recordAll threeUpdates Absent) = 2.
Proof.
  destruct (chart_sums_to_total noon threeUpdates Absent) as (_ & Hs & Ht).
  - exact I.
  - repeat constructor.
  - split; [exact Hs | exact Ht].
Defined.

Lemma run_counted_in_daily_stats_witness :
  sentToday noon (statsFile (fst (runSam mixedRun freshWorld)))
  + List.length
      (failuresFrom (fun s => s) contactIdOf correlationOf "camp_B"
         "Oi [nome]" (mkDelayConfig None None) (steps mixedRun) 0
         CampaignRuns.threeContacts)
  = 0 + 3.
Proof.
  apply (run_counted_in_daily_stats (fun s => s) contactIdOf correlationOf
           tagOf "b.xlsx" "Oi [nome]" "b.xlsx" CampaignRuns.optionsB mixedRun
           freshWorld CampaignRuns.threeContacts noon eq_refl eq_refl).
  - intros i. simpl. destruct (i =? 1)%nat; reflexivity.
  - discriminate.
  - intros i. simpl. destruct (i =? 1)%nat; reflexivity.
Defined.

Lemma status_after_full_run_witness :
  active_campaigns (getStatus noon (fst (runSam mixedRun freshWorld))) = 0
  /\ queue_total (getStatus noon (fst (runSam mixedRun freshWorld))) = 3
  /\ queue_current (getStatus noon (fst (runSam mixedRun freshWorld))) = 3.
Proof.
  destruct (status_after_full_run (fun s => s) contactIdOf correlationOf
              tagOf "b.xlsx" "Oi [nome]" "b.xlsx" CampaignRuns.optionsB
              mixedRun freshWorld CampaignRuns.threeContacts noon eq_refl
              eq_refl)
    as (Ha & Ht & _ & Hc).
  - intros i. simpl. destruct (i =? 1)%nat; reflexivity.
  - exact CampaignRuns.threeContacts_distinct.
  - discriminate.
  - split; [exact Ha|]. split; [exact Ht | exact (Hc eq_refl)].
Defined.

End ApiServerRoutesFacts.

(** ** Merging session lists: boundaries, unique ids, repeated snapshots
    (Frontend, mergeSessions) *)

Module SessionsMerging.
Import Sessions SessionsFacts.

Lemma mergeLoop_empty previous :
  forall merged,
    fold_left mergeStep previous (merged, [])
    = ((merged ++ List.filter isTemp previous)%list, []).
Proof.
  induction previous as [|s l IH]; intros merged; simpl.
  - now rewrite app_nil_r.
  - destruct (isTemp s); rewrite IH; [|reflexivity].
    now rewrite <- app_assoc.
Qed.

(** X21. An empty snapshot removes every session except the temporary ones,
    which stay in their order; this holds for any previous list. *)
Theorem mergeSessions_empty_snapshot previous :
  mergeSessions previous [] = List.filter isTemp previous.
Proof.
  unfold mergeSessions. simpl. rewrite mergeLoop_empty. simpl.
  now rewrite app_nil_r.
Qed.

Lemma reconcile_id incoming s r : reconcile incoming s = Some r -> id r = id s.
Proof.
  unfold reconcile. destruct (findById (id s) incoming) as [u|] eqn:E.
  - intros [= <-]. simpl. now apply findById_Some in E as [_ ?].
  - destruct (isTemp s); [|discriminate]. now intros [= <-].
Qed.

Lemma reconciled_ids incoming previous :
  map id (omap (reconcile incoming) previous) `sublist_of` map id previous.
Proof.
  induction previous as [|s l IH]; simpl; [constructor|].
  destruct (reconcile incoming s) as [r|] eqn:E; simpl.
  - rewrite (reconcile_id _ _ _ E). now apply sublist_skip.
  - now apply sublist_cons.
Qed.

Lemma filter_sublist {A} (f : A -> bool) (l : list A) :
  List.filter f l `sublist_of` l.
Proof.
  induction l as [|x l IH]; simpl; [constructor|].
  destruct (f x); [now apply sublist_skip | now apply sublist_cons].
Qed.

Lemma spec_ids_distinct previous incoming :
  NoDup (map id previous) -> NoDup (map id incoming) ->
  NoDup (map id (mergeSessions_spec previous incoming)).
Proof.
  intros Hprev Hinc. unfold mergeSessions_spec. rewrite map_app.
  apply NoDup_app. split; [|split].
  - apply (sublist_NoDup _ (map id previous)); [exact Hprev|].
    apply reconciled_ids.
  - intros k Hk Hk'.
    pose proof (elem_of_sublist _ _ _ Hk (reconciled_ids incoming previous))
      as Hp.
    apply list_elem_of_In, in_map_iff in Hk' as (s & <- & Hs).
    apply filter_In in Hs as [_ Hs].
    apply negb_true_iff, bool_decide_eq_false in Hs. contradiction.
  - apply (sublist_NoDup _ (map id incoming)); [exact Hinc|].
    apply (fmap_sublist id), filter_sublist.
Qed.

(** X22. With distinct ids on both sides, the merged list has distinct ids
    too, and they are ids of the previous list or of the snapshot. *)
Theorem mergeSessions_ids_distinct previous incoming :
  NoDup (map id previous) -> NoDup (map id incoming) ->
  NoDup (map id (mergeSessions previous incoming))
  /\ forall r, In r (mergeSessions previous incoming) ->
               id r ∈ map id previous \/ id r ∈ map id incoming.
Proof.
  intros Hprev Hinc. rewrite (mergeSessions_refines _ _ Hprev Hinc).
  split; [now apply spec_ids_distinct|].
  intros r Hr. unfold mergeSessions_spec in Hr.
  apply in_app_or in Hr as [Hr|Hr].
  - left. eapply elem_of_sublist.
    2: apply (reconciled_ids incoming).
    apply list_elem_of_In. now apply in_map.
  - right. apply filter_In in Hr as [Hr _].
    apply list_elem_of_In. now apply in_map.
Qed.

Lemma findById_NoDup l s :
  NoDup (map id l) -> In s l -> findById (id s) l = Some s.
Proof.
  unfold findById. induction l as [|a l IH]; intros Hnd Hin; [destruct Hin|].
  simpl in Hnd. apply NoDup_cons in Hnd as [Ha Hl]. simpl.
  destruct Hin as [->|Hin].
  - now rewrite bool_decide_eq_true_2.
  - rewrite bool_decide_eq_false_2; [now apply IH|].
    intros E. apply Ha. rewrite E. apply list_elem_of_In. now apply in_map.
Qed.

Lemma omap_fixed {A} (f : A -> option A) (l : list A) :
  (forall x, In x l -> f x = Some x) -> omap f l = l.
Proof.
  induction l as [|x l IH]; intros H; simpl; [reflexivity|].
  rewrite (H x) by now left. simpl. f_equal. apply IH.
  intros y Hy. apply H. now right.
Qed.

Lemma filter_none {A} (f : A -> bool) (l : list A) :
  (forall x, In x l -> f x = false) -> List.filter f l = [].
Proof.
  induction l as [|x l IH]; intros H; simpl; [reflexivity|].
  rewrite (H x) by now left. apply IH. intros y Hy. apply H. now right.
Qed.

Lemma spread_again s u : spread (spread s u) u = spread s u.
Proof.
  unfold spread. simpl. f_equal.
  rewrite (assoc_L (∪)). now rewrite (idemp_L (∪)).
Qed.

Lemma spread_self s : spread s s = s.
Proof. destruct s as [k m]. unfold spread. simpl. now rewrite (idemp_L (∪)). Qed.

(** X23. Merging the same snapshot a second time changes nothing: a poll that
    brings no news leaves the list as it is. *)
Theorem mergeSessions_idempotent previous incoming :
  NoDup (map id previous) -> NoDup (map id incoming) ->
  mergeSessions (mergeSessions previous incoming) incoming
  = mergeSessions previous incoming.
Proof.
  intros Hprev Hinc.
  rewrite (mergeSessions_refines previous incoming Hprev Hinc).
  rewrite (mergeSessions_refines _ incoming
             (spec_ids_distinct _ _ Hprev Hinc) Hinc).
  set (merged := mergeSessions_spec previous incoming).
  unfold mergeSessions_spec at 1.
  assert (Hcover : forall s, In s incoming -> id s ∈ map id merged).
  { intros s Hs. unfold merged, mergeSessions_spec. rewrite map_app.
    apply elem_of_app.
    destruct (decide (id s ∈ map id previous)) as [Hin|Hout].
    - left. apply list_elem_of_In, in_map_iff in Hin as (s0 & Hid & Hs0).
      apply list_elem_of_In, in_map_iff.
      destruct (findById (id s0) incoming) as [u|] eqn:E.
      + exists (spread s0 u). split.
        * simpl. apply findById_Some in E as [_ ->]. exact Hid.
        * apply list_elem_of_In, list_elem_of_omap. exists s0.
          split; [now apply list_elem_of_In|].
          unfold reconcile. now rewrite E.
      + exfalso. rewrite Hid in E.
        rewrite (findById_NoDup incoming s Hinc Hs) in E. discriminate.
    - right. apply list_elem_of_In, in_map. apply filter_In.
      split; [exact Hs|].
      apply negb_true_iff, bool_decide_eq_false. exact Hout. }
  rewrite filter_none.
  2:{ intros s Hs. apply negb_false_iff, bool_decide_eq_true.
      now apply Hcover. }
  rewrite app_nil_r. apply omap_fixed.
  intros r Hr. unfold merged, mergeSessions_spec in Hr.
  apply in_app_or in Hr as [Hr|Hr].
  - apply list_elem_of_In, list_elem_of_omap in Hr as (s & Hs & Hrec).
    unfold reconcile in Hrec |- *.
    destruct (findById (id s) incoming) as [u|] eqn:E.
    + injection Hrec as <-. simpl.
      pose proof (findById_Some _ _ _ E) as [_ Hid]. rewrite Hid, E.
      now rewrite spread_again.
    + destruct (isTemp s) eqn:Et; [|discriminate]. injection Hrec as <-.
      now rewrite E, Et.
  - apply filter_In in Hr as [Hr _]. unfold reconcile.
    rewrite (findById_NoDup incoming r Hinc Hr). now rewrite spread_self.
Qed.

Lemma mergeSessions_ids_distinct_witness :
  NoDup (map id (mergeSessions [chipOnline; chipPending] [chipOnline; chipNew])).
Proof.
  apply (mergeSessions_ids_distinct [chipOnline; chipPending]
           [chipOnline; chipNew]).
  - apply (bool_decide_unpack _). vm_compute. exact I.
  - apply (bool_decide_unpack _). vm_compute. exact I.
Defined.

Lemma mergeSessions_idempotent_witness :
  mergeSessions (mergeSessions [chipOnline; chipPending] [chipOnline; chipNew])
                [chipOnline; chipNew]
  = mergeSessions [chipOnline; chipPending] [chipOnline; chipNew].
Proof.
  apply (mergeSessions_idempotent [chipOnline; chipPending]
           [chipOnline; chipNew]).
  - apply (bool_decide_unpack _). vm_compute. exact I.
  - apply (bool_decide_unpack _). vm_compute. exact I.
Defined.

End SessionsMerging.

Module FileLockHelperFacts.
Import TemplateEngine FileLockHelper.

(** A try that fails on a lock: the only failure the loop waits out. *)
Definition locked (t : ReadTry) : bool :=
  match t with
  | ReadFailed code _ => isLockError code
  | _ => false
  end.

Section Json.

Variable Json : Type.
Variable parseJson : string -> outcome (option Json).

Local Abbreviation readOnce := (readOnce Json parseJson).
Local Abbreviation safeReadFrom := (safeReadFrom Json parseJson).
Local Abbreviation safeReadJson := (safeReadJson Json parseJson).

(** What a try decides when the loop does not go on after it. *)
Definition decided (t : ReadTry) : outcome (option Json) :=
  match readOnce t with
  | inl value => Returned value
  | inr (_, message) => Threw message
  end.

Lemma readOnce_locked t :
  locked t = true ->
  exists code message, readOnce t = inr (code, message)
                       /\ isLockError code = true.
Proof.
  destruct t as [|content|code message]; simpl; try discriminate.
  intros H. now exists code, message.
Qed.

Lemma readOnce_unlocked t code message :
  locked t = false -> readOnce t = inr (code, message) ->
  isLockError code = false.
Proof.
  destruct t as [|content|c m]; simpl.
  - discriminate.
  - intros _.
    destruct (negb (truthy content) || (String.length (trim content) =? 0)%nat);
      [now intros [= <- _]|].
    destruct (parseJson content); [discriminate | now intros [= <- _]].
  - intros H [= <- _]. exact H.
Qed.

Lemma safeReadFrom_outcome tries :
  forall k remaining i,
    k < remaining ->
    (forall j, j < k -> locked (tries (i + j)) = true) ->
    S k = remaining \/ locked (tries (i + k)) = false ->
    safeReadFrom tries remaining i = (k, decided (tries (i + k))).
Proof.
  induction k as [|k IH]; intros remaining i Hk Hlocked Hlast.
  - destruct remaining as [|remaining']; [lia|]. simpl.
    rewrite Nat.add_0_r in *. unfold decided.
    destruct (readOnce (tries i)) as [value|[code message]] eqn:E;
      [reflexivity|].
    destruct Hlast as [Hlast|Hlast].
    + injection Hlast as <-. reflexivity.
    + rewrite (readOnce_unlocked _ _ _ Hlast E).
      now destruct (remaining' =? 0)%nat.
  - destruct remaining as [|remaining']; [lia|]. simpl.
    destruct (readOnce_locked (tries i)) as (code & message & E & Hcode).
    { rewrite <- (Nat.add_0_r i). apply Hlocked. lia. }
    change (FileLockHelper.readOnce Json parseJson (tries i))
      with (readOnce (tries i)).
    rewrite E, Hcode.
    destruct (Nat.eqb_spec remaining' 0) as [->|_]; [lia|].
    rewrite (IH remaining' (S i)).
    + now replace (S i + k) with (i + S k) by lia.
    + lia.
    + intros j Hj. replace (S i + j) with (i + S j) by lia.
      apply Hlocked. lia.
    + replace (S i + k) with (i + S k) by lia.
      destruct Hlast as [Hlast|Hlast]; [left; lia | now right].
Qed.

(** X24. [safeReadJson] waits out lock errors only: the result is decided by
    the first try that is not stopped by a lock, or by the last try when
    all are, after one wait for each try before it. *)
Theorem safeReadJson_outcome tries retries k :
  k < retries ->
  (forall j, j < k -> locked (tries j) = true) ->
  S k = retries \/ locked (tries k) = false ->
  safeReadJson tries retries = (k, decided (tries k)).
Proof.
  intros Hk Hlocked Hlast. unfold FileLockHelper.safeReadJson.
  apply (safeReadFrom_outcome tries k retries 0 Hk); assumption.
Qed.

Lemma safeReadFrom_null tries :
  forall remaining i,
    0 < remaining ->
    snd (safeReadFrom tries remaining i) = Returned None ->
    exists k,
      k < remaining
      /\ (tries (i + k) = NoFile
          \/ exists content,
               tries (i + k) = Content content
               /\ parseJson content = Returned None).
Proof.
  induction remaining as [|remaining' IH]; intros i Hpos; [lia|]. simpl.
  destruct (tries i) as [|content|code message] eqn:Et; simpl.
  - intros _. exists 0. rewrite Nat.add_0_r. split; [lia | now left].
  - destruct (negb (truthy content) || (String.length (trim content) =? 0)%nat).
    + destruct (remaining' =? 0)%nat; discriminate.
    + destruct (parseJson content) as [value|message] eqn:Ep.
      * simpl. intros [= ->]. exists 0. rewrite Nat.add_0_r.
        split; [lia|]. right. now exists content.
      * destruct (remaining' =? 0)%nat; discriminate.
  - destruct (Nat.eqb_spec remaining' 0) as [->|Hne]; [discriminate|].
    destruct (isLockError code); [|discriminate].
    specialize (IH (S i)).
    destruct (safeReadFrom tries remaining' (S i)) as [waits result].
    simpl in *. intros H. destruct (IH ltac:(lia) H) as (k & Hk & Hfile).
    exists (S k). split; [lia|].
    now replace (i + S k) with (S i + k) by lia.
Qed.

(** X25. [safeReadJson] answers [null] in two cases only: a try found no
    file, or it read a file whose text is the JSON [null].  An empty or
    unparsable file and an error of the read are thrown, never turned
    into [null]. *)
Theorem safeReadJson_null_origin tries retries :
  0 < retries ->
  snd (safeReadJson tries retries) = Returned None ->
  exists k,
    k < retries
    /\ (tries k = NoFile
        \/ exists content,
             tries k = Content content
             /\ parseJson content = Returned None).
Proof.
  intros Hpos H. apply (safeReadFrom_null tries retries 0 Hpos H).
Qed.

(** An unparsable file is not read a second time: the parse error is
    thrown at the first try, without a wait. *)
Lemma safeReadJson_unparsable tries retries content message :
  0 < retries ->
  tries 0 = Content content ->
  String.length (trim content) <> 0 ->
  parseJson content = Threw message ->
  safeReadJson tries retries = (0, Threw ("JSON Parse Error: " +:+ message)).
Proof.
  intros Hpos Ht Hlen Hparse. unfold FileLockHelper.safeReadJson.
  rewrite (safeReadFrom_outcome tries 0 retries 0 Hpos).
  - cbn [Nat.add]. unfold decided. rewrite Ht. simpl.
    assert (Htruthy : truthy content = true).
    { destruct content; [|reflexivity]. now vm_compute in Hlen. }
    rewrite Htruthy. simpl.
    destruct (Nat.eqb_spec (String.length (trim content)) 0); [contradiction|].
    now rewrite Hparse.
  - intros j Hj. lia.
  - right. cbn [Nat.add]. now rewrite Ht.
Qed.

End Json.

(** *** Concrete reads *)

(** A stand-in for [JSON.parse]: objects and [null] only. *)
Definition parseObject (content : string) : outcome (option string) :=
  if String.prefix "{" content then Returned (Some content)
  else if bool_decide (content = "null") then Returned None
  else Threw "Unexpected token".

(** A file that is locked at the first try and readable at the second. *)
Definition lockedOnce (i : nat) : ReadTry :=
  match i with
  | 0 => ReadFailed (Some "EBUSY") "EBUSY: resource busy or locked"
  | _ => Content "{}"
  end.

Lemma safeReadJson_outcome_witness :
  safeReadJson string parseObject lockedOnce 5 = (1, Returned (Some "{}")).
Proof.
  apply (safeReadJson_outcome string parseObject lockedOnce 5 1).
  - lia.
  - intros j Hj. assert (j = 0) as -> by lia. reflexivity.
  - right. reflexivity.
Defined.

(** A file that is locked at the first try and holds [null] at the
    second. *)
Definition nullAfterLock (i : nat) : ReadTry :=
  match i with
  | 0 => ReadFailed (Some "EPERM") "EPERM: operation not permitted"
  | _ => Content "null"
  end.

Lemma safeReadJson_null_origin_witness :
  exists k,
    k < 5
    /\ (nullAfterLock k = NoFile
        \/ exists content,
             nullAfterLock k = Content content
             /\ parseObject content = Returned None).
Proof.
  apply (safeReadJson_null_origin string parseObject nullAfterLock 5).
  - lia.
  - reflexivity.
Defined.

End FileLockHelperFacts.

Module SessionManagerFacts.
Import FileLockHelper FileLockHelperFacts SessionManager.

(** The ids of the sessions, in the order of the map. *)
Definition sessionIds (m : Manager) : list string := map fst (sessions m).

(** The manager's map is a map, every client sits under its own id, and
    the display orders are distinct and below the next one. *)
Definition wellFormed (m : Manager) : Prop :=
  NoDup (sessionIds m)
  /\ NoDup (map (fun e => displayOrder (snd e)) (sessions m))
  /\ Forall (fun e => cl_id (snd e) = fst e
                      /\ displayOrder (snd e) < nextDisplayOrder m)
            (sessions m).

(** The calls that change the manager's map. *)
Inductive Call : Type :=
| Start (id : string)
| Stop (id : string)
| Remove (id : string) (env : RemoveEnv).

Definition call (m : Manager) (c : Call) : Manager :=
  match c with
  | Start id => fst (startSession id m)
  | Stop id => stopSession id m
  | Remove id env => fst (fst (removeSession id env m))
  end.

Lemma getSession_None id m : getSession id m = None <-> id ∉ sessionIds m.
Proof.
  unfold getSession, sessionIds. induction (sessions m) as [|e l IH]; simpl.
  - split; [intros _; apply not_elem_of_nil | reflexivity].
  - case_bool_decide as E; simpl.
    + split; [discriminate|]. intros H. exfalso. apply H. rewrite E. left.
    + rewrite IH. rewrite not_elem_of_cons.
      split; [intros H; split; [congruence | exact H] | now intros [_ H]].
Qed.

Lemma getSession_Some id m client :
  getSession id m = Some client -> In (id, client) (sessions m).
Proof.
  unfold getSession. induction (sessions m) as [|e l IH]; simpl;
    [discriminate|].
  case_bool_decide as E; simpl.
  - intros [= <-]. left. destruct e. simpl in E. now subst.
  - intros H. right. now apply IH.
Qed.

Lemma filter_sub {A} (f : A -> bool) (l : list A) :
  List.filter f l `sublist_of` l.
Proof.
  induction l as [|x l IH]; simpl; [constructor|].
  destruct (f x); [now apply sublist_skip | now apply sublist_cons].
Qed.

Lemma find_snoc {A} (f : A -> bool) (l : list A) (x : A) :
  List.find f (l ++ [x])%list
  = match List.find f l with
    | Some y => Some y
    | None => if f x then Some x else None
    end.
Proof.
  induction l as [|a l IH]; simpl; [reflexivity|].
  destruct (f a); [reflexivity | exact IH].
Qed.

Lemma startSession_wellFormed id m :
  wellFormed m -> wellFormed (fst (startSession id m)).
Proof.
  intros (Hids & Hord & Hall). unfold startSession.
  destruct (getSession id m) as [client|] eqn:E; [now repeat split|].
  apply getSession_None in E. unfold wellFormed, sessionIds in *. simpl.
  rewrite !map_app. simpl. repeat split.
  - apply NoDup_app. split; [exact Hids|]. split.
    + intros k Hk Hin. apply list_elem_of_singleton in Hin. now subst.
    + apply NoDup_singleton.
  - apply NoDup_app. split; [exact Hord|]. split.
    + intros k Hk Hin. apply list_elem_of_singleton in Hin. subst k.
      apply list_elem_of_In, in_map_iff in Hk as (e & He & Hin).
      rewrite Forall_forall in Hall.
      apply list_elem_of_In in Hin. destruct (Hall e Hin) as [_ Hlt]. lia.
    + apply NoDup_singleton.
  - apply Forall_app. split.
    + eapply Forall_impl; [exact Hall|]. intros e [? ?]. split; [auto | lia].
    + constructor; [|constructor]. simpl. split; [reflexivity | lia].
Qed.

Lemma stopSession_wellFormed id m :
  wellFormed m -> wellFormed (stopSession id m).
Proof.
  intros (Hids & Hord & Hall). unfold stopSession.
  destruct (getSession id m) as [client|]; [|now repeat split].
  unfold wellFormed, sessionIds in *. simpl. repeat split.
  - eapply sublist_NoDup; [exact Hids|]. apply (fmap_sublist fst), filter_sub.
  - eapply sublist_NoDup; [exact Hord|].
    apply (fmap_sublist (fun e => displayOrder (snd e))), filter_sub.
  - rewrite Forall_forall in Hall |- *. intros e He. apply Hall.
    apply list_elem_of_In in He. apply filter_In in He as [He _].
    now apply list_elem_of_In.
Qed.

Lemma getSession_stopped id m : getSession id (stopSession id m) = None.
Proof.
  unfold stopSession. destruct (getSession id m) eqn:E; [|exact E].
  unfold getSession. simpl. clear E.
  induction (sessions m) as [|e l IH]; simpl; [reflexivity|].
  case_bool_decide as Ee; simpl; [apply IH|].
  rewrite bool_decide_eq_false_2 by exact Ee. apply IH.
Qed.

Lemma removeSession_manager id env m :
  fst (fst (removeSession id env m)) = stopSession id m.
Proof.
  unfold removeSession.
  destruct (match getSession id m with
            | Some _ =>
                match clearState env with
                | Some (Returned _) => negb (existsAfterClear env)
                | _ => false
                end
            | None => false
            end); [reflexivity|].
  destruct (deleteFrom env 3 0). reflexivity.
Qed.

Lemma call_wellFormed m c : wellFormed m -> wellFormed (call m c).
Proof.
  intros H. destruct c as [id|id|id env]; simpl.
  - now apply startSession_wellFormed.
  - now apply stopSession_wellFormed.
  - rewrite removeSession_manager. now apply stopSession_wellFormed.
Qed.

(** X26. Whatever sessions are started, stopped and removed, in whatever
    order, no id is held twice and no display order is given twice: every
    client has a display order of its own, below the next one. *)
Theorem display_orders_distinct calls :
  wellFormed (fold_left call calls newManager).
Proof.
  assert (G : forall m, wellFormed m -> wellFormed (fold_left call calls m)).
  { induction calls as [|c l IH]; intros m H; simpl; [exact H|].
    apply IH. now apply call_wellFormed. }
  apply G. repeat split; constructor.
Qed.

Lemma deleteFrom_false env :
  forall remaining i,
    snd (deleteFrom env remaining i) = false <->
    (forall j, j < remaining -> exists message, rmTry env (i + j) = Threw message)
    /\ (0 < remaining -> exists message, renameToTrash env = Threw message).
Proof.
  induction remaining as [|remaining' IH]; intros i; simpl.
  - split; [|reflexivity]. intros _. split; intros; lia.
  - destruct (rmTry env i) as [[]|message] eqn:E.
    + split; [discriminate|]. intros [H _].
      destruct (H 0 ltac:(lia)) as [msg Hmsg].
      rewrite Nat.add_0_r in Hmsg. congruence.
    + destruct (Nat.eqb_spec remaining' 0) as [->|Hne].
      * destruct (renameToTrash env) as [[]|msg] eqn:Er; simpl.
        -- split; [discriminate|]. intros [_ H].
           destruct (H ltac:(lia)) as [? ?]. discriminate.
        -- split; [|reflexivity]. intros _. split.
           ++ intros j Hj. assert (j = 0) as -> by lia.
              rewrite Nat.add_0_r. now exists message.
           ++ intros _. now exists msg.
      * specialize (IH (S i)).
        destruct (deleteFrom env remaining' (S i)) as [waited result].
        simpl in *. rewrite IH. split.
        -- intros [H1 H2]. split.
           ++ intros j Hj. destruct j as [|j].
              ** rewrite Nat.add_0_r. now exists message.
              ** rewrite Nat.add_succ_r. apply H1. lia.
           ++ intros _. apply H2. lia.
        -- intros [H1 H2]. split.
           ++ intros j Hj. specialize (H1 (S j) ltac:(lia)).
              now rewrite Nat.add_succ_r in H1.
           ++ intros _. apply H2. lia.
Qed.

(** X27. [removeSession] forgets the session whatever happens to its files:
    the id is gone from the map and the other sessions stay, also when
    the call answers [false].  It answers [false] only when the provider
    did not clear the directory, the three deletes all failed and the
    rename to the trash failed too. *)
Theorem removeSession_forgets id env m :
  getSession id (fst (fst (removeSession id env m))) = None
  /\ (forall other, other <> id ->
        getSession other (fst (fst (removeSession id env m)))
        = getSession other m)
  /\ nextDisplayOrder (fst (fst (removeSession id env m)))
     = nextDisplayOrder m
  /\ (snd (removeSession id env m) = false ->
      (forall j, j < 3 -> exists message, rmTry env j = Threw message)
      /\ (exists message, renameToTrash env = Threw message)
      /\ snd (fst (removeSession id env m)) = 5000%Z).
Proof.
  rewrite removeSession_manager.
  split; [|split; [|split]].
  - apply getSession_stopped.
  - intros other Hother. unfold stopSession.
    destruct (getSession id m); [|reflexivity].
    unfold getSession. simpl. f_equal.
    induction (sessions m) as [|e l IH]; simpl; [reflexivity|].
    case_bool_decide as Ee; simpl.
    + rewrite bool_decide_eq_false_2 by congruence. apply IH.
    + case_bool_decide; [reflexivity | apply IH].
  - unfold stopSession. now destruct (getSession id m).
  - unfold removeSession.
    destruct (match getSession id m with
              | Some _ =>
                  match clearState env with
                  | Some (Returned _) => negb (existsAfterClear env)
                  | _ => false
                  end
              | None => false
              end); [discriminate|].
    pose proof (deleteFrom_false env 3 0) as Hfalse.
    destruct (deleteFrom env 3 0) as [waited result] eqn:Ed. simpl.
    intros ->. simpl in Hfalse. destruct Hfalse as [Hfalse _].
    destruct (Hfalse eq_refl) as [H1 H2].
    split; [exact H1|]. split; [apply H2; lia|].
    destruct (H1 0 ltac:(lia)) as [m0 E0], (H1 1 ltac:(lia)) as [m1 E1],
      (H1 2 ltac:(lia)) as [m2 E2], (H2 ltac:(lia)) as [m3 E3].
    simpl in Ed. rewrite E0, E1, E2, E3 in Ed. simpl in Ed.
    now injection Ed as <-.
Qed.

Section Loading.

Variable Json : Type.
Variable parseJson : string -> outcome (option Json).
Variable isTruthy : Json -> bool.
Variable credsTries : string -> nat -> ReadTry.

Local Abbreviation loadLoop := (loadLoop Json parseJson isTruthy credsTries).
Local Abbreviation loadSessions :=
  (loadSessions Json parseJson isTruthy credsTries).

(** What the read of the [creds.json] of a session gives. *)
Definition credsOf (id : string) : outcome (option Json) :=
  snd (safeReadJson Json parseJson (credsTries id) 5).

(** The credentials are there and usable. *)
Definition usable (id : string) : bool :=
  match credsOf id with
  | Returned (Some creds) => isTruthy creds
  | _ => false
  end.

(** The ids of [ids] the manager has no session for. *)
Definition unknownIds (m : Manager) (ids : list string) : list string :=
  List.filter (fun id => negb (bool_decide (id ∈ sessionIds m))) ids.

Lemma sessionIds_started id m :
  getSession id m = None ->
  sessionIds (fst (startSession id m)) = (sessionIds m ++ [id])%list.
Proof.
  intros E. unfold startSession. rewrite E. unfold sessionIds. simpl.
  now rewrite map_app.
Qed.

Lemma unknownIds_started id m rest :
  getSession id m = None -> id ∉ rest ->
  unknownIds (fst (startSession id m)) rest = unknownIds m rest.
Proof.
  intros E Hout. unfold unknownIds. rewrite (sessionIds_started _ _ E).
  induction rest as [|x l IH]; simpl; [reflexivity|].
  apply not_elem_of_cons in Hout as [Hx Hl].
  rewrite (IH Hl).
  destruct (decide (x ∈ sessionIds m)) as [Hin|Hnot].
  - rewrite !bool_decide_eq_true_2; [reflexivity | exact Hin |].
    apply elem_of_app. now left.
  - rewrite !bool_decide_eq_false_2; [reflexivity | exact Hnot |].
    rewrite elem_of_app, list_elem_of_singleton. intros [?|?]; congruence.
Qed.

(** The loop, when no read throws: the usable unknown sessions are
    started in the order of the listing, the other unknown ones are
    quarantined. *)
Lemma loadLoop_finished ids :
  forall m quarantined,
    NoDup ids ->
    (forall id, In id (unknownIds m ids) ->
                exists creds, credsOf id = Returned creds) ->
    exists m',
      loadLoop ids m quarantined
      = (m',
         (quarantined
          ++ List.filter (fun id => negb (usable id)) (unknownIds m ids))%list,
         true)
      /\ sessionIds m'
         = (sessionIds m ++ List.filter usable (unknownIds m ids))%list
      /\ isLoaded m' = isLoaded m.
Proof.
  induction ids as [|id rest IH]; intros m quarantined Hnd Hreads; simpl.
  - exists m. rewrite !app_nil_r. auto.
  - apply NoDup_cons in Hnd as [Hid Hnd].
    destruct (getSession id m) as [client|] eqn:E.
    + assert (Hin : id ∈ sessionIds m).
      { destruct (decide (id ∈ sessionIds m)) as [?|Hn]; [assumption|].
        apply getSession_None in Hn. congruence. }
      unfold unknownIds in *. simpl in *.
      rewrite bool_decide_eq_true_2 in * by exact Hin. simpl in *.
      now apply IH.
    + pose proof E as Hout. apply getSession_None in Hout.
      unfold unknownIds in Hreads |- *. simpl in Hreads |- *.
      rewrite bool_decide_eq_false_2 in Hreads |- * by exact Hout.
      simpl in Hreads |- *.
      fold (unknownIds m rest) in Hreads |- *.
      destruct (Hreads id (or_introl eq_refl)) as [creds Hcreds].
      assert (Husable : usable id = from_option isTruthy false creds).
      { unfold usable. rewrite Hcreds. now destruct creds. }
      unfold credsOf in Hcreds. rewrite Hcreds. rewrite Husable.
      destruct (from_option isTruthy false creds) eqn:Et; simpl.
      * destruct (IH (fst (startSession id m)) quarantined Hnd)
          as (m' & Hloop & Hids & Hloaded).
        { rewrite (unknownIds_started _ _ _ E Hid).
          intros x Hx. apply Hreads. now right. }
        exists m'. rewrite Hloop, Hids.
        rewrite (unknownIds_started _ _ _ E Hid).
        rewrite (sessionIds_started _ _ E), <- app_assoc. simpl.
        split; [reflexivity|]. split; [reflexivity|].
        rewrite Hloaded. unfold startSession. now rewrite E.
      * destruct (IH m (quarantined ++ [id])%list Hnd)
          as (m' & Hloop & Hids & Hloaded).
        { intros x Hx. apply Hreads. now right. }
        exists m'. rewrite Hloop, Hids, <- app_assoc. simpl. auto.
Qed.

(** The loop up to a read that throws: the sessions before it are
    handled, and the loop stops there without finishing. *)
Lemma loadLoop_aborted before id after message :
  forall m quarantined,
    NoDup (before ++ id :: after)%list ->
    (forall x, In x (unknownIds m before) ->
               exists creds, credsOf x = Returned creds) ->
    id ∉ sessionIds m ->
    credsOf id = Threw message ->
    exists m',
      loadLoop (before ++ id :: after)%list m quarantined
      = (m',
         (quarantined
          ++ List.filter (fun x => negb (usable x))
                         (unknownIds m before))%list,
         false)
      /\ sessionIds m'
         = (sessionIds m ++ List.filter usable (unknownIds m before))%list
      /\ isLoaded m' = isLoaded m.
Proof.
  induction before as [|b rest IH]; intros m quarantined Hnd Hreads Hid Hthrow;
    simpl.
  - apply getSession_None in Hid. rewrite Hid.
    unfold credsOf in Hthrow. rewrite Hthrow.
    exists m. rewrite !app_nil_r. auto.
  - simpl in Hnd. apply NoDup_cons in Hnd as [Hb Hnd].
    destruct (getSession b m) as [client|] eqn:E.
    + assert (Hin : b ∈ sessionIds m).
      { destruct (decide (b ∈ sessionIds m)) as [?|Hn]; [assumption|].
        apply getSession_None in Hn. congruence. }
      unfold unknownIds in *. simpl in *.
      rewrite bool_decide_eq_true_2 in * by exact Hin. simpl in *.
      now apply IH.
    + pose proof E as Hout. apply getSession_None in Hout.
      unfold unknownIds in Hreads |- *. simpl in Hreads |- *.
      rewrite bool_decide_eq_false_2 in Hreads |- * by exact Hout.
      simpl in Hreads |- *.
      fold (unknownIds m rest) in Hreads |- *.
      destruct (Hreads b (or_introl eq_refl)) as [creds Hcreds].
      assert (Husable : usable b = from_option isTruthy false creds).
      { unfold usable. rewrite Hcreds. now destruct creds. }
      unfold credsOf in Hcreds. rewrite Hcreds. rewrite Husable.
      assert (Hrest : (b ∉ rest) /\ b <> id).
      { rewrite elem_of_app, elem_of_cons in Hb. split; [tauto|].
        intros ->. tauto. }
      destruct (from_option isTruthy false creds) eqn:Et; simpl.
      * destruct (IH (fst (startSession b m)) quarantined Hnd)
          as (m' & Hloop & Hids & Hloaded).
        { rewrite (unknownIds_started _ _ _ E (proj1 Hrest)).
          intros x Hx. apply Hreads. now right. }
        { rewrite (sessionIds_started _ _ E), elem_of_app,
            list_elem_of_singleton.
          intros [?|?]; [contradiction | destruct Hrest; congruence]. }
        { exact Hthrow. }
        exists m'. rewrite Hloop, Hids.
        rewrite (unknownIds_started _ _ _ E (proj1 Hrest)).
        rewrite (sessionIds_started _ _ E), <- app_assoc. simpl.
        split; [reflexivity|]. split; [reflexivity|].
        rewrite Hloaded. unfold startSession. now rewrite E.
      * destruct (IH m (quarantined ++ [b])%list Hnd)
          as (m' & Hloop & Hids & Hloaded).
        { intros x Hx. apply Hreads. now right. }
        { exact Hid. }
        { exact Hthrow. }
        exists m'. rewrite Hloop, Hids, <- app_assoc. simpl. auto.
Qed.

(** X28. When every read of [creds.json] returns, [loadSessions] restores the
    usable sessions it did not know, in the order of the listing,
    quarantines the others, and marks the manager as loaded; a second
    call does nothing. *)
Theorem loadSessions_restores ids m :
  isLoaded m = false ->
  NoDup ids ->
  (forall id, In id (unknownIds m ids) ->
              exists creds, credsOf id = Returned creds) ->
  sessionIds (fst (loadSessions (Some ids) m))
  = (sessionIds m ++ List.filter usable (unknownIds m ids))%list
  /\ snd (loadSessions (Some ids) m)
     = List.filter (fun id => negb (usable id)) (unknownIds m ids)
  /\ isLoaded (fst (loadSessions (Some ids) m)) = true
  /\ forall listing,
       loadSessions listing (fst (loadSessions (Some ids) m))
       = (fst (loadSessions (Some ids) m), []).
Proof.
  intros Hloaded Hnd Hreads. unfold SessionManager.loadSessions.
  rewrite Hloaded.
  destruct (loadLoop_finished ids m [] Hnd Hreads) as (m' & Hloop & Hids & _).
  rewrite Hloop. simpl. repeat split; auto.
Qed.

(** X29. A [creds.json] whose read throws (an unparsable or empty file, a lock
    that outlasts the retries) stops the loading: the session is neither
    restored nor quarantined, the sessions listed after it are not looked
    at, and the manager stays unloaded, so that the next call starts
    over. *)
Theorem loadSessions_aborts before id after message m :
  isLoaded m = false ->
  NoDup (before ++ id :: after)%list ->
  (forall x, In x (unknownIds m before) ->
             exists creds, credsOf x = Returned creds) ->
  id ∉ sessionIds m ->
  credsOf id = Threw message ->
  sessionIds (fst (loadSessions (Some (before ++ id :: after)%list) m))
  = (sessionIds m ++ List.filter usable (unknownIds m before))%list
  /\ snd (loadSessions (Some (before ++ id :: after)%list) m)
     = List.filter (fun x => negb (usable x)) (unknownIds m before)
  /\ isLoaded (fst (loadSessions (Some (before ++ id :: after)%list) m)) = false.
Proof.
  intros Hloaded Hnd Hreads Hid Hthrow. unfold SessionManager.loadSessions.
  rewrite Hloaded.
  destruct (loadLoop_aborted before id after message m [] Hnd Hreads Hid
              Hthrow) as (m' & Hloop & Hids & Hl).
  rewrite Hloop. simpl. repeat split; auto. congruence.
Qed.

End Loading.

(** *** Concrete managers *)

Lemma newManager_wellFormed : wellFormed newManager.
Proof. repeat split; constructor. Qed.

(** A manager with the sessions chip_1 and chip_2. *)
Definition twoSessions : Manager :=
  fst (startSession "chip_2" (fst (startSession "chip_1" newManager))).

Lemma twoSessions_wellFormed : wellFormed twoSessions.
Proof.
  apply startSession_wellFormed, startSession_wellFormed,
    newManager_wellFormed.
Qed.

(** A session directory that can be neither deleted nor renamed. *)
Definition lockedFiles : RemoveEnv :=
  mkRemoveEnv (Some (Threw "EBUSY")) true (fun _ => Threw "EBUSY")
              (Threw "EPERM").

(** The [creds.json] of the sessions on disk: chip_1 and chip_3 have a
    readable one, chip_4 has none, and that of chip_5 is cut short. *)
Definition credsOnDisk (id : string) (i : nat) : ReadTry :=
  if bool_decide (id = "chip_4") then NoFile
  else if bool_decide (id = "chip_5") then Content "{ me: "
  else Content "{}".

(** A stand-in for [JSON.parse]: an object must be closed. *)
Definition parseClosed (content : string) : outcome (option string) :=
  if bool_decide (content = "{}") then Returned (Some content)
  else Threw "Unexpected end of JSON input".

Lemma removeSession_forgets_witness :
  getSession "chip_1"
    (fst (fst (removeSession "chip_1" lockedFiles twoSessions))) = None
  /\ snd (removeSession "chip_1" lockedFiles twoSessions) = false.
Proof.
  split.
  - apply (removeSession_forgets "chip_1" lockedFiles twoSessions).
  - reflexivity.
Defined.

Lemma loadSessions_restores_witness :
  sessionIds
    (fst (loadSessions string parseClosed (fun _ => true) credsOnDisk
            (Some ["chip_1"; "chip_3"; "chip_4"]) twoSessions))
  = ["chip_1"; "chip_2"; "chip_3"]
  /\ snd (loadSessions string parseClosed (fun _ => true) credsOnDisk
            (Some ["chip_1"; "chip_3"; "chip_4"]) twoSessions)
     = ["chip_4"].
Proof.
  destruct (loadSessions_restores string parseClosed (fun _ => true)
              credsOnDisk ["chip_1"; "chip_3"; "chip_4"] twoSessions)
    as (Hids & Hq & _).
  - reflexivity.
  - apply (bool_decide_unpack _). vm_compute. exact I.
  - intros id Hid. vm_compute in Hid.
    destruct Hid as [<-|[<-|[]]]; eexists; vm_compute; reflexivity.
  - split; [exact Hids | exact Hq].
Defined.

Lemma loadSessions_aborts_witness :
  sessionIds
    (fst (loadSessions string parseClosed (fun _ => true) credsOnDisk
            (Some ["chip_3"; "chip_5"; "chip_6"]) twoSessions))
  = ["chip_1"; "chip_2"; "chip_3"]
  /\ snd (loadSessions string parseClosed (fun _ => true) credsOnDisk
            (Some ["chip_3"; "chip_5"; "chip_6"]) twoSessions)
     = []
  /\ isLoaded
       (fst (loadSessions string parseClosed (fun _ => true) credsOnDisk
               (Some ["chip_3"; "chip_5"; "chip_6"]) twoSessions))
     = false.
Proof.
  apply (loadSessions_aborts string parseClosed (fun _ => true) credsOnDisk
           ["chip_3"] "chip_5" ["chip_6"]
           "JSON Parse Error: Unexpected end of JSON input" twoSessions).
  - reflexivity.
  - apply (bool_decide_unpack _). vm_compute. exact I.
  - intros id Hid. vm_compute in Hid.
    destruct Hid as [<-|[]]; eexists; vm_compute; reflexivity.
  - apply (bool_decide_unpack _). vm_compute. exact I.
  - vm_compute. reflexivity.
Defined.

End SessionManagerFacts.

Module QrWindowFacts.
Import QrWindow.

(** No status among [events] reports a connection. *)
Definition stillWaiting (events : list ClientEvent) : Prop :=
  Forall (fun ev => match ev with
                    | StatusChange status => connects status = false
                    | Qr _ _ => True
                    end) events.

(** The timestamps of the QR codes among [out]. *)
Definition qrTimestamps (out : list SocketEvent) : list (option Z) :=
  omap (fun e => match e with
                 | qr_code _ _ t => Some t
                 | _ => None
                 end) out.

Section Listeners.

Variable id : string.
Variable toDataURL : string -> outcome string.

Local Abbreviation listenAll := (listenAll id toDataURL).

Lemma listenAll_armed events :
  forall deadline t,
    stillWaiting events ->
    fst (listenAll events (mkQrState (Some deadline) t))
    = mkQrState (Some deadline) t
    /\ Forall (fun stamp => stamp = t)
              (qrTimestamps
                 (snd (listenAll events (mkQrState (Some deadline) t)))).
Proof.
  induction events as [|ev rest IH]; intros deadline t Hwait; simpl.
  - split; [reflexivity | constructor].
  - apply Forall_cons in Hwait as [Hev Hwait].
    destruct (IH deadline t Hwait) as [Hstate Hstamps].
    destruct ev as [now qr|status]; simpl.
    + destruct (listenAll rest (mkQrState (Some deadline) t)) as [c' out'].
      simpl in *. split; [exact Hstate|].
      destruct (toDataURL qr); simpl; [constructor; auto | exact Hstamps].
    + rewrite Hev.
      destruct (listenAll rest (mkQrState (Some deadline) t)) as [c' out'].
      simpl in *. auto.
Qed.

(** X30. The auto-destroy timer is set by the first QR code and by no later
    one: while no status reports a connection, the timer stays at 60
    seconds after the first QR code however often the code is renewed, and
    every [qr_code] event carries the time of the first one. *)
Theorem qr_window_fixed now qr events :
  now <> 0%Z ->
  stillWaiting events ->
  fst (listenAll (Qr now qr :: events) (mkQrState None None))
  = mkQrState (Some (now + 60000)%Z) (Some now)
  /\ Forall (fun stamp => stamp = Some now)
            (qrTimestamps
               (snd (listenAll (Qr now qr :: events) (mkQrState None None)))).
Proof.
  intros Hnow Hwait. simpl.
  destruct (listenAll_armed events (now + 60000)%Z (Some now) Hwait)
    as [Hstate Hstamps].
  destruct (listenAll events _) as [c' out']. simpl in *.
  split; [exact Hstate|].
  destruct (toDataURL qr); simpl; [constructor; auto | exact Hstamps].
Qed.

End Listeners.

Lemma qr_window_fixed_witness :
  fst (listenAll "chip_1" (fun qr => Returned ("data:" +:+ qr))
         [Qr 1000 "qr-a"; StatusChange "QR"; Qr 21000 "qr-b";
          Qr 41000 "qr-c"]
         (mkQrState None None))
  = mkQrState (Some 61000%Z) (Some 1000%Z).
Proof.
  apply (qr_window_fixed "chip_1" (fun qr => Returned ("data:" +:+ qr))
           1000 "qr-a" [StatusChange "QR"; Qr 21000 "qr-b"; Qr 41000 "qr-c"]).
  - discriminate.
  - repeat constructor.
Defined.

End QrWindowFacts.
